(** * Token-stream animation engine of the SpecNet dashboard

    Shallow embedding of [src/components/dashboard-body.tsx] and
    [src/components/chat-stream.tsx]: the step segmenter [buildSteps], the
    packet throttler [emitPacketForWords], the timer-driven demo scheduler
    [processDemoStep] / [processStep], the live adapter inside
    [handleSubmit], and the bounded status log of [addEvent].

    Conventions of the embedding.
    - A JavaScript string is a [string] whose characters are the code units
      below 256; the character class [\s] is restricted to that range.
    - Counters that only ever start at 0 and grow by 1 are [nat]; numbers
      that come from the transport or are multiplied and divided
      (acceptance rate, savings) are IEEE-754 binary64 [float]s.
    - React state setters and refs are fields of one record that is threaded
      through every callback.  React queues a functional updater
      [prev => ...] and calls it at the next render, after the running
      callback has returned.  For an updater that reads only [prev] and
      constants of its closure this is the same as applying it where it is
      enqueued, and that is how such updaters are embedded.  The one updater
      that reads a mutable cell is the one of [addEvent] in chat-stream.tsx
      (it reads [eventIdRef.current]); it is queued and run at the render.
    - [setTimeout] / [clearTimeout] act on an explicit table of pending
      timers; the closure handed to [setTimeout] is a constructor of a
      [Callback] type that carries the captured variables. *)

From Stdlib Require Import Ascii String Floats Sorted.
From stdpp Require Import list strings.

(** ** Strings: [trim], [split(/\s+/)], [countWords] *)

Module Text.

(** [\s] on code units below 256: TAB, LF, VT, FF, CR, SPACE, NBSP. *)
Definition is_space (c : ascii) : bool :=
  let n := nat_of_ascii c in
  ((9 <=? n) && (n <=? 13)) || (n =? 32) || (n =? 160).

Fixpoint trimStart (s : string) : string :=
  match s with
  | EmptyString => EmptyString
  | String c s' => if is_space c then trimStart s' else s
  end.

Fixpoint trimEnd (s : string) : string :=
  match s with
  | EmptyString => EmptyString
  | String c s' =>
      match trimEnd s' with
      | EmptyString => if is_space c then EmptyString else String c EmptyString
      | r => String c r
      end
  end.

(** [String.prototype.trim] *)
Definition trim (s : string) : string := trimEnd (trimStart s).

(** [s.split(/\s+/)]: [cur] is the piece being read, [insep] tells that
    the previous character belonged to a separator run.  The empty string
    splits to one empty piece, as in JavaScript. *)
Fixpoint split_spaces (s : string) (cur : string) (insep : bool) : list string :=
  match s with
  | EmptyString => [cur]
  | String c s' =>
      if is_space c
      then (if insep then split_spaces s' EmptyString true
            else cur :: split_spaces s' EmptyString true)
      else split_spaces s' (cur +:+ String c EmptyString) false
  end.

(** [Boolean(piece)] for a string: non-empty. *)
Definition truthy (s : string) : bool :=
  match s with EmptyString => false | _ => true end.

End Text.

(** [countWords], dashboard-body.tsx:120 *)
Definition countWords (text : string) : nat :=
  length (List.filter Text.truthy (Text.split_spaces (Text.trim text) EmptyString false)).

(** ** Tokens and animation steps (identical in both components) *)

Inductive TokenType := TAccepted | TRejected | TCorrected.

#[global] Instance TokenType_eq_dec : EqDecision TokenType.
Proof. solve_decision. Defined.

Module Token.
Record t := mk { text : string; type : TokenType }.
End Token.

Inductive AnimStep :=
| KAccepted (token : Token.t) (index : nat)
| KRejection (rejected corrected : Token.t) (rejIdx corrIdx : nat).

(** The guard of the [if] in the loop of [buildSteps]:
    [t.type === "rejected" && i + 1 < tokens.length
       && tokens[i + 1].type === "corrected"];
    it yields the successor token when the guard holds. *)
Definition rejection_pair (tokens : list Token.t) (i : nat) (t : Token.t)
  : option Token.t :=
  if bool_decide (Token.type t = TRejected) && (i + 1 <? length tokens) then
    match tokens !! (i + 1) with
    | Some c => if bool_decide (Token.type c = TCorrected) then Some c else None
    | None => None
    end
  else None.

(** One iteration of the [while] loop on the loop state [(i, steps)];
    [None] when the loop condition [i < tokens.length] is false. *)
Definition buildSteps_iter (tokens : list Token.t) (s : nat * list AnimStep)
  : option (nat * list AnimStep) :=
  let '(i, steps) := s in
  match tokens !! i with
  | None => None
  | Some t =>
      match rejection_pair tokens i t with
      | Some c => Some (i + 2, steps ++ [KRejection t c i (i + 1)])
      | None => Some (i + 1, steps ++ [KAccepted t i])
      end
  end.

(** The loop, with fuel; [None] only when the fuel runs out. *)
Fixpoint buildSteps_loop (fuel : nat) (tokens : list Token.t)
    (s : nat * list AnimStep) : option (list AnimStep) :=
  match buildSteps_iter tokens s with
  | None => Some (snd s)
  | Some s' =>
      match fuel with
      | 0 => None
      | S fuel' => buildSteps_loop fuel' tokens s'
      end
  end.

(** [buildSteps], dashboard-body.tsx:92 and chat-stream.tsx:107.  Every
    iteration advances the cursor, so [length tokens] iterations suffice
    (lemma [buildSteps_loop_total] below). *)
Definition buildSteps (tokens : list Token.t) : list AnimStep :=
  default [] (buildSteps_loop (length tokens) tokens (0, [])).

(** The segmentation rule in the words of the specification, as a relation
    between the cursor position, the tokens from the cursor on, and the
    steps emitted for them. *)
Inductive Segments : nat -> list Token.t -> list AnimStep -> Prop :=
| Segments_end i :
    Segments i [] []
| Segments_rejection i t c rest steps :
    Token.type t = TRejected ->
    Token.type c = TCorrected ->
    Segments (i + 2) rest steps ->
    Segments i (t :: c :: rest) (KRejection t c i (i + 1) :: steps)
| Segments_accepted i t rest steps :
    ~ (Token.type t = TRejected /\
       exists c rest', rest = c :: rest' /\ Token.type c = TCorrected) ->
    Segments (i + 1) rest steps ->
    Segments i (t :: rest) (KAccepted t i :: steps).

(** The demo token stream shared by both components. *)
Definition tok (s : string) (k : TokenType) : Token.t := Token.mk s k.

Definition DEMO_TOKEN_STREAM : list Token.t :=
  [ tok "The" TAccepted; tok " theory" TAccepted; tok " of" TAccepted;
    tok " relativity," TAccepted; tok " proposed" TAccepted;
    tok " by" TAccepted; tok " Albert" TAccepted; tok " Einstein" TAccepted;
    tok " in" TAccepted; tok " the early" TRejected; tok " 1905" TCorrected;
    tok " and" TAccepted; tok " 1915," TAccepted;
    tok " fundamentally" TAccepted; tok " changed" TRejected;
    tok " revolutionized" TCorrected; tok " our" TAccepted;
    tok " understanding" TAccepted; tok " of" TAccepted;
    tok " space" TAccepted; tok " and" TAccepted; tok " time." TAccepted;
    tok " Special" TAccepted; tok " relativity" TAccepted;
    tok " shows" TRejected; tok " demonstrates" TCorrected;
    tok " that" TAccepted; tok " the" TAccepted; tok " speed" TAccepted;
    tok " of" TAccepted; tok " light" TAccepted; tok " is" TAccepted;
    tok " constant" TAccepted; tok " for" TAccepted; tok " all" TAccepted;
    tok " observers," TAccepted; tok " leading" TAccepted;
    tok " to" TAccepted; tok " the" TAccepted; tok " famous" TRejected;
    tok " iconic" TCorrected; tok " equation" TAccepted;
    tok (" E=mc" +:+ String (ascii_of_nat 178) ".") TAccepted;
    tok " General" TAccepted; tok " relativity" TAccepted;
    tok " extends" TAccepted; tok " this" TAccepted; tok " by" TAccepted;
    tok " explaining" TRejected; tok " describing" TCorrected;
    tok " gravity" TAccepted; tok " not" TAccepted; tok " as" TAccepted;
    tok " a" TAccepted; tok " force," TAccepted; tok " but" TAccepted;
    tok " as" TAccepted; tok " a" TAccepted; tok " curvature" TAccepted;
    tok " of" TAccepted; tok " spacetime" TAccepted; tok " caused" TAccepted;
    tok " by" TAccepted; tok " mass" TRejected;
    tok " massive objects." TCorrected ].

(** ** Timers: [setTimeout], [clearTimeout] and the order of firing *)

Module Timers.
Section Timers.
Context {C : Type}.

Record Timer := mkTimer { timer_id : nat; due : nat; callback : C }.

(** [now] is the clock in milliseconds; timer ids are positive, hence
    truthy, and never reused. *)
Record Loop := mkLoop { now : nat; nextTimer : nat; pending : list Timer }.

Definition init : Loop := mkLoop 0 1 [].

Definition setTimeout (cb : C) (delay : nat) (l : Loop) : nat * Loop :=
  (nextTimer l,
   mkLoop (now l) (S (nextTimer l))
          (pending l ++ [mkTimer (nextTimer l) (now l + delay) cb])).

Definition clearTimeout (id : nat) (l : Loop) : Loop :=
  mkLoop (now l) (nextTimer l)
         (filter (fun t => timer_id t <> id) (pending l)).

(** The timer that fires next: the least due time, and among equal due
    times the one created first ([pending] is in creation order). *)
Fixpoint earliest (ts : list Timer) : option Timer :=
  match ts with
  | [] => None
  | t :: ts' =>
      match earliest ts' with
      | Some u => if due u <? due t then Some u else Some t
      | None => Some t
      end
  end.

(** Take the next timer out of the table and move the clock to its due
    time, unless the clock is already past it. *)
Definition fire (l : Loop) : option (C * Loop) :=
  match earliest (pending l) with
  | None => None
  | Some t =>
      Some (callback t,
            mkLoop (Nat.max (now l) (due t)) (nextTimer l)
                   (filter (fun u => timer_id u <> timer_id t) (pending l)))
  end.

Definition elapse (ms : nat) (l : Loop) : Loop :=
  mkLoop (now l + ms) (nextTimer l) (pending l).
End Timers.
Arguments Timer : clear implicits.
Arguments Loop : clear implicits.
End Timers.

(** ** Shared view-model types *)

Inductive Phase := idle | drafting | verifying | correcting | complete.

Inductive RenderPhase := appearing | striking | struck | hidden | settled.

#[global] Instance Phase_eq_dec : EqDecision Phase.
Proof. solve_decision. Defined.

#[global] Instance RenderPhase_eq_dec : EqDecision RenderPhase.
Proof. solve_decision. Defined.

Record VisibleToken := mkVisible {
  vt_text : string;
  vt_type : TokenType;
  vt_phase : RenderPhase
}.

Definition with_phase (p : RenderPhase) (t : VisibleToken) : VisibleToken :=
  mkVisible (vt_text t) (vt_type t) p.

Record Counts := mkCounts {
  accepted : nat;
  rejected : nat;
  corrected : nat;
  drafted : nat
}.

Definition no_counts : Counts := mkCounts 0 0 0 0.

(** [copy[copy.length - 1] = { ...copy[copy.length - 1], phase: p }] on a
    copy of the list.  On the empty list the assignment goes to the
    property [-1] of the array, which is no element of it: the list of
    elements stays empty. *)
Definition set_last_phase (p : RenderPhase) (l : list VisibleToken)
  : list VisibleToken :=
  match length l with
  | 0 => l
  | S n => alter (with_phase p) n l
  end.

(** [prev.filter(t => t.phase !== "hidden")] *)
Definition without_hidden (l : list VisibleToken) : list VisibleToken :=
  filter (fun t => vt_phase t <> hidden) l.

(** [Array.prototype.findLastIndex]; [None] stands for [-1]. *)
Fixpoint findLastIndex {A} (p : A -> bool) (l : list A) : option nat :=
  match l with
  | [] => None
  | x :: l' =>
      match findLastIndex p l' with
      | Some i => Some (S i)
      | None => if p x then Some 0 else None
      end
  end.

Definition ACCEPTED_DELAY := 60.
Definition REJECTED_SHOW_DELAY := 80.
Definition STRIKE_PAUSE := 500.
Definition INITIAL_DELAY := 800.

(** ** [lib/types.ts]: the messages of the transport *)

Record InferenceRequest := mkRequest {
  req_prompt : string;
  max_tokens : option float;
  temperature : option float;
  top_k : option float;
  draft_tokens : option float
}.

Record TokenEvent := mkTokenEvent {
  te_text : string;
  te_type : TokenType;
  token_id : option float;
  logprob : option float
}.

Record RoundEvent := mkRound {
  round_num : float;
  round_drafted : float;
  round_accepted : float;
  round_corrected : float;
  verification_time_ms : float;
  round_acceptance_rate : float
}.

Record InferenceResponse := mkResponse {
  request_id : string;
  generated_text : string;
  tokens : list TokenEvent;
  total_tokens : float;
  draft_tokens_generated : float;
  draft_tokens_accepted : float;
  generation_time_ms : float;
  acceptance_rate : float;
  speculation_rounds : float
}.

Inductive StreamMessage :=
| MsgToken (data : TokenEvent)
| MsgRound (data : RoundEvent)
| MsgDone (data : InferenceResponse)
| MsgError (message : string).

(** ** [dashboard-body.tsx]: the dashboard component *)

Module Dashboard.

Inductive Lane := draft | verify.
Inductive Direction := ltr | rtl.

#[global] Instance Lane_eq_dec : EqDecision Lane.
Proof. solve_decision. Defined.

Record PacketEvent := mkPacket {
  id : nat;
  direction : Direction;
  lane : Lane;
  color : string
}.

Record WordBuffer := mkBuffer { buf_draft : nat; buf_verify : nat }.

Definition buffer_of (l : Lane) (b : WordBuffer) : nat :=
  match l with draft => buf_draft b | verify => buf_verify b end.

Definition set_buffer_of (l : Lane) (n : nat) (b : WordBuffer) : WordBuffer :=
  match l with
  | draft => mkBuffer n (buf_verify b)
  | verify => mkBuffer (buf_draft b) n
  end.

(** The variables that one call of [handleSubmit] closes over. *)
Record Run := mkRun { tokenQueue : list TokenEvent; processing : bool }.

(** The closures handed to [setTimeout].  The demo closures capture the
    rejected and corrected token of the step being animated, as far as
    they still read them; the live ones capture the call of [handleSubmit]
    (its index in [runs]) whose queue they drain. *)
Inductive Callback :=
| CbProcessDemoStep
| CbDemoVerify (rej cor : Token.t)
| CbDemoHide (cor : Token.t)
| CbDemoCorrect (cor : Token.t)
| CbDemoSettle
| CbProcessTokenQueue (run : nat)
| CbLiveStrike (run : nat)
| CbLiveHide (run : nat)
| CbLiveFilter (run : nat)
| CbLiveSettle (run : nat)
| CbCheckDone (run : nat).

Record State := mkState {
  (* useState *)
  backendOnline : option bool;
  isStreaming : bool;
  phase : Phase;
  prompt : string;
  visibleTokens : list VisibleToken;
  done : bool;
  counts : Counts;
  packets : list PacketEvent;
  acceptanceRate : float;
  totalInferenceTimeSavedMs : float;
  costSavingsDollars : float;
  (* useRef *)
  packetId : nat;
  packetWordBuffer : WordBuffer;
  streamStartMs : nat;
  generatedOutputTokens : nat;
  acceptedDraftTokens : float;
  stepIdx : nat;
  timeoutRef : option nat;
  cleanupRef : option nat;
  (* per-call variables of [handleSubmit], one entry per call *)
  runs : list Run;
  (* the browser: pending timers and the clock *)
  loop : Timers.Loop Callback;
  (* calls made to the transport: [streamInference] and its cleanups *)
  requests : list (nat * InferenceRequest);
  cleanupCalls : list nat
}.

Definition set_backendOnline (v : option bool) (st : State) : State :=
  {| backendOnline := v; isStreaming := isStreaming st; phase := phase st; prompt := prompt st; visibleTokens := visibleTokens st; done := done st; counts := counts st; packets := packets st; acceptanceRate := acceptanceRate st; totalInferenceTimeSavedMs := totalInferenceTimeSavedMs st; costSavingsDollars := costSavingsDollars st; packetId := packetId st; packetWordBuffer := packetWordBuffer st; streamStartMs := streamStartMs st; generatedOutputTokens := generatedOutputTokens st; acceptedDraftTokens := acceptedDraftTokens st; stepIdx := stepIdx st; timeoutRef := timeoutRef st; cleanupRef := cleanupRef st; runs := runs st; loop := loop st; requests := requests st; cleanupCalls := cleanupCalls st |}.
Definition set_isStreaming (v : bool) (st : State) : State :=
  {| backendOnline := backendOnline st; isStreaming := v; phase := phase st; prompt := prompt st; visibleTokens := visibleTokens st; done := done st; counts := counts st; packets := packets st; acceptanceRate := acceptanceRate st; totalInferenceTimeSavedMs := totalInferenceTimeSavedMs st; costSavingsDollars := costSavingsDollars st; packetId := packetId st; packetWordBuffer := packetWordBuffer st; streamStartMs := streamStartMs st; generatedOutputTokens := generatedOutputTokens st; acceptedDraftTokens := acceptedDraftTokens st; stepIdx := stepIdx st; timeoutRef := timeoutRef st; cleanupRef := cleanupRef st; runs := runs st; loop := loop st; requests := requests st; cleanupCalls := cleanupCalls st |}.
Definition set_phase (v : Phase) (st : State) : State :=
  {| backendOnline := backendOnline st; isStreaming := isStreaming st; phase := v; prompt := prompt st; visibleTokens := visibleTokens st; done := done st; counts := counts st; packets := packets st; acceptanceRate := acceptanceRate st; totalInferenceTimeSavedMs := totalInferenceTimeSavedMs st; costSavingsDollars := costSavingsDollars st; packetId := packetId st; packetWordBuffer := packetWordBuffer st; streamStartMs := streamStartMs st; generatedOutputTokens := generatedOutputTokens st; acceptedDraftTokens := acceptedDraftTokens st; stepIdx := stepIdx st; timeoutRef := timeoutRef st; cleanupRef := cleanupRef st; runs := runs st; loop := loop st; requests := requests st; cleanupCalls := cleanupCalls st |}.
Definition set_prompt (v : string) (st : State) : State :=
  {| backendOnline := backendOnline st; isStreaming := isStreaming st; phase := phase st; prompt := v; visibleTokens := visibleTokens st; done := done st; counts := counts st; packets := packets st; acceptanceRate := acceptanceRate st; totalInferenceTimeSavedMs := totalInferenceTimeSavedMs st; costSavingsDollars := costSavingsDollars st; packetId := packetId st; packetWordBuffer := packetWordBuffer st; streamStartMs := streamStartMs st; generatedOutputTokens := generatedOutputTokens st; acceptedDraftTokens := acceptedDraftTokens st; stepIdx := stepIdx st; timeoutRef := timeoutRef st; cleanupRef := cleanupRef st; runs := runs st; loop := loop st; requests := requests st; cleanupCalls := cleanupCalls st |}.
Definition set_visibleTokens (v : list VisibleToken) (st : State) : State :=
  {| backendOnline := backendOnline st; isStreaming := isStreaming st; phase := phase st; prompt := prompt st; visibleTokens := v; done := done st; counts := counts st; packets := packets st; acceptanceRate := acceptanceRate st; totalInferenceTimeSavedMs := totalInferenceTimeSavedMs st; costSavingsDollars := costSavingsDollars st; packetId := packetId st; packetWordBuffer := packetWordBuffer st; streamStartMs := streamStartMs st; generatedOutputTokens := generatedOutputTokens st; acceptedDraftTokens := acceptedDraftTokens st; stepIdx := stepIdx st; timeoutRef := timeoutRef st; cleanupRef := cleanupRef st; runs := runs st; loop := loop st; requests := requests st; cleanupCalls := cleanupCalls st |}.
Definition set_done (v : bool) (st : State) : State :=
  {| backendOnline := backendOnline st; isStreaming := isStreaming st; phase := phase st; prompt := prompt st; visibleTokens := visibleTokens st; done := v; counts := counts st; packets := packets st; acceptanceRate := acceptanceRate st; totalInferenceTimeSavedMs := totalInferenceTimeSavedMs st; costSavingsDollars := costSavingsDollars st; packetId := packetId st; packetWordBuffer := packetWordBuffer st; streamStartMs := streamStartMs st; generatedOutputTokens := generatedOutputTokens st; acceptedDraftTokens := acceptedDraftTokens st; stepIdx := stepIdx st; timeoutRef := timeoutRef st; cleanupRef := cleanupRef st; runs := runs st; loop := loop st; requests := requests st; cleanupCalls := cleanupCalls st |}.
Definition set_counts (v : Counts) (st : State) : State :=
  {| backendOnline := backendOnline st; isStreaming := isStreaming st; phase := phase st; prompt := prompt st; visibleTokens := visibleTokens st; done := done st; counts := v; packets := packets st; acceptanceRate := acceptanceRate st; totalInferenceTimeSavedMs := totalInferenceTimeSavedMs st; costSavingsDollars := costSavingsDollars st; packetId := packetId st; packetWordBuffer := packetWordBuffer st; streamStartMs := streamStartMs st; generatedOutputTokens := generatedOutputTokens st; acceptedDraftTokens := acceptedDraftTokens st; stepIdx := stepIdx st; timeoutRef := timeoutRef st; cleanupRef := cleanupRef st; runs := runs st; loop := loop st; requests := requests st; cleanupCalls := cleanupCalls st |}.
Definition set_packets (v : list PacketEvent) (st : State) : State :=
  {| backendOnline := backendOnline st; isStreaming := isStreaming st; phase := phase st; prompt := prompt st; visibleTokens := visibleTokens st; done := done st; counts := counts st; packets := v; acceptanceRate := acceptanceRate st; totalInferenceTimeSavedMs := totalInferenceTimeSavedMs st; costSavingsDollars := costSavingsDollars st; packetId := packetId st; packetWordBuffer := packetWordBuffer st; streamStartMs := streamStartMs st; generatedOutputTokens := generatedOutputTokens st; acceptedDraftTokens := acceptedDraftTokens st; stepIdx := stepIdx st; timeoutRef := timeoutRef st; cleanupRef := cleanupRef st; runs := runs st; loop := loop st; requests := requests st; cleanupCalls := cleanupCalls st |}.
Definition set_acceptanceRate (v : float) (st : State) : State :=
  {| backendOnline := backendOnline st; isStreaming := isStreaming st; phase := phase st; prompt := prompt st; visibleTokens := visibleTokens st; done := done st; counts := counts st; packets := packets st; acceptanceRate := v; totalInferenceTimeSavedMs := totalInferenceTimeSavedMs st; costSavingsDollars := costSavingsDollars st; packetId := packetId st; packetWordBuffer := packetWordBuffer st; streamStartMs := streamStartMs st; generatedOutputTokens := generatedOutputTokens st; acceptedDraftTokens := acceptedDraftTokens st; stepIdx := stepIdx st; timeoutRef := timeoutRef st; cleanupRef := cleanupRef st; runs := runs st; loop := loop st; requests := requests st; cleanupCalls := cleanupCalls st |}.
Definition set_totalInferenceTimeSavedMs (v : float) (st : State) : State :=
  {| backendOnline := backendOnline st; isStreaming := isStreaming st; phase := phase st; prompt := prompt st; visibleTokens := visibleTokens st; done := done st; counts := counts st; packets := packets st; acceptanceRate := acceptanceRate st; totalInferenceTimeSavedMs := v; costSavingsDollars := costSavingsDollars st; packetId := packetId st; packetWordBuffer := packetWordBuffer st; streamStartMs := streamStartMs st; generatedOutputTokens := generatedOutputTokens st; acceptedDraftTokens := acceptedDraftTokens st; stepIdx := stepIdx st; timeoutRef := timeoutRef st; cleanupRef := cleanupRef st; runs := runs st; loop := loop st; requests := requests st; cleanupCalls := cleanupCalls st |}.
Definition set_costSavingsDollars (v : float) (st : State) : State :=
  {| backendOnline := backendOnline st; isStreaming := isStreaming st; phase := phase st; prompt := prompt st; visibleTokens := visibleTokens st; done := done st; counts := counts st; packets := packets st; acceptanceRate := acceptanceRate st; totalInferenceTimeSavedMs := totalInferenceTimeSavedMs st; costSavingsDollars := v; packetId := packetId st; packetWordBuffer := packetWordBuffer st; streamStartMs := streamStartMs st; generatedOutputTokens := generatedOutputTokens st; acceptedDraftTokens := acceptedDraftTokens st; stepIdx := stepIdx st; timeoutRef := timeoutRef st; cleanupRef := cleanupRef st; runs := runs st; loop := loop st; requests := requests st; cleanupCalls := cleanupCalls st |}.
Definition set_packetId (v : nat) (st : State) : State :=
  {| backendOnline := backendOnline st; isStreaming := isStreaming st; phase := phase st; prompt := prompt st; visibleTokens := visibleTokens st; done := done st; counts := counts st; packets := packets st; acceptanceRate := acceptanceRate st; totalInferenceTimeSavedMs := totalInferenceTimeSavedMs st; costSavingsDollars := costSavingsDollars st; packetId := v; packetWordBuffer := packetWordBuffer st; streamStartMs := streamStartMs st; generatedOutputTokens := generatedOutputTokens st; acceptedDraftTokens := acceptedDraftTokens st; stepIdx := stepIdx st; timeoutRef := timeoutRef st; cleanupRef := cleanupRef st; runs := runs st; loop := loop st; requests := requests st; cleanupCalls := cleanupCalls st |}.
Definition set_packetWordBuffer (v : WordBuffer) (st : State) : State :=
  {| backendOnline := backendOnline st; isStreaming := isStreaming st; phase := phase st; prompt := prompt st; visibleTokens := visibleTokens st; done := done st; counts := counts st; packets := packets st; acceptanceRate := acceptanceRate st; totalInferenceTimeSavedMs := totalInferenceTimeSavedMs st; costSavingsDollars := costSavingsDollars st; packetId := packetId st; packetWordBuffer := v; streamStartMs := streamStartMs st; generatedOutputTokens := generatedOutputTokens st; acceptedDraftTokens := acceptedDraftTokens st; stepIdx := stepIdx st; timeoutRef := timeoutRef st; cleanupRef := cleanupRef st; runs := runs st; loop := loop st; requests := requests st; cleanupCalls := cleanupCalls st |}.
Definition set_streamStartMs (v : nat) (st : State) : State :=
  {| backendOnline := backendOnline st; isStreaming := isStreaming st; phase := phase st; prompt := prompt st; visibleTokens := visibleTokens st; done := done st; counts := counts st; packets := packets st; acceptanceRate := acceptanceRate st; totalInferenceTimeSavedMs := totalInferenceTimeSavedMs st; costSavingsDollars := costSavingsDollars st; packetId := packetId st; packetWordBuffer := packetWordBuffer st; streamStartMs := v; generatedOutputTokens := generatedOutputTokens st; acceptedDraftTokens := acceptedDraftTokens st; stepIdx := stepIdx st; timeoutRef := timeoutRef st; cleanupRef := cleanupRef st; runs := runs st; loop := loop st; requests := requests st; cleanupCalls := cleanupCalls st |}.
Definition set_generatedOutputTokens (v : nat) (st : State) : State :=
  {| backendOnline := backendOnline st; isStreaming := isStreaming st; phase := phase st; prompt := prompt st; visibleTokens := visibleTokens st; done := done st; counts := counts st; packets := packets st; acceptanceRate := acceptanceRate st; totalInferenceTimeSavedMs := totalInferenceTimeSavedMs st; costSavingsDollars := costSavingsDollars st; packetId := packetId st; packetWordBuffer := packetWordBuffer st; streamStartMs := streamStartMs st; generatedOutputTokens := v; acceptedDraftTokens := acceptedDraftTokens st; stepIdx := stepIdx st; timeoutRef := timeoutRef st; cleanupRef := cleanupRef st; runs := runs st; loop := loop st; requests := requests st; cleanupCalls := cleanupCalls st |}.
Definition set_acceptedDraftTokens (v : float) (st : State) : State :=
  {| backendOnline := backendOnline st; isStreaming := isStreaming st; phase := phase st; prompt := prompt st; visibleTokens := visibleTokens st; done := done st; counts := counts st; packets := packets st; acceptanceRate := acceptanceRate st; totalInferenceTimeSavedMs := totalInferenceTimeSavedMs st; costSavingsDollars := costSavingsDollars st; packetId := packetId st; packetWordBuffer := packetWordBuffer st; streamStartMs := streamStartMs st; generatedOutputTokens := generatedOutputTokens st; acceptedDraftTokens := v; stepIdx := stepIdx st; timeoutRef := timeoutRef st; cleanupRef := cleanupRef st; runs := runs st; loop := loop st; requests := requests st; cleanupCalls := cleanupCalls st |}.
Definition set_stepIdx (v : nat) (st : State) : State :=
  {| backendOnline := backendOnline st; isStreaming := isStreaming st; phase := phase st; prompt := prompt st; visibleTokens := visibleTokens st; done := done st; counts := counts st; packets := packets st; acceptanceRate := acceptanceRate st; totalInferenceTimeSavedMs := totalInferenceTimeSavedMs st; costSavingsDollars := costSavingsDollars st; packetId := packetId st; packetWordBuffer := packetWordBuffer st; streamStartMs := streamStartMs st; generatedOutputTokens := generatedOutputTokens st; acceptedDraftTokens := acceptedDraftTokens st; stepIdx := v; timeoutRef := timeoutRef st; cleanupRef := cleanupRef st; runs := runs st; loop := loop st; requests := requests st; cleanupCalls := cleanupCalls st |}.
Definition set_timeoutRef (v : option nat) (st : State) : State :=
  {| backendOnline := backendOnline st; isStreaming := isStreaming st; phase := phase st; prompt := prompt st; visibleTokens := visibleTokens st; done := done st; counts := counts st; packets := packets st; acceptanceRate := acceptanceRate st; totalInferenceTimeSavedMs := totalInferenceTimeSavedMs st; costSavingsDollars := costSavingsDollars st; packetId := packetId st; packetWordBuffer := packetWordBuffer st; streamStartMs := streamStartMs st; generatedOutputTokens := generatedOutputTokens st; acceptedDraftTokens := acceptedDraftTokens st; stepIdx := stepIdx st; timeoutRef := v; cleanupRef := cleanupRef st; runs := runs st; loop := loop st; requests := requests st; cleanupCalls := cleanupCalls st |}.
Definition set_cleanupRef (v : option nat) (st : State) : State :=
  {| backendOnline := backendOnline st; isStreaming := isStreaming st; phase := phase st; prompt := prompt st; visibleTokens := visibleTokens st; done := done st; counts := counts st; packets := packets st; acceptanceRate := acceptanceRate st; totalInferenceTimeSavedMs := totalInferenceTimeSavedMs st; costSavingsDollars := costSavingsDollars st; packetId := packetId st; packetWordBuffer := packetWordBuffer st; streamStartMs := streamStartMs st; generatedOutputTokens := generatedOutputTokens st; acceptedDraftTokens := acceptedDraftTokens st; stepIdx := stepIdx st; timeoutRef := timeoutRef st; cleanupRef := v; runs := runs st; loop := loop st; requests := requests st; cleanupCalls := cleanupCalls st |}.
Definition set_runs (v : list Run) (st : State) : State :=
  {| backendOnline := backendOnline st; isStreaming := isStreaming st; phase := phase st; prompt := prompt st; visibleTokens := visibleTokens st; done := done st; counts := counts st; packets := packets st; acceptanceRate := acceptanceRate st; totalInferenceTimeSavedMs := totalInferenceTimeSavedMs st; costSavingsDollars := costSavingsDollars st; packetId := packetId st; packetWordBuffer := packetWordBuffer st; streamStartMs := streamStartMs st; generatedOutputTokens := generatedOutputTokens st; acceptedDraftTokens := acceptedDraftTokens st; stepIdx := stepIdx st; timeoutRef := timeoutRef st; cleanupRef := cleanupRef st; runs := v; loop := loop st; requests := requests st; cleanupCalls := cleanupCalls st |}.
Definition set_loop (v : Timers.Loop Callback) (st : State) : State :=
  {| backendOnline := backendOnline st; isStreaming := isStreaming st; phase := phase st; prompt := prompt st; visibleTokens := visibleTokens st; done := done st; counts := counts st; packets := packets st; acceptanceRate := acceptanceRate st; totalInferenceTimeSavedMs := totalInferenceTimeSavedMs st; costSavingsDollars := costSavingsDollars st; packetId := packetId st; packetWordBuffer := packetWordBuffer st; streamStartMs := streamStartMs st; generatedOutputTokens := generatedOutputTokens st; acceptedDraftTokens := acceptedDraftTokens st; stepIdx := stepIdx st; timeoutRef := timeoutRef st; cleanupRef := cleanupRef st; runs := runs st; loop := v; requests := requests st; cleanupCalls := cleanupCalls st |}.
Definition set_requests (v : list (nat * InferenceRequest)) (st : State) : State :=
  {| backendOnline := backendOnline st; isStreaming := isStreaming st; phase := phase st; prompt := prompt st; visibleTokens := visibleTokens st; done := done st; counts := counts st; packets := packets st; acceptanceRate := acceptanceRate st; totalInferenceTimeSavedMs := totalInferenceTimeSavedMs st; costSavingsDollars := costSavingsDollars st; packetId := packetId st; packetWordBuffer := packetWordBuffer st; streamStartMs := streamStartMs st; generatedOutputTokens := generatedOutputTokens st; acceptedDraftTokens := acceptedDraftTokens st; stepIdx := stepIdx st; timeoutRef := timeoutRef st; cleanupRef := cleanupRef st; runs := runs st; loop := loop st; requests := v; cleanupCalls := cleanupCalls st |}.
Definition set_cleanupCalls (v : list nat) (st : State) : State :=
  {| backendOnline := backendOnline st; isStreaming := isStreaming st; phase := phase st; prompt := prompt st; visibleTokens := visibleTokens st; done := done st; counts := counts st; packets := packets st; acceptanceRate := acceptanceRate st; totalInferenceTimeSavedMs := totalInferenceTimeSavedMs st; costSavingsDollars := costSavingsDollars st; packetId := packetId st; packetWordBuffer := packetWordBuffer st; streamStartMs := streamStartMs st; generatedOutputTokens := generatedOutputTokens st; acceptedDraftTokens := acceptedDraftTokens st; stepIdx := stepIdx st; timeoutRef := timeoutRef st; cleanupRef := cleanupRef st; runs := runs st; loop := loop st; requests := requests st; cleanupCalls := v |}.

Definition STREAM_TOKEN_DELAY := 20.
Definition WORDS_PER_PACKET := 3.
Definition ESTIMATED_CLOUD_COST_PER_1K_TOKENS_USD : float := 0.5%float.
Definition ESTIMATED_TIME_SAVED_PER_ACCEPTED_TOKEN_MS : float := 12%float.

Definition green : string := "hsl(142, 71%, 45%)".
Definition blue : string := "hsl(217, 91%, 60%)".
Definition yellow : string := "hsl(48, 96%, 53%)".

(** The component as mounted: the [useState] and [useRef] initial values. *)
Definition init : State :=
  {| backendOnline := None; isStreaming := false; phase := idle;
     prompt := "Explain the theory of relativity.";
     visibleTokens := []; done := false; counts := no_counts; packets := [];
     acceptanceRate := 82%float; totalInferenceTimeSavedMs := 320%float;
     costSavingsDollars := 0x1.ae147ae147ae1p-2%float; (* 0.42 *)
     packetId := 0; packetWordBuffer := mkBuffer 0 0; streamStartMs := 0;
     generatedOutputTokens := 0; acceptedDraftTokens := 0%float; stepIdx := 0;
     timeoutRef := None; cleanupRef := None;
     runs := []; loop := Timers.init; requests := []; cleanupCalls := [] |}.

Section Engine.

(** [DEMO_STEPS] is a module constant of the source; the engine is stated
    for any step list and instantiated with the demo stream below. *)
Variable DEMO_STEPS : list AnimStep.

Definition setTimeout (cb : Callback) (delay : nat) (st : State) : nat * State :=
  let '(tid, l) := Timers.setTimeout cb delay (loop st) in (tid, set_loop l st).

Definition clearTimeout (tid : nat) (st : State) : State :=
  set_loop (Timers.clearTimeout tid (loop st)) st.

(** [timeoutRef.current = setTimeout(cb, delay)] *)
Definition setTimeout_ref (cb : Callback) (delay : nat) (st : State) : State :=
  let '(tid, st) := setTimeout cb delay st in set_timeoutRef (Some tid) st.

(** [setTimeout(cb, delay)] whose id is dropped *)
Definition setTimeout_ (cb : Callback) (delay : nat) (st : State) : State :=
  snd (setTimeout cb delay st).

(** [if (timeoutRef.current) clearTimeout(timeoutRef.current)] *)
Definition clear_timeoutRef (st : State) : State :=
  match timeoutRef st with
  | Some tid => clearTimeout tid st
  | None => st
  end.

Definition emitPacket (l : Lane) (c : string) (st : State) : State :=
  let pid := packetId st in
  let st := set_packetId (pid + 1) st in
  let dir := match l with draft => ltr | verify => rtl end in
  set_packets (packets st ++ [mkPacket pid dir l c]) st.

Definition buffer (l : Lane) (st : State) : nat :=
  buffer_of l (packetWordBuffer st).

Definition set_buffer (l : Lane) (n : nat) (st : State) : State :=
  set_packetWordBuffer (set_buffer_of l n (packetWordBuffer st)) st.

(** The [while] loop of [emitPacketForWords]; every iteration lowers the
    buffer by 3, so fuel equal to the buffer is never used up. *)
Fixpoint emitPacketForWords_loop (fuel : nat) (l : Lane) (c : string)
    (st : State) : State :=
  if WORDS_PER_PACKET <=? buffer l st then
    match fuel with
    | 0 => st
    | S fuel' =>
        let st := emitPacket l c st in
        let st := set_buffer l (buffer l st - WORDS_PER_PACKET) st in
        emitPacketForWords_loop fuel' l c st
    end
  else st.

Definition emitPacketForWords (l : Lane) (c : string) (text : string)
    (st : State) : State :=
  let words := countWords text in
  if words =? 0 then st
  else
    let st := set_buffer l (buffer l st + words) st in
    emitPacketForWords_loop (buffer l st) l c st.

Definition handlePacketDone (pid : nat) (st : State) : State :=
  set_packets (filter (fun p => id p <> pid) (packets st)) st.

Definition push_visible (t : VisibleToken) (st : State) : State :=
  set_visibleTokens (visibleTokens st ++ [t]) st.

(** *** Demo mode *)

(** [processDemoStep]; [DEMO_STEPS !! stepIdx] is [None] exactly when
    [stepIdx.current >= DEMO_STEPS.length]. *)
Definition processDemoStep (st : State) : State :=
  match DEMO_STEPS !! stepIdx st with
  | None =>
      let st := set_done true st in
      set_phase complete st
  | Some step =>
      let st := set_stepIdx (stepIdx st + 1) st in
      match step with
      | KAccepted token _ =>
          let st := set_phase drafting st in
          let st := emitPacketForWords draft green (Token.text token) st in
          let st := emitPacketForWords verify blue (Token.text token) st in
          let st := push_visible
                      (mkVisible (Token.text token) (Token.type token) settled) st in
          let prev := counts st in
          let st := set_counts
            (mkCounts
               (if bool_decide (Token.type token = TAccepted)
                then accepted prev + 1 else accepted prev)
               (rejected prev)
               (if bool_decide (Token.type token = TCorrected)
                then corrected prev + 1 else corrected prev)
               (drafted prev + 1)) st in
          setTimeout_ref CbProcessDemoStep ACCEPTED_DELAY st
      | KRejection rej cor _ _ =>
          let st := set_phase drafting st in
          let st := emitPacketForWords draft green (Token.text rej) st in
          let st := push_visible (mkVisible (Token.text rej) TRejected appearing) st in
          let prev := counts st in
          let st := set_counts
            (mkCounts (accepted prev) (rejected prev) (corrected prev)
                      (drafted prev + 1)) st in
          setTimeout_ref (CbDemoVerify rej cor) REJECTED_SHOW_DELAY st
      end
  end.

(** The four nested closures of the rejection branch, outermost first. *)
Definition demoVerify (rej cor : Token.t) (st : State) : State :=
  let st := set_phase verifying st in
  let st := emitPacketForWords verify yellow (Token.text rej) st in
  let st := set_visibleTokens (set_last_phase striking (visibleTokens st)) st in
  let prev := counts st in
  let st := set_counts
    (mkCounts (accepted prev) (rejected prev + 1) (corrected prev)
              (drafted prev)) st in
  setTimeout_ref (CbDemoHide cor) STRIKE_PAUSE st.

Definition demoHide (cor : Token.t) (st : State) : State :=
  let st := set_visibleTokens (set_last_phase hidden (visibleTokens st)) st in
  setTimeout_ref (CbDemoCorrect cor) 100 st.

Definition demoCorrect (cor : Token.t) (st : State) : State :=
  let st := set_phase correcting st in
  let st := emitPacketForWords draft blue (Token.text cor) st in
  let st := emitPacketForWords verify blue (Token.text cor) st in
  let st := set_visibleTokens
    (without_hidden (visibleTokens st)
       ++ [mkVisible (Token.text cor) TCorrected appearing]) st in
  let prev := counts st in
  let st := set_counts
    (mkCounts (accepted prev) (rejected prev) (corrected prev + 1)
              (drafted prev + 1)) st in
  setTimeout_ref CbDemoSettle 150 st.

Definition demoSettle (st : State) : State :=
  let st := set_visibleTokens (set_last_phase settled (visibleTokens st)) st in
  let st := set_phase drafting st in
  setTimeout_ref CbProcessDemoStep ACCEPTED_DELAY st.

(** *** Live mode: the closures created by one call of [handleSubmit] *)

Definition set_run (r : nat) (run : Run) (st : State) : State :=
  set_runs (<[r:=run]> (runs st)) st.

(** [findLastIndex] of a rejected token in render phase [p], then
    [if (last >= 0) copy[last] = { ...copy[last], phase: q }]. *)
Definition restyle_last_rejected (p q : RenderPhase) (l : list VisibleToken)
  : list VisibleToken :=
  match findLastIndex
          (fun t => bool_decide (vt_type t = TRejected)
                    && bool_decide (vt_phase t = p)) l with
  | Some last => alter (with_phase q) last l
  | None => l
  end.

Definition processTokenQueue (r : nat) (st : State) : State :=
  match runs st !! r with
  | None => st
  | Some run =>
      match tokenQueue run with
      | [] => set_run r (mkRun [] false) st
      | token :: rest =>
          let st := set_run r (mkRun rest true) st in
          let prev := counts st in
          match te_type token with
          | TAccepted =>
              let st := set_phase drafting st in
              let st := emitPacketForWords draft green (te_text token) st in
              let st := emitPacketForWords verify blue (te_text token) st in
              let st := push_visible (mkVisible (te_text token) TAccepted settled) st in
              let st := set_counts
                (mkCounts (accepted prev + 1) (rejected prev) (corrected prev)
                          (drafted prev + 1)) st in
              setTimeout_ (CbProcessTokenQueue r) STREAM_TOKEN_DELAY st
          | TRejected =>
              let st := set_phase verifying st in
              let st := emitPacketForWords draft green (te_text token) st in
              let st := emitPacketForWords verify yellow (te_text token) st in
              let st := push_visible (mkVisible (te_text token) TRejected appearing) st in
              let st := set_counts
                (mkCounts (accepted prev) (rejected prev + 1) (corrected prev)
                          (drafted prev + 1)) st in
              setTimeout_ (CbLiveStrike r) REJECTED_SHOW_DELAY st
          | TCorrected =>
              let st := set_phase correcting st in
              let st := emitPacketForWords draft blue (te_text token) st in
              let st := emitPacketForWords verify blue (te_text token) st in
              let st := push_visible (mkVisible (te_text token) TCorrected appearing) st in
              let st := set_counts
                (mkCounts (accepted prev) (rejected prev) (corrected prev + 1)
                          (drafted prev + 1)) st in
              setTimeout_ (CbLiveSettle r) 150 st
          end
      end
  end.

Definition liveStrike (r : nat) (st : State) : State :=
  let st := set_visibleTokens
    (restyle_last_rejected appearing striking (visibleTokens st)) st in
  setTimeout_ (CbLiveHide r) STRIKE_PAUSE st.

Definition liveHide (r : nat) (st : State) : State :=
  let st := set_visibleTokens
    (restyle_last_rejected striking hidden (visibleTokens st)) st in
  setTimeout_ (CbLiveFilter r) 100 st.

Definition liveFilter (r : nat) (st : State) : State :=
  let st := set_visibleTokens (without_hidden (visibleTokens st)) st in
  processTokenQueue r st.

Definition liveSettle (r : nat) (st : State) : State :=
  let st := set_visibleTokens (set_last_phase settled (visibleTokens st)) st in
  setTimeout_ (CbProcessTokenQueue r) STREAM_TOKEN_DELAY st.

Definition updateLiveSavingsFromAcceptedTokens (st : State) : State :=
  let liveSavedMs :=
    (acceptedDraftTokens st * ESTIMATED_TIME_SAVED_PER_ACCEPTED_TOKEN_MS)%float in
  let liveSavingsDollars :=
    ((acceptedDraftTokens st / 1000) * ESTIMATED_CLOUD_COST_PER_1K_TOKENS_USD)%float in
  let st := set_totalInferenceTimeSavedMs liveSavedMs st in
  set_costSavingsDollars liveSavingsDollars st.

Definition checkDone (r : nat) (st : State) : State :=
  match runs st !! r with
  | None => st
  | Some run =>
      if bool_decide (tokenQueue run = []) && negb (processing run) then
        let st := set_done true st in
        let st := set_phase complete st in
        set_isStreaming false st
      else setTimeout_ (CbCheckDone r) 100 st
  end.

(** The first callback given to [streamInference]: one message. *)
Definition onMessage (r : nat) (msg : StreamMessage) (st : State) : State :=
  match msg with
  | MsgToken data =>
      let st :=
        if bool_decide (te_type data = TAccepted) then
          let st := set_acceptedDraftTokens (acceptedDraftTokens st + 1)%float st in
          updateLiveSavingsFromAcceptedTokens st
        else st in
      let st :=
        if bool_decide (te_type data = TAccepted)
           || bool_decide (te_type data = TCorrected)
        then set_generatedOutputTokens (generatedOutputTokens st + 1) st
        else st in
      match runs st !! r with
      | None => st
      | Some run =>
          let st := set_run r (mkRun (tokenQueue run ++ [data]) (processing run)) st in
          if processing run then st else processTokenQueue r st
      end
  | MsgRound data =>
      set_acceptanceRate (round_acceptance_rate data * 100)%float st
  | MsgDone data =>
      let st := set_acceptanceRate (acceptance_rate data * 100)%float st in
      let st := set_acceptedDraftTokens (draft_tokens_accepted data) st in
      let st := updateLiveSavingsFromAcceptedTokens st in
      checkDone r st
  | MsgError _ =>
      let st := set_done true st in
      let st := set_phase idle st in
      set_isStreaming false st
  end.

(** The second callback given to [streamInference] (transport error). *)
Definition onError (st : State) : State :=
  let st := set_done true st in
  let st := set_phase idle st in
  set_isStreaming false st.

(** The third callback given to [streamInference] (transport closed). *)
Definition onClose (st : State) : State :=
  set_isStreaming false st.

(** [handleSubmit].  [streamInference] is not part of the component: the
    call and the invocation of a previous cleanup are recorded in
    [requests] and [cleanupCalls]. *)
Definition handleSubmit (userPrompt : string) (st : State) : State :=
  let st := set_prompt userPrompt st in
  let st := set_visibleTokens [] st in
  let st := set_done false st in
  let st := set_counts no_counts st in
  let st := set_phase idle st in
  let st := set_isStreaming true st in
  let st := set_totalInferenceTimeSavedMs 0%float st in
  let st := set_costSavingsDollars 0%float st in
  let st := set_packetWordBuffer (mkBuffer 0 0) st in
  let st := set_streamStartMs (Timers.now (loop st)) st in
  let st := set_generatedOutputTokens 0 st in
  let st := set_acceptedDraftTokens 0%float st in
  let st := clear_timeoutRef st in
  let st :=
    match cleanupRef st with
    | Some r => set_cleanupCalls (cleanupCalls st ++ [r]) st
    | None => st
    end in
  let r := length (runs st) in
  let st := set_runs (runs st ++ [mkRun [] false]) st in
  let st := set_requests (requests st ++ [(r, mkRequest userPrompt (Some 64%float) None None None)]) st in
  set_cleanupRef (Some r) st.

(** The effect on [backendOnline]: when the health probe answers, the
    cleanup of the previous effect runs, then the demo starts if the
    backend is offline. *)
Definition healthResolved (online : bool) (st : State) : State :=
  let st := set_backendOnline (Some online) st in
  let st := clear_timeoutRef st in
  if online then st
  else
    let st := set_packetWordBuffer (mkBuffer 0 0) st in
    setTimeout_ref CbProcessDemoStep INITIAL_DELAY st.

(** *** The event loop *)

Definition run_callback (cb : Callback) (st : State) : State :=
  match cb with
  | CbProcessDemoStep => processDemoStep st
  | CbDemoVerify rej cor => demoVerify rej cor st
  | CbDemoHide cor => demoHide cor st
  | CbDemoCorrect cor => demoCorrect cor st
  | CbDemoSettle => demoSettle st
  | CbProcessTokenQueue r => processTokenQueue r st
  | CbLiveStrike r => liveStrike r st
  | CbLiveHide r => liveHide r st
  | CbLiveFilter r => liveFilter r st
  | CbLiveSettle r => liveSettle r st
  | CbCheckDone r => checkDone r st
  end.

(** Everything that can happen to the mounted component. *)
Inductive Event :=
| EvHealth (online : bool)
| EvElapse (ms : nat)
| EvTimer
| EvSubmit (userPrompt : string)
| EvMessage (run : nat) (msg : StreamMessage)
| EvError (run : nat)
| EvClose (run : nat)
| EvPacketDone (pid : nat).

(** [EvTimer] fires the next pending timer and does nothing when there is
    none; the transport callbacks of a call of [handleSubmit] that never
    happened do nothing. *)
Definition step (ev : Event) (st : State) : State :=
  match ev with
  | EvHealth online => healthResolved online st
  | EvElapse ms => set_loop (Timers.elapse ms (loop st)) st
  | EvTimer =>
      match Timers.fire (loop st) with
      | Some (cb, l) => run_callback cb (set_loop l st)
      | None => st
      end
  | EvSubmit userPrompt => handleSubmit userPrompt st
  | EvMessage r msg => if r <? length (runs st) then onMessage r msg st else st
  | EvError r => if r <? length (runs st) then onError st else st
  | EvClose r => if r <? length (runs st) then onClose st else st
  | EvPacketDone pid => handlePacketDone pid st
  end.

Definition run (evs : list Event) (st : State) : State :=
  foldl (fun st ev => step ev st) st evs.

End Engine.

Definition DEMO_STEPS : list AnimStep := buildSteps DEMO_TOKEN_STREAM.

End Dashboard.

(** ** [chat-stream.tsx]: the stand-alone chat stream component *)

Module ChatStream.

Record StreamStatus := mkStatus {
  phase : Phase;
  currentToken : string;
  status_counts : Counts
}.

Inductive EventType := draft | verified | ev_rejected | ev_corrected.

Record StatusEvent := mkEvent {
  id : nat;
  type : EventType;
  token : string;
  timestamp : nat
}.

Inductive Callback :=
| CbProcessStep
| CbVerify (rej cor : Token.t)
| CbHide (cor : Token.t)
| CbCorrect (cor : Token.t)
| CbSettle.

(** The [useState] and [useRef] cells of the component, the browser's
    timer table, and the updaters that [addEvent] has handed to
    [setStatusEvents] since the last render ([eventUpdates]).
    [scrollToBottom] only touches the DOM and is left out. *)
Record State := mkState {
  visibleTokens : list VisibleToken;
  done : bool;
  counts : Counts;
  status : StreamStatus;
  statusEvents : list StatusEvent;
  eventIdRef : nat;
  stepIdx : nat;
  timeoutRef : option nat;
  eventUpdates : list (EventType * string);
  loop : Timers.Loop Callback
}.

Definition set_visibleTokens (v : list VisibleToken) (st : State) : State :=
  {| visibleTokens := v; done := done st; counts := counts st; status := status st; statusEvents := statusEvents st; eventIdRef := eventIdRef st; stepIdx := stepIdx st; timeoutRef := timeoutRef st; eventUpdates := eventUpdates st; loop := loop st |}.
Definition set_done (v : bool) (st : State) : State :=
  {| visibleTokens := visibleTokens st; done := v; counts := counts st; status := status st; statusEvents := statusEvents st; eventIdRef := eventIdRef st; stepIdx := stepIdx st; timeoutRef := timeoutRef st; eventUpdates := eventUpdates st; loop := loop st |}.
Definition set_counts (v : Counts) (st : State) : State :=
  {| visibleTokens := visibleTokens st; done := done st; counts := v; status := status st; statusEvents := statusEvents st; eventIdRef := eventIdRef st; stepIdx := stepIdx st; timeoutRef := timeoutRef st; eventUpdates := eventUpdates st; loop := loop st |}.
Definition set_status (v : StreamStatus) (st : State) : State :=
  {| visibleTokens := visibleTokens st; done := done st; counts := counts st; status := v; statusEvents := statusEvents st; eventIdRef := eventIdRef st; stepIdx := stepIdx st; timeoutRef := timeoutRef st; eventUpdates := eventUpdates st; loop := loop st |}.
Definition set_statusEvents (v : list StatusEvent) (st : State) : State :=
  {| visibleTokens := visibleTokens st; done := done st; counts := counts st; status := status st; statusEvents := v; eventIdRef := eventIdRef st; stepIdx := stepIdx st; timeoutRef := timeoutRef st; eventUpdates := eventUpdates st; loop := loop st |}.
Definition set_eventIdRef (v : nat) (st : State) : State :=
  {| visibleTokens := visibleTokens st; done := done st; counts := counts st; status := status st; statusEvents := statusEvents st; eventIdRef := v; stepIdx := stepIdx st; timeoutRef := timeoutRef st; eventUpdates := eventUpdates st; loop := loop st |}.
Definition set_stepIdx (v : nat) (st : State) : State :=
  {| visibleTokens := visibleTokens st; done := done st; counts := counts st; status := status st; statusEvents := statusEvents st; eventIdRef := eventIdRef st; stepIdx := v; timeoutRef := timeoutRef st; eventUpdates := eventUpdates st; loop := loop st |}.
Definition set_timeoutRef (v : option nat) (st : State) : State :=
  {| visibleTokens := visibleTokens st; done := done st; counts := counts st; status := status st; statusEvents := statusEvents st; eventIdRef := eventIdRef st; stepIdx := stepIdx st; timeoutRef := v; eventUpdates := eventUpdates st; loop := loop st |}.
Definition set_eventUpdates (v : list (EventType * string)) (st : State) : State :=
  {| visibleTokens := visibleTokens st; done := done st; counts := counts st; status := status st; statusEvents := statusEvents st; eventIdRef := eventIdRef st; stepIdx := stepIdx st; timeoutRef := timeoutRef st; eventUpdates := v; loop := loop st |}.
Definition set_loop (v : Timers.Loop Callback) (st : State) : State :=
  {| visibleTokens := visibleTokens st; done := done st; counts := counts st; status := status st; statusEvents := statusEvents st; eventIdRef := eventIdRef st; stepIdx := stepIdx st; timeoutRef := timeoutRef st; eventUpdates := eventUpdates st; loop := v |}.

Definition init : State :=
  {| visibleTokens := []; done := false; counts := no_counts;
     status := mkStatus idle "" no_counts; statusEvents := [];
     eventIdRef := 0; stepIdx := 0; timeoutRef := None;
     eventUpdates := []; loop := Timers.init |}.

(** [next.slice(-5)] *)
Definition slice_last5 {A} (l : list A) : list A := drop (length l - 5) l.

(** The updater that [addEvent] passes to [setStatusEvents]:
    [prev => [...prev, { id: eventIdRef.current, type, token,
    timestamp: Date.now() }].slice(-5)].  React calls queued updaters when
    it renders, after the running callback has returned, so the updater
    reads [eventIdRef.current] and the clock as they are then. *)
Definition statusEvents_updater (ty : EventType) (tk : string) (st : State)
  : State :=
  let next :=
    statusEvents st ++ [mkEvent (eventIdRef st) ty tk (Timers.now (loop st))] in
  set_statusEvents (slice_last5 next) st.

(** [addEvent]: bump the id counter and queue the updater. *)
Definition addEvent (ty : EventType) (tk : string) (st : State) : State :=
  let st := set_eventIdRef (eventIdRef st + 1) st in
  set_eventUpdates (eventUpdates st ++ [(ty, tk)]) st.

(** The render that follows a callback: the queued updaters run in the
    order in which they were queued. *)
Definition render (st : State) : State :=
  foldl (fun st u => statusEvents_updater (fst u) (snd u) st)
        (set_eventUpdates [] st) (eventUpdates st).

Section Engine.

(** [STEPS] is a module constant of the source ([buildSteps(tokenStream)]);
    the engine is stated for any step list. *)
Variable STEPS : list AnimStep.

Definition setTimeout_ref (cb : Callback) (delay : nat) (st : State) : State :=
  let '(tid, l) := Timers.setTimeout cb delay (loop st) in
  set_timeoutRef (Some tid) (set_loop l st).

Definition set_status_phase (p : Phase) (st : State) : State :=
  set_status (mkStatus p (currentToken (status st)) (status_counts (status st))) st.

Definition set_status_phase_token (p : Phase) (tk : string) (st : State) : State :=
  set_status (mkStatus p tk (status_counts (status st))) st.

(** [setCounts(prev => { const next = ...; setStatus({ phase, currentToken,
    counts: next }); return next })] *)
Definition setCounts_and_status (next : Counts) (p : Phase) (tk : string)
    (st : State) : State :=
  let st := set_counts next st in
  set_status (mkStatus p tk next) st.

Definition processStep (st : State) : State :=
  match STEPS !! stepIdx st with
  | None =>
      let st := set_done true st in
      set_status_phase complete st
  | Some step =>
      let st := set_stepIdx (stepIdx st + 1) st in
      match step with
      | KAccepted tk _ =>
          let st := set_visibleTokens
            (visibleTokens st
               ++ [mkVisible (Token.text tk) (Token.type tk) settled]) st in
          let prev := counts st in
          let next :=
            mkCounts
              (if bool_decide (Token.type tk = TAccepted)
               then accepted prev + 1 else accepted prev)
              (rejected prev)
              (if bool_decide (Token.type tk = TCorrected)
               then corrected prev + 1 else corrected prev)
              (drafted prev + 1) in
          let st := setCounts_and_status next drafting (Text.trim (Token.text tk)) st in
          let st := addEvent draft (Text.trim (Token.text tk)) st in
          let st := addEvent verified (Text.trim (Token.text tk)) st in
          setTimeout_ref CbProcessStep ACCEPTED_DELAY st
      | KRejection rej cor _ _ =>
          let st := set_status_phase_token drafting (Text.trim (Token.text rej)) st in
          let st := addEvent draft (Text.trim (Token.text rej)) st in
          let st := set_visibleTokens
            (visibleTokens st ++ [mkVisible (Token.text rej) TRejected appearing]) st in
          let prev := counts st in
          let st := set_counts
            (mkCounts (accepted prev) (rejected prev) (corrected prev)
                      (drafted prev + 1)) st in
          setTimeout_ref (CbVerify rej cor) REJECTED_SHOW_DELAY st
      end
  end.

Definition verifyRejected (rej cor : Token.t) (st : State) : State :=
  let st := set_status_phase_token verifying (Text.trim (Token.text rej)) st in
  let st := set_visibleTokens (set_last_phase striking (visibleTokens st)) st in
  let prev := counts st in
  let next := mkCounts (accepted prev) (rejected prev + 1) (corrected prev)
                       (drafted prev) in
  let st := setCounts_and_status next verifying (Text.trim (Token.text rej)) st in
  let st := addEvent ev_rejected (Text.trim (Token.text rej)) st in
  setTimeout_ref (CbHide cor) STRIKE_PAUSE st.

Definition hideRejected (cor : Token.t) (st : State) : State :=
  let st := set_visibleTokens (set_last_phase hidden (visibleTokens st)) st in
  setTimeout_ref (CbCorrect cor) 100 st.

Definition showCorrected (cor : Token.t) (st : State) : State :=
  let st := set_status_phase_token correcting (Text.trim (Token.text cor)) st in
  let st := addEvent ev_corrected (Text.trim (Token.text cor)) st in
  let st := set_visibleTokens
    (without_hidden (visibleTokens st)
       ++ [mkVisible (Token.text cor) TCorrected appearing]) st in
  let prev := counts st in
  let next := mkCounts (accepted prev) (rejected prev) (corrected prev + 1)
                       (drafted prev + 1) in
  let st := setCounts_and_status next correcting (Text.trim (Token.text cor)) st in
  setTimeout_ref CbSettle 150 st.

Definition settleCorrected (st : State) : State :=
  let st := set_visibleTokens (set_last_phase settled (visibleTokens st)) st in
  let st := set_status_phase drafting st in
  setTimeout_ref CbProcessStep ACCEPTED_DELAY st.

Definition run_callback (cb : Callback) (st : State) : State :=
  match cb with
  | CbProcessStep => processStep st
  | CbVerify rej cor => verifyRejected rej cor st
  | CbHide cor => hideRejected cor st
  | CbCorrect cor => showCorrected cor st
  | CbSettle => settleCorrected st
  end.

(** The mount effect: [timeoutRef.current = setTimeout(processStep,
    INITIAL_DELAY)]. *)
Definition mount (st : State) : State :=
  setTimeout_ref CbProcessStep INITIAL_DELAY st.

Inductive Event := EvMount | EvElapse (ms : nat) | EvTimer.

Definition step (ev : Event) (st : State) : State :=
  match ev with
  | EvMount => mount st
  | EvElapse ms => set_loop (Timers.elapse ms (loop st)) st
  | EvTimer =>
      match Timers.fire (loop st) with
      | Some (cb, l) => render (run_callback cb (set_loop l st))
      | None => st
      end
  end.

Definition run (evs : list Event) (st : State) : State :=
  foldl (fun st ev => step ev st) st evs.

End Engine.

Definition STEPS : list AnimStep := buildSteps DEMO_TOKEN_STREAM.

End ChatStream.

(** ** Vocabulary for the packet throttler

    A dispatch is one call [emitPacketForWords(lane, color, text)]. *)
Definition dispatch (d : Dashboard.Lane * string * string)
    (st : Dashboard.State) : Dashboard.State :=
  let '(l, c, text) := d in Dashboard.emitPacketForWords l c text st.

Definition dispatch_all (ds : list (Dashboard.Lane * string * string))
    (st : Dashboard.State) : Dashboard.State :=
  foldl (fun st d => dispatch d st) st ds.

(** Cumulative word count of the texts dispatched to lane [l]. *)
Definition words_on (l : Dashboard.Lane)
    (ds : list (Dashboard.Lane * string * string)) : nat :=
  sum_list ((fun d : Dashboard.Lane * string * string =>
               let '(l', _, text) := d in
               if decide (l' = l) then countWords text else 0) <$> ds).

(** Number of packets of lane [l] in a packet list. *)
Definition emitted (l : Dashboard.Lane) (ps : list Dashboard.PacketEvent) : nat :=
  length (filter (fun p => Dashboard.lane p = l) ps).

Definition lane_direction (l : Dashboard.Lane) : Dashboard.Direction :=
  match l with Dashboard.draft => Dashboard.ltr | Dashboard.verify => Dashboard.rtl end.

(** The [q] packets that one run of the throttler loop appends, with ids
    counting up from [n]. *)
Definition new_packets (l : Dashboard.Lane) (c : string) (n q : nat)
  : list Dashboard.PacketEvent :=
  (fun j => Dashboard.mkPacket (n + j) (lane_direction l) l c) <$> seq 0 q.

(** The effect of the throttler on the three cells it writes. *)
Definition throttled (l : Dashboard.Lane) (c : string) (q r : nat)
    (st : Dashboard.State) : Dashboard.State :=
  Dashboard.set_packetWordBuffer
    (Dashboard.set_buffer_of l r (Dashboard.packetWordBuffer st))
    (Dashboard.set_packets
       (Dashboard.packets st ++ new_packets l c (Dashboard.packetId st) q)
       (Dashboard.set_packetId (Dashboard.packetId st + q) st)).

(** ** Vocabulary for the scheduler

    [only_timer cb l]: the timer table holds exactly one timer, for [cb]. *)
Definition only_timer {C} (cb : C) (l : Timers.Loop C) : Prop :=
  exists tid due, Timers.pending l = [Timers.mkTimer tid due cb].

(** Timer firings that process one step completely: one for an accepted
    step, five for a rejection step (start, verify, hide, correct,
    settle). *)
Definition firings (step : AnimStep) : nat :=
  match step with
  | KAccepted _ _ => 1
  | KRejection _ _ _ _ => 5
  end.

(** What processing one step adds to the counts. *)
Definition contributes (step : AnimStep) (before after : Counts) : Prop :=
  match step with
  | KRejection _ _ _ _ =>
      after = mkCounts (accepted before) (rejected before + 1)
                       (corrected before + 1) (drafted before + 2)
  | KAccepted tk _ =>
      match Token.type tk with
      | TAccepted =>
          after = mkCounts (accepted before + 1) (rejected before)
                           (corrected before) (drafted before + 1)
      | TCorrected =>
          after = mkCounts (accepted before) (rejected before)
                           (corrected before + 1) (drafted before + 1)
      | TRejected =>
          after = mkCounts (accepted before) (rejected before)
                           (corrected before) (drafted before + 1)
      end
  end.

(** ** Scenarios with two submissions

    A first live run receives two accepted tokens in quick succession, the
    transport closes (which re-enables the input), and the user submits a
    second prompt before the 20 ms timer of the first run has fired. *)
Definition token_msg (text : string) (ty : TokenType) : StreamMessage :=
  MsgToken (mkTokenEvent text ty None None).

Definition resubmit_trace : list Dashboard.Event :=
  [Dashboard.EvSubmit "first";
   Dashboard.EvMessage 0 (token_msg "a" TAccepted);
   Dashboard.EvMessage 0 (token_msg " b" TAccepted);
   Dashboard.EvClose 0;
   Dashboard.EvSubmit "second"].

(** A first live run whose queue still holds a token behind a rejected one
    (whose animation takes 680 ms) is superseded by a second run that
    receives one token and its done message, drains its queue and
    completes after three timer firings. *)
Definition done_msg (text : string) (accepted_n : float) (rate : float)
  : StreamMessage :=
  MsgDone (mkResponse "req" text [] 1%float 1%float accepted_n 5%float rate
                      1%float).

Definition overlap_trace : list Dashboard.Event :=
  [Dashboard.EvSubmit "first";
   Dashboard.EvMessage 0 (token_msg "x" TRejected);
   Dashboard.EvMessage 0 (token_msg " y" TAccepted);
   Dashboard.EvClose 0;
   Dashboard.EvSubmit "second";
   Dashboard.EvMessage 1 (token_msg "z" TAccepted);
   Dashboard.EvMessage 1 (done_msg "z" 1%float 1%float);
   Dashboard.EvTimer; Dashboard.EvTimer; Dashboard.EvTimer].

(** ** Runs that do not overlap

    The vocabulary for stating what the engine guarantees when no callback
    of an earlier run is left pending at a submission. *)

(** The call of [handleSubmit] a live closure belongs to. *)
Definition cb_run (cb : Dashboard.Callback) : option nat :=
  match cb with
  | Dashboard.CbProcessTokenQueue r | Dashboard.CbLiveStrike r
  | Dashboard.CbLiveHide r | Dashboard.CbLiveFilter r
  | Dashboard.CbLiveSettle r | Dashboard.CbCheckDone r => Some r
  | _ => None
  end.

(** The closures of the token chain of a live run: at most one of them is
    pending at any time, and only while [processing] is set. *)
Definition chain_cb (cb : Dashboard.Callback) : bool :=
  match cb with
  | Dashboard.CbProcessTokenQueue _ | Dashboard.CbLiveStrike _
  | Dashboard.CbLiveHide _ | Dashboard.CbLiveFilter _
  | Dashboard.CbLiveSettle _ => true
  | _ => false
  end.

Definition chain_timers (ts : list (Timers.Timer Dashboard.Callback))
  : list (Timers.Timer Dashboard.Callback) :=
  filter (fun t => chain_cb (Timers.callback t) = true) ts.

(** An event is orderly when: the health probe answers once, before any
    submission; a submission finds no pending callback that its
    [clearTimeout] does not cancel; the transport callbacks are those of
    the latest submission. *)
Definition orderly_event (ev : Dashboard.Event) (st : Dashboard.State) : Prop :=
  match ev with
  | Dashboard.EvHealth _ =>
      Dashboard.backendOnline st = None /\ Dashboard.runs st = []
  | Dashboard.EvSubmit _ =>
      Timers.pending (Dashboard.loop (Dashboard.clear_timeoutRef st)) = []
  | Dashboard.EvMessage r _ | Dashboard.EvError r | Dashboard.EvClose r =>
      Dashboard.cleanupRef st = Some r
  | _ => True
  end.

Fixpoint orderly (steps : list AnimStep) (evs : list Dashboard.Event)
    (st : Dashboard.State) : Prop :=
  match evs with
  | [] => True
  | ev :: evs' =>
      orderly_event ev st /\ orderly steps evs' (Dashboard.step steps ev st)
  end.

(** Before the first submission: at most the one demo timer is pending,
    and [timeoutRef] holds it. *)
Definition demo_inv (st : Dashboard.State) : Prop :=
  Dashboard.runs st = [] /\ Dashboard.cleanupRef st = None
  /\ (Dashboard.backendOnline st = None ->
      Timers.pending (Dashboard.loop st) = [] /\ Dashboard.phase st = idle)
  /\ (Timers.pending (Dashboard.loop st) = []
      \/ exists t, Timers.pending (Dashboard.loop st) = [t]
                   /\ cb_run (Timers.callback t) = None
                   /\ Dashboard.timeoutRef st = Some (Timers.timer_id t))
  /\ (Dashboard.phase st = complete ->
      Timers.pending (Dashboard.loop st) = [] /\ Dashboard.done st = true).

(** During the live run [r]: every pending callback is its own, at most one
    belongs to the token chain, none does while [processing] is clear, and
    a complete phase means that the queue is drained and idle. *)
Definition live_inv (r : nat) (st : Dashboard.State) : Prop :=
  Dashboard.cleanupRef st = Some r
  /\ exists run,
       Dashboard.runs st !! r = Some run
       /\ Forall (fun t => cb_run (Timers.callback t) = Some r)
                 (Timers.pending (Dashboard.loop st))
       /\ length (chain_timers (Timers.pending (Dashboard.loop st))) <= 1
       /\ (Dashboard.processing run = false ->
           Dashboard.tokenQueue run = []
           /\ chain_timers (Timers.pending (Dashboard.loop st)) = [])
       /\ (Dashboard.phase st = complete ->
           Dashboard.processing run = false /\ Dashboard.done st = true
           /\ Dashboard.isStreaming st = false).

Definition engine_inv (st : Dashboard.State) : Prop :=
  demo_inv st \/ exists r, live_inv r st.

(** Two states that differ at most in the timer table and the clock. *)
Definition same_render (st st' : Dashboard.State) : Prop :=
  Dashboard.set_loop (Dashboard.loop st) st' = st.

(** Events that only let time pass: a timer firing or the clock moving. *)
Definition passes_time (ev : Dashboard.Event) : Prop :=
  match ev with
  | Dashboard.EvTimer | Dashboard.EvElapse _ => True
  | _ => False
  end.

(** An orderly session: the probe finds the backend online, one prompt is
    submitted, one token and the done message arrive, and the queue
    drains. *)
Definition orderly_session : list Dashboard.Event :=
  [Dashboard.EvHealth true;
   Dashboard.EvSubmit "hello";
   Dashboard.EvMessage 0 (token_msg "Hi" TAccepted);
   Dashboard.EvMessage 0 (done_msg "Hi" 1%float 1%float);
   Dashboard.EvTimer; Dashboard.EvTimer].

(** ** Invariant of the status log

    The log holds at most 5 events, their ids never decrease from the
    oldest to the newest, and none exceeds the id counter. *)
Definition log_inv (st : ChatStream.State) : Prop :=
  length (ChatStream.statusEvents st) <= 5
  /\ StronglySorted le (ChatStream.id <$> ChatStream.statusEvents st)
  /\ Forall (fun e => ChatStream.id e <= ChatStream.eventIdRef st)
            (ChatStream.statusEvents st).

(** ** The worked example of the specification *)

Definition worked_example : list Token.t :=
  [tok "The" TAccepted; tok " theory" TAccepted;
   tok " the early" TRejected; tok " 1905" TCorrected].

(** ** Vocabulary for the further properties *)

(** The tokens a step carries, in input order. *)
Definition step_tokens (s : AnimStep) : list Token.t :=
  match s with
  | KAccepted tk _ => [tk]
  | KRejection rej cor _ _ => [rej; cor]
  end.

(** The indices a step records point at its tokens in the input, and a
    rejection step pairs a rejected token with the corrected one after it. *)
Definition step_well_indexed (tokens : list Token.t) (s : AnimStep) : Prop :=
  match s with
  | KAccepted tk i => tokens !! i = Some tk
  | KRejection rej cor i j =>
      tokens !! i = Some rej /\ tokens !! j = Some cor /\ j = i + 1
      /\ Token.type rej = TRejected /\ Token.type cor = TCorrected
  end.

Definition is_rejection (s : AnimStep) : Prop :=
  match s with KRejection _ _ _ _ => True | KAccepted _ _ => False end.

#[global] Instance is_rejection_dec s : Decision (is_rejection s).
Proof. destruct s; cbn; apply _. Defined.

(** Words of a string counted in one pass: [inword] tells that the
    character before belongs to a word. *)
Fixpoint word_count (s : string) (inword : bool) : nat :=
  match s with
  | EmptyString => if inword then 1 else 0
  | String c s' =>
      if Text.is_space c
      then (if inword then 1 else 0) + word_count s' false
      else word_count s' true
  end.

Fixpoint all_spaces (s : string) : bool :=
  match s with
  | EmptyString => true
  | String c s' => Text.is_space c && all_spaces s'
  end.

(** ** The word count of the packet invariant, in the spec's words

    Written without [countWords] and without [Text.is_space]: the
    whitespace characters are listed by code unit, and a word starts at
    every character that is not whitespace and either opens the text or
    comes right after a whitespace character.  The whitespace-delimited
    non-empty words of a text are as many as its word starts. *)
Definition whitespace_codes : list nat := [9; 10; 11; 12; 13; 32; 160].

Definition whitespace (c : ascii) : bool :=
  existsb (Nat.eqb (nat_of_ascii c)) whitespace_codes.

Fixpoint word_starts (after_space : bool) (s : string) : nat :=
  match s with
  | EmptyString => 0
  | String c s' =>
      (if after_space && negb (whitespace c) then 1 else 0)
      + word_starts (whitespace c) s'
  end.

Definition words (text : string) : nat := word_starts true text.

(** Cumulative number of words of the texts dispatched to lane [l]. *)
Definition words_dispatched (l : Dashboard.Lane)
    (ds : list (Dashboard.Lane * string * string)) : nat :=
  sum_list ((fun d : Dashboard.Lane * string * string =>
               let '(l', _, text) := d in
               if decide (l' = l) then words text else 0) <$> ds).

(** The active packets carry strictly increasing ids below the id counter,
    and each travels in the direction of its lane. *)
Definition packets_inv (st : Dashboard.State) : Prop :=
  StronglySorted lt (Dashboard.id <$> Dashboard.packets st)
  /\ Forall (fun p => Dashboard.id p < Dashboard.packetId st)
            (Dashboard.packets st)
  /\ Forall (fun p => Dashboard.direction p = lane_direction (Dashboard.lane p))
            (Dashboard.packets st).

(** Both word buffers are below the packet threshold. *)
Definition buffers_inv (st : Dashboard.State) : Prop :=
  Dashboard.buffer Dashboard.draft st < Dashboard.WORDS_PER_PACKET
  /\ Dashboard.buffer Dashboard.verify st < Dashboard.WORDS_PER_PACKET.

(** Every token counted as drafted is counted once more as accepted,
    rejected or corrected. *)
Definition counts_eq (c : Counts) : Prop :=
  accepted c + rejected c + corrected c = drafted c.

(** The messages that carry an acceptance rate. *)
Definition carries_rate (ev : Dashboard.Event) : Prop :=
  match ev with
  | Dashboard.EvMessage _ (MsgRound _) | Dashboard.EvMessage _ (MsgDone _) => True
  | _ => False
  end.

(** ** Vocabulary for a whole demo run *)

(** The time one step takes: the delays of the timers it sets. *)
Definition step_time (s : AnimStep) : nat :=
  match s with
  | KAccepted _ _ => ACCEPTED_DELAY
  | KRejection _ _ _ _ =>
      REJECTED_SHOW_DELAY + STRIKE_PAUSE + 100 + 150 + ACCEPTED_DELAY
  end.

(** What a step leaves on the screen once it is processed. *)
Definition step_visible (s : AnimStep) : VisibleToken :=
  match s with
  | KAccepted tk _ => mkVisible (Token.text tk) (Token.type tk) settled
  | KRejection _ cor _ _ => mkVisible (Token.text cor) TCorrected settled
  end.

(** [contributes] as a function. *)
Definition step_counts (s : AnimStep) (c : Counts) : Counts :=
  match s with
  | KRejection _ _ _ _ =>
      mkCounts (accepted c) (rejected c + 1) (corrected c + 1) (drafted c + 2)
  | KAccepted tk _ =>
      mkCounts
        (if bool_decide (Token.type tk = TAccepted)
         then accepted c + 1 else accepted c)
        (rejected c)
        (if bool_decide (Token.type tk = TCorrected)
         then corrected c + 1 else corrected c)
        (drafted c + 1)
  end.

Definition tally (steps : list AnimStep) : Counts :=
  foldl (fun c s => step_counts s c) no_counts steps.

(** The demo from the probe's answer to the last timer: one firing per
    stage of every step, and one more that finds the list exhausted. *)
Definition demo_events (steps : list AnimStep) : list Dashboard.Event :=
  Dashboard.EvHealth false
  :: replicate (sum_list (firings <$> steps) + 1) Dashboard.EvTimer.

(** A snapshot of what the demo scheduler works on: the clock, the due
    times and callbacks of the pending timers, the cursor, the counts and
    the tokens on the screen. *)
Definition demo_state (st : Dashboard.State) (n : nat)
    (timers : list (nat * Dashboard.Callback)) (idx : nat) (c : Counts)
    (v : list VisibleToken) : Prop :=
  Timers.now (Dashboard.loop st) = n
  /\ (fun t => (Timers.due t, Timers.callback t))
       <$> Timers.pending (Dashboard.loop st) = timers
  /\ Dashboard.stepIdx st = idx
  /\ Dashboard.counts st = c
  /\ Dashboard.visibleTokens st = v.

(** [disabled={isStreaming || (!backendOnline && !done)}] of the chat
    input; [backendOnline] is [null] until the probe answers. *)
Definition chatInput_disabled (st : Dashboard.State) : bool :=
  Dashboard.isStreaming st
  || (negb (match Dashboard.backendOnline st with
            | Some b => b
            | None => false
            end)
      && negb (Dashboard.done st)).

(** Timer firings left in a rejection step once the callback has run. *)
Definition stage_rest (cb : Dashboard.Callback) : nat :=
  match cb with
  | Dashboard.CbDemoVerify _ _ => 4
  | Dashboard.CbDemoHide _ => 3
  | Dashboard.CbDemoCorrect _ => 2
  | Dashboard.CbDemoSettle => 1
  | _ => 0
  end.

(** The demo is under way and [k] firings away from the one that ends
    it. *)
Definition demo_running (steps : list AnimStep) (k : nat)
    (st : Dashboard.State) : Prop :=
  Dashboard.done st = false
  /\ Dashboard.isStreaming st = false
  /\ Dashboard.backendOnline st = Some false
  /\ Dashboard.phase st <> complete
  /\ exists t,
       Timers.pending (Dashboard.loop st) = [t]
       /\ cb_run (Timers.callback t) = None
       /\ stage_rest (Timers.callback t)
          + sum_list (firings <$> drop (Dashboard.stepIdx st) steps) = k.

(** ** Vocabulary for a whole run of the chat stream *)

(** The token the status bar names once a step is processed. *)
Definition step_label (s : AnimStep) : string :=
  match s with
  | KAccepted tk _ => Text.trim (Token.text tk)
  | KRejection _ cor _ _ => Text.trim (Token.text cor)
  end.

(** The status a processed step leaves behind, [c] being the counts
    before the step. *)
Definition step_status (s : AnimStep) (c : Counts) : ChatStream.StreamStatus :=
  ChatStream.mkStatus drafting (step_label s) (step_counts s c).

(** Calls of [addEvent] in one step. *)
Definition step_ids (s : AnimStep) : nat :=
  match s with
  | KAccepted _ _ => 2
  | KRejection _ _ _ _ => 3
  end.

(** The events a step that starts at time [d] logs when the id counter is
    at [k]: the two events of an accepted step are logged by the same
    render and share the id [k + 2]. *)
Definition step_events (s : AnimStep) (d k : nat) : list ChatStream.StatusEvent :=
  match s with
  | KAccepted tk _ =>
      [ChatStream.mkEvent (k + 2) ChatStream.draft (Text.trim (Token.text tk)) d;
       ChatStream.mkEvent (k + 2) ChatStream.verified
         (Text.trim (Token.text tk)) d]
  | KRejection rej cor _ _ =>
      [ChatStream.mkEvent (k + 1) ChatStream.draft
         (Text.trim (Token.text rej)) d;
       ChatStream.mkEvent (k + 2) ChatStream.ev_rejected
         (Text.trim (Token.text rej)) (d + REJECTED_SHOW_DELAY);
       ChatStream.mkEvent (k + 3) ChatStream.ev_corrected
         (Text.trim (Token.text cor))
         (d + REJECTED_SHOW_DELAY + STRIKE_PAUSE + 100)]
  end.

Fixpoint chat_log (steps : list AnimStep) (d k : nat)
  : list ChatStream.StatusEvent :=
  match steps with
  | [] => []
  | s :: steps' =>
      step_events s d k ++ chat_log steps' (d + step_time s) (k + step_ids s)
  end.

Definition chat_events (steps : list AnimStep) : list ChatStream.Event :=
  ChatStream.EvMount
  :: replicate (sum_list (firings <$> steps) + 1) ChatStream.EvTimer.

(** A snapshot of the chat stream between two callbacks: every queued
    updater has run, and the status log is the tail of [log]. *)
Record ChatView := mkView {
  view_now : nat;
  view_timers : list (nat * ChatStream.Callback);
  view_stepIdx : nat;
  view_counts : Counts;
  view_tokens : list VisibleToken;
  view_status : ChatStream.StreamStatus;
  view_eventId : nat;
  view_log : list ChatStream.StatusEvent
}.

Definition chat_state (st : ChatStream.State) (w : ChatView) : Prop :=
  Timers.now (ChatStream.loop st) = view_now w
  /\ (fun t => (Timers.due t, Timers.callback t))
       <$> Timers.pending (ChatStream.loop st) = view_timers w
  /\ ChatStream.stepIdx st = view_stepIdx w
  /\ ChatStream.counts st = view_counts w
  /\ ChatStream.visibleTokens st = view_tokens w
  /\ ChatStream.status st = view_status w
  /\ ChatStream.eventIdRef st = view_eventId w
  /\ ChatStream.statusEvents st = ChatStream.slice_last5 (view_log w)
  /\ ChatStream.eventUpdates st = [].

(** ** Vocabulary for a live run *)

(** The tokens received by the current run, in arrival order: a
    submission starts a new run. *)
Definition track_tokens (acc : list TokenEvent) (ev : Dashboard.Event)
  : list TokenEvent :=
  match ev with
  | Dashboard.EvSubmit _ => []
  | Dashboard.EvMessage _ (MsgToken data) => acc ++ [data]
  | _ => acc
  end.

Definition current_tokens (evs : list Dashboard.Event) : list TokenEvent :=
  foldl track_tokens [] evs.

(** What the received tokens look like once they are all processed: the
    rejected ones are gone, the others have settled. *)
Definition shown (toks : list TokenEvent) : list VisibleToken :=
  (fun t => mkVisible (te_text t) (te_type t) settled)
    <$> filter (fun t => te_type t <> TRejected) toks.

Definition type_counts (toks : list TokenEvent) : Counts :=
  mkCounts (length (filter (fun t => te_type t = TAccepted) toks))
           (length (filter (fun t => te_type t = TRejected) toks))
           (length (filter (fun t => te_type t = TCorrected) toks))
           (length toks).

(** The token a pending closure of the chain is still animating, by its
    type and render phase; [CbProcessTokenQueue] animates none. *)
Definition inflight (cb : Dashboard.Callback)
  : option (TokenType * RenderPhase) :=
  match cb with
  | Dashboard.CbLiveStrike _ => Some (TRejected, appearing)
  | Dashboard.CbLiveHide _ => Some (TRejected, striking)
  | Dashboard.CbLiveFilter _ => Some (TRejected, hidden)
  | Dashboard.CbLiveSettle _ => Some (TCorrected, appearing)
  | _ => None
  end.

(** Timer ids grow with the creation order and stay below the next id. *)
Definition timers_inv {C} (l : Timers.Loop C) : Prop :=
  StronglySorted lt (Timers.timer_id <$> Timers.pending l)
  /\ Forall (fun t => Timers.timer_id t < Timers.nextTimer l)
            (Timers.pending l).

(** The screen and the counts of the live run [r] that has received
    [toks]: the tokens before the queue are processed, except that the
    last of them may still be animated by the pending chain closure. *)
Definition live_view (r : nat) (st : Dashboard.State) (toks : list TokenEvent)
  : Prop :=
  exists run,
    Dashboard.runs st !! r = Some run
    /\ match chain_timers (Timers.pending (Dashboard.loop st)) with
       | [] =>
           Dashboard.processing run = false
           /\ Dashboard.tokenQueue run = []
           /\ Dashboard.visibleTokens st = shown toks
           /\ Dashboard.counts st = type_counts toks
       | [t] =>
           Dashboard.processing run = true
           /\ match inflight (Timers.callback t) with
              | None =>
                  exists pre,
                    toks = pre ++ Dashboard.tokenQueue run
                    /\ Dashboard.visibleTokens st = shown pre
                    /\ Dashboard.counts st = type_counts pre
              | Some (ty, ph) =>
                  exists pre x,
                    toks = pre ++ x :: Dashboard.tokenQueue run
                    /\ te_type x = ty
                    /\ Dashboard.visibleTokens st
                       = shown pre ++ [mkVisible (te_text x) ty ph]
                    /\ Dashboard.counts st = type_counts (pre ++ [x])
              end
       | _ => False
       end.

(** What a callback does to the timer table: nothing, or one more
    timer. *)
Definition loop_grows (l l' : Timers.Loop Dashboard.Callback) : Prop :=
  l' = l \/ exists cb delay, l' = (Timers.setTimeout cb delay l).2.

Definition session_inv (st : Dashboard.State) (toks : list TokenEvent) : Prop :=
  timers_inv (Dashboard.loop st)
  /\ (demo_inv st \/ exists r, live_inv r st /\ live_view r st toks).

(** A live session with a rejection: an accepted token, a rejected one
    and its correction arrive together with the done message, and the
    timers fire until the run is complete. *)
Definition live_session : list Dashboard.Event :=
  [Dashboard.EvHealth true;
   Dashboard.EvSubmit "question";
   Dashboard.EvMessage 0 (token_msg "A" TAccepted);
   Dashboard.EvMessage 0 (token_msg " b" TRejected);
   Dashboard.EvMessage 0 (token_msg " c" TCorrected);
   Dashboard.EvMessage 0 (done_msg "A c" 1%float 0.5%float)]
  ++ replicate 20 Dashboard.EvTimer.

(** ** Rendering of the chat stream *)

(** [getPhaseClass]: the CSS classes of a token on screen.  The closing
    [return ""] of the source is for a token whose type is none of the
    three, which [TokenType] rules out. *)
Definition getPhaseClass (token : VisibleToken) : string :=
  match vt_type token with
  | TAccepted => "text-green-400"
  | TRejected =>
      if bool_decide (vt_phase token = appearing) then "text-red-400"
      else if bool_decide (vt_phase token = striking)
              || bool_decide (vt_phase token = struck)
      then "text-red-500 line-through opacity-50 transition-all duration-300"
      else "text-red-500 line-through opacity-0"
  | TCorrected =>
      if bool_decide (vt_phase token = appearing)
      then "text-blue-400 font-semibold scale-105 inline-block"
      else "text-blue-400 font-semibold"
  end.

(** The classes of a token that is not being animated. *)
Definition resting_classes : list string :=
  ["text-green-400"; "text-blue-400 font-semibold";
   "text-red-500 line-through opacity-0"].

(** [key={evt.id}] of the event feed in [StatusBar]. *)
Definition feed_keys (events : list ChatStream.StatusEvent) : list nat :=
  ChatStream.id <$> events.

(** The token a pending closure of the chat stream is still animating. *)
Definition in_flight (cb : ChatStream.Callback)
  : option (TokenType * RenderPhase) :=
  match cb with
  | ChatStream.CbVerify _ _ => Some (TRejected, appearing)
  | ChatStream.CbHide _ => Some (TRejected, striking)
  | ChatStream.CbCorrect _ => Some (TRejected, hidden)
  | ChatStream.CbSettle => Some (TCorrected, appearing)
  | ChatStream.CbProcessStep => None
  end.

Definition screen_shape (cb : ChatStream.Callback) (toks : list VisibleToken)
  : Prop :=
  match in_flight cb with
  | None => Forall (fun t => vt_phase t = settled) toks
  | Some (ty, ph) =>
      exists v x,
        toks = v ++ [x]
        /\ Forall (fun t => vt_phase t = settled) v
        /\ vt_type x = ty /\ vt_phase x = ph
  end.

(** The chat stream between two callbacks of a run that was mounted
    once: one timer is pending until the run is done, and the tokens
    before the one it animates have settled. *)
Definition chat_inv (st : ChatStream.State) : Prop :=
  exists w,
    chat_state st w
    /\ match view_timers w with
       | [] =>
           Forall (fun t => vt_phase t = settled) (view_tokens w)
           /\ ChatStream.done st = true
       | [(d, cb)] =>
           view_now w <= d /\ screen_shape cb (view_tokens w)
           /\ ChatStream.done st = false
       | _ => False
       end.

(** ** Transports *)

(** The cleanups that run when the dashboard is unmounted: the one of
    the demo effect, then the one of the transport effect
    ([if (cleanupRef.current) cleanupRef.current()]). *)
Definition unmount (st : Dashboard.State) : Dashboard.State :=
  let st := Dashboard.clear_timeoutRef st in
  match Dashboard.cleanupRef st with
  | Some r => Dashboard.set_cleanupCalls (Dashboard.cleanupCalls st ++ [r]) st
  | None => st
  end.

(** The prompts submitted, in order. *)
Definition submitted (evs : list Dashboard.Event) : list string :=
  omap (fun ev => match ev with
                  | Dashboard.EvSubmit userPrompt => Some userPrompt
                  | _ => None
                  end) evs.

(** The cells that record the transports: the handle of the current one,
    the calls of [streamInference], the cleanups invoked, and the number
    of runs. *)
Definition transport_cells (st : Dashboard.State)
  : option nat * list (nat * InferenceRequest) * list nat * nat :=
  (Dashboard.cleanupRef st, Dashboard.requests st, Dashboard.cleanupCalls st,
   length (Dashboard.runs st)).

(** The transport cells after the prompts [ps] have been submitted. *)
Definition transports_of (ps : list string)
  : option nat * list (nat * InferenceRequest) * list nat * nat :=
  (match length ps with 0 => None | S n => Some n end,
   imap (fun i p => (i, mkRequest p (Some 64%float) None None None)) ps,
   seq 0 (length ps - 1),
   length ps).

(** ** Segmenter: proofs *)

Lemma rejection_pair_Some tokens i t c :
  rejection_pair tokens i t = Some c <->
  Token.type t = TRejected /\ tokens !! (i + 1) = Some c /\
  Token.type c = TCorrected.
Proof.
  unfold rejection_pair.
  destruct (bool_decide_reflect (Token.type t = TRejected)) as [Ht|Ht];
    destruct (Nat.ltb_spec (i + 1) (length tokens)) as [Hlt|Hge];
    cbn [andb];
    try (split; [done | intros (? & Hc & ?); try done;
                        apply lookup_lt_Some in Hc; lia]).
  destruct (tokens !! (i + 1)) as [c'|] eqn:Hc.
  - destruct (bool_decide_reflect (Token.type c' = TCorrected)) as [Hcor|Hcor].
    + split; [intros [= <-]; done | intros (_ & [= <-] & _); done].
    + split; [done | intros (_ & [= <-] & ?); done].
  - split; [done | intros (_ & ? & _); done].
Qed.

Lemma buildSteps_loop_Segments n : forall fuel tokens pre rest acc,
  tokens = pre ++ rest ->
  length rest = n ->
  n <= fuel ->
  exists steps,
    buildSteps_loop fuel tokens (length pre, acc) = Some (acc ++ steps) /\
    Segments (length pre) rest steps.
Proof.
  induction (lt_wf n) as [n _ IH]. intros fuel tokens pre rest acc -> Hn Hfuel.
  destruct rest as [|t rest].
  { exists []. split; [|constructor].
    destruct fuel; cbn; rewrite lookup_ge_None_2; rewrite ?length_app; cbn;
      try lia; by rewrite app_nil_r. }
  assert (Ht : (pre ++ t :: rest) !! length pre = Some t)
    by (by rewrite list_lookup_middle).
  cbn in Hn. destruct fuel as [|fuel]; [lia|].
  cbn [buildSteps_loop buildSteps_iter]. rewrite Ht.
  destruct (rejection_pair (pre ++ t :: rest) (length pre) t) as [c|] eqn:Hp.
  - pose proof Hp as Hp'. apply rejection_pair_Some in Hp' as (Hrej & Hc & Hcor).
    destruct rest as [|c' rest].
    { apply lookup_lt_Some in Hc. rewrite length_app in Hc. cbn in Hc. lia. }
    assert (c' = c) as ->.
    { replace (pre ++ t :: c' :: rest) with ((pre ++ [t]) ++ c' :: rest) in Hc
        by (by rewrite <- app_assoc).
      rewrite list_lookup_middle in Hc by (rewrite length_app; cbn; lia).
      congruence. }
    cbn in Hn.
    destruct (IH (length rest) ltac:(lia) fuel (pre ++ t :: c :: rest)
                (pre ++ [t; c]) rest
                (acc ++ [KRejection t c (length pre) (length pre + 1)]))
      as (steps & Hrun & Hseg); [by rewrite <- app_assoc | done | lia |].
    rewrite length_app in Hrun, Hseg. cbn [length] in Hrun, Hseg.
    exists (KRejection t c (length pre) (length pre + 1) :: steps). split.
    + rewrite Hrun. by rewrite <- app_assoc.
    + by constructor.
  - destruct (IH (length rest) ltac:(lia) fuel (pre ++ t :: rest)
                (pre ++ [t]) rest (acc ++ [KAccepted t (length pre)]))
      as (steps & Hrun & Hseg); [by rewrite <- app_assoc | done | lia |].
    rewrite length_app in Hrun, Hseg. cbn [length] in Hrun, Hseg.
    exists (KAccepted t (length pre) :: steps). split.
    + rewrite Hrun. by rewrite <- app_assoc.
    + constructor; [|done].
      intros (Hrej & c & rest' & -> & Hcor).
      assert (rejection_pair (pre ++ t :: c :: rest') (length pre) t = Some c)
        as Hp'; [|congruence].
      apply rejection_pair_Some. split_and!; [done| |done].
      replace (pre ++ t :: c :: rest') with ((pre ++ [t]) ++ c :: rest')
        by (by rewrite <- app_assoc).
      rewrite list_lookup_middle; [done|]. rewrite length_app. cbn. lia.
Qed.

Lemma Segments_functional i tokens steps1 steps2 :
  Segments i tokens steps1 -> Segments i tokens steps2 -> steps1 = steps2.
Proof.
  intros H1. revert steps2.
  induction H1 as [i|i t c rest steps Ht Hc _ IH|i t rest steps Hn _ IH];
    intros steps2 H2; inversion H2; subst; try done.
  - f_equal. by apply IH.
  - exfalso. match goal with H : ~ _ |- _ => apply H end. eauto.
  - exfalso. apply Hn. eauto.
  - f_equal. by apply IH.
Qed.

(** [buildSteps] terminates within its fuel and computes the segmentation. *)
Lemma buildSteps_loop_total tokens :
  buildSteps_loop (length tokens) tokens (0, []) = Some (buildSteps tokens) /\
  Segments 0 tokens (buildSteps tokens).
Proof.
  destruct (buildSteps_loop_Segments (length tokens) (length tokens) tokens
              [] tokens []) as (steps & Hrun & Hseg); try done.
  unfold buildSteps. cbn in Hrun. rewrite Hrun. done.
Qed.

Lemma buildSteps_iter_rule tokens i steps t :
  tokens !! i = Some t ->
  buildSteps_iter tokens (i, steps) =
    Some (match tokens !! (i + 1) with
          | Some c =>
              if bool_decide (Token.type t = TRejected /\ Token.type c = TCorrected)
              then (i + 2, steps ++ [KRejection t c i (i + 1)])
              else (i + 1, steps ++ [KAccepted t i])
          | None => (i + 1, steps ++ [KAccepted t i])
          end).
Proof.
  intros Ht. cbn. rewrite Ht.
  destruct (rejection_pair tokens i t) as [c|] eqn:Hp.
  - apply rejection_pair_Some in Hp as (Hrej & -> & Hcor).
    by rewrite bool_decide_eq_true_2.
  - destruct (tokens !! (i + 1)) as [c|] eqn:Hc; [|done].
    case_bool_decide as Hd; [|done].
    destruct Hd as [Hrej Hcor].
    assert (rejection_pair tokens i t = Some c) as Hp'
      by (by apply rejection_pair_Some).
    congruence.
Qed.

Lemma Segments_trailing_rejected i pre t steps :
  Segments i (pre ++ [t]) steps ->
  Token.type t = TRejected ->
  exists steps', steps = steps' ++ [KAccepted t (i + length pre)].
Proof.
  intros Hseg Ht. remember (pre ++ [t]) as l eqn:Hl.
  revert pre Hl.
  induction Hseg as [i|i t' c rest steps Hrej Hcor Hrest IH|i t' rest steps Hn Hrest IH];
    intros pre Hl.
  - by destruct pre.
  - destruct pre as [|p1 [|p2 pre]]; cbn in Hl; simplify_eq.
    + congruence.
    + destruct (IH pre eq_refl) as [steps' ->].
      exists (KRejection p1 p2 i (i + 1) :: steps').
      replace (i + length (p1 :: p2 :: pre)) with (i + 2 + length pre)
        by (cbn; lia).
      done.
  - destruct pre as [|p1 pre]; cbn in Hl; simplify_eq.
    + inversion Hrest; subst. exists [].
      replace (i + length (@nil Token.t)) with i by (cbn; lia). done.
    + destruct (IH pre eq_refl) as [steps' ->].
      exists (KAccepted p1 i :: steps').
      replace (i + length (p1 :: pre)) with (i + 1 + length pre)
        by (cbn; lia).
      done.
Qed.

(** C1.  The segmenter scans left to right.  At cursor [i] with a current
    token [t]: when [t] is rejected and the next token exists and is
    corrected, one iteration appends one rejection step holding the pair
    and moves the cursor by two; in every other case it appends one
    accepted step wrapping [t] and moves the cursor by one.  The scan stops
    at the end of the sequence, always terminates, and its result is the
    unique segmentation by that rule; in particular a trailing rejected
    token ends up wrapped in an accepted step. *)
Theorem buildSteps_segmenter_rule (tokens : list Token.t) :
  (forall i steps t, tokens !! i = Some t ->
     buildSteps_iter tokens (i, steps) =
       Some (match tokens !! (i + 1) with
             | Some c =>
                 if bool_decide (Token.type t = TRejected /\
                                 Token.type c = TCorrected)
                 then (i + 2, steps ++ [KRejection t c i (i + 1)])
                 else (i + 1, steps ++ [KAccepted t i])
             | None => (i + 1, steps ++ [KAccepted t i])
             end))
  /\ (forall i steps, length tokens <= i ->
        buildSteps_iter tokens (i, steps) = None)
  /\ buildSteps_loop (length tokens) tokens (0, []) = Some (buildSteps tokens)
  /\ Segments 0 tokens (buildSteps tokens)
  /\ (forall steps, Segments 0 tokens steps -> steps = buildSteps tokens)
  /\ (forall pre t, tokens = pre ++ [t] -> Token.type t = TRejected ->
        exists steps, buildSteps tokens = steps ++ [KAccepted t (length pre)]).
Proof.
  destruct (buildSteps_loop_total tokens) as [Hrun Hseg].
  split_and!; try done.
  - intros i steps t. apply buildSteps_iter_rule.
  - intros i steps Hi. cbn. by rewrite lookup_ge_None_2.
  - intros steps Hs. by apply (Segments_functional 0 tokens).
  - intros pre t -> Ht.
    by apply (Segments_trailing_rejected 0 pre t) in Hseg.
Qed.

(** ** Packet acknowledgement *)

(** C10.  [handlePacketDone pid] keeps exactly the packets whose id
    differs from [pid], in their original relative order, removes exactly
    the packets that carry [pid], touches no other part of the state, and
    changes nothing at all when no active packet carries [pid]. *)
Theorem handlePacketDone_frame (pid : nat) (st : Dashboard.State) :
  let st' := Dashboard.handlePacketDone pid st in
  (forall p, p ∈ Dashboard.packets st' <->
             p ∈ Dashboard.packets st /\ Dashboard.id p <> pid)
  /\ Dashboard.packets st' `sublist_of` Dashboard.packets st
  /\ length (Dashboard.packets st')
     + length (filter (fun p => Dashboard.id p = pid) (Dashboard.packets st))
     = length (Dashboard.packets st)
  /\ Dashboard.set_packets (Dashboard.packets st) st' = st
  /\ (Forall (fun p => Dashboard.id p <> pid) (Dashboard.packets st) -> st' = st).
Proof.
  cbn. split_and!.
  - intros p. rewrite list_elem_of_filter. tauto.
  - apply sublist_filter.
  - induction (Dashboard.packets st) as [|p ps IH]; [done|].
    rewrite !filter_cons.
    destruct (decide (Dashboard.id p = pid)); case_decide; cbn; try done; lia.
  - by destruct st.
  - intros Hall. unfold Dashboard.handlePacketDone.
    replace (filter (fun p => Dashboard.id p <> pid) (Dashboard.packets st))
      with (Dashboard.packets st); [by destruct st|].
    induction Hall as [|p ps Hp _ IH]; [done|].
    rewrite filter_cons_True by done. by f_equal.
Qed.

(** ** Live adapter: metrics, errors, closure *)

Lemma checkDone_metrics r st :
  Dashboard.acceptanceRate (Dashboard.checkDone r st) = Dashboard.acceptanceRate st
  /\ Dashboard.acceptedDraftTokens (Dashboard.checkDone r st)
     = Dashboard.acceptedDraftTokens st
  /\ Dashboard.totalInferenceTimeSavedMs (Dashboard.checkDone r st)
     = Dashboard.totalInferenceTimeSavedMs st
  /\ Dashboard.costSavingsDollars (Dashboard.checkDone r st)
     = Dashboard.costSavingsDollars st.
Proof.
  unfold Dashboard.checkDone.
  destruct (Dashboard.runs st !! r) as [run|]; [|done].
  by destruct (bool_decide (Dashboard.tokenQueue run = [])
               && negb (Dashboard.processing run)).
Qed.

(** C8.  A round message with acceptance rate [r] and a done message with
    acceptance rate [r] both set the displayed acceptance rate to the
    binary64 product [r * 100]; for [r = 0.75] that is exactly 75.  A done
    message also replaces the count of accepted draft tokens by the
    transport's [draft_tokens_accepted] and recomputes the savings from
    it. *)
Theorem acceptance_rate_passthrough (r : nat) (st : Dashboard.State) :
  (forall data,
     Dashboard.acceptanceRate (Dashboard.onMessage r (MsgRound data) st)
     = (round_acceptance_rate data * 100)%float)
  /\ (forall data,
        let st' := Dashboard.onMessage r (MsgDone data) st in
        Dashboard.acceptanceRate st' = (acceptance_rate data * 100)%float
        /\ Dashboard.acceptedDraftTokens st' = draft_tokens_accepted data
        /\ Dashboard.totalInferenceTimeSavedMs st'
           = (draft_tokens_accepted data * 12)%float
        /\ Dashboard.costSavingsDollars st'
           = (draft_tokens_accepted data / 1000 * 0.5)%float)
  /\ (forall rid txt toks total generated accepted_n ms rounds,
        Dashboard.acceptanceRate
          (Dashboard.onMessage r
             (MsgDone (mkResponse rid txt toks total generated accepted_n ms
                                  0.75%float rounds)) st)
        = 75%float)
  /\ (forall n d a c ms,
        Dashboard.acceptanceRate
          (Dashboard.onMessage r (MsgRound (mkRound n d a c ms 0.75%float)) st)
        = 75%float).
Proof.
  assert (Hdone : forall data,
    let st' := Dashboard.onMessage r (MsgDone data) st in
    Dashboard.acceptanceRate st' = (acceptance_rate data * 100)%float
    /\ Dashboard.acceptedDraftTokens st' = draft_tokens_accepted data
    /\ Dashboard.totalInferenceTimeSavedMs st'
       = (draft_tokens_accepted data * 12)%float
    /\ Dashboard.costSavingsDollars st'
       = (draft_tokens_accepted data / 1000 * 0.5)%float).
  { intros data. cbn zeta. unfold Dashboard.onMessage.
    destruct (checkDone_metrics r
      (Dashboard.updateLiveSavingsFromAcceptedTokens
         (Dashboard.set_acceptedDraftTokens (draft_tokens_accepted data)
            (Dashboard.set_acceptanceRate (acceptance_rate data * 100)%float st))))
      as (-> & -> & -> & ->).
    done. }
  split_and!; [done | exact Hdone | | done].
  intros rid txt toks total generated accepted_n ms rounds.
  destruct (Hdone (mkResponse rid txt toks total generated accepted_n ms
                              0.75%float rounds)) as [-> _].
  reflexivity.
Qed.

(** C7, as the code has it.  An error message and the transport's error
    callback force [phase = idle] and [done = true] and clear the streaming
    flag; the transport's close callback only clears the streaming flag and
    leaves phase and done as they are.  None of the three touches the
    visible tokens, the counts, the packets or the pending timers. *)
Theorem error_and_close_handling (r : nat) (message : string)
    (st : Dashboard.State) :
  (let st' := Dashboard.onMessage r (MsgError message) st in
   Dashboard.phase st' = idle /\ Dashboard.done st' = true
   /\ Dashboard.isStreaming st' = false
   /\ Dashboard.visibleTokens st' = Dashboard.visibleTokens st
   /\ Dashboard.counts st' = Dashboard.counts st
   /\ Dashboard.packets st' = Dashboard.packets st
   /\ Dashboard.loop st' = Dashboard.loop st)
  /\ (let st' := Dashboard.onError st in
      Dashboard.phase st' = idle /\ Dashboard.done st' = true
      /\ Dashboard.isStreaming st' = false
      /\ Dashboard.visibleTokens st' = Dashboard.visibleTokens st
      /\ Dashboard.counts st' = Dashboard.counts st
      /\ Dashboard.packets st' = Dashboard.packets st
      /\ Dashboard.loop st' = Dashboard.loop st)
  /\ (let st' := Dashboard.onClose st in
      Dashboard.phase st' = Dashboard.phase st
      /\ Dashboard.done st' = Dashboard.done st
      /\ Dashboard.isStreaming st' = false
      /\ Dashboard.visibleTokens st' = Dashboard.visibleTokens st
      /\ Dashboard.counts st' = Dashboard.counts st
      /\ Dashboard.packets st' = Dashboard.packets st
      /\ Dashboard.loop st' = Dashboard.loop st).
Proof. done. Qed.

(** C7 as stated fails for the transport closing: while an accepted token
    is on screen and the run is neither idle nor done, the close callback
    leaves [phase = drafting] and [done = false]. *)
Lemma close_leaves_phase_and_done :
  let st := Dashboard.run []
              [Dashboard.EvSubmit "hello";
               Dashboard.EvMessage 0
                 (MsgToken (mkTokenEvent "Hi" TAccepted None None));
               Dashboard.EvClose 0]
              Dashboard.init in
  Dashboard.phase st = drafting /\ Dashboard.done st = false
  /\ Dashboard.isStreaming st = false
  /\ Dashboard.phase st <> idle /\ Dashboard.done st <> true.
Proof. vm_compute. split_and!; congruence. Qed.


(** ** The worked example *)

(** C9.  On the four-token example the segmenter yields two accepted steps
    and one rejection step; eight timer firings after the demo starts, the
    run is complete with no timer left, the visible tokens are the settled
    texts "The", " theory", " 1905", and the counts are drafted 4,
    accepted 2, rejected 1, corrected 1 -- in the dashboard and in the
    chat stream component alike. *)
Theorem worked_example_run :
  buildSteps worked_example
  = [KAccepted (tok "The" TAccepted) 0;
     KAccepted (tok " theory" TAccepted) 1;
     KRejection (tok " the early" TRejected) (tok " 1905" TCorrected) 2 3]
  /\ (let st := Dashboard.run (buildSteps worked_example)
                  (Dashboard.EvHealth false :: replicate 8 Dashboard.EvTimer)
                  Dashboard.init in
      Dashboard.phase st = complete /\ Dashboard.done st = true
      /\ Timers.pending (Dashboard.loop st) = []
      /\ Dashboard.visibleTokens st
         = [mkVisible "The" TAccepted settled;
            mkVisible " theory" TAccepted settled;
            mkVisible " 1905" TCorrected settled]
      /\ vt_text <$> filter (fun t => vt_phase t = settled)
                            (Dashboard.visibleTokens st)
         = ["The"; " theory"; " 1905"]%string
      /\ Dashboard.counts st
         = {| accepted := 2; rejected := 1; corrected := 1; drafted := 4 |})
  /\ (let st := ChatStream.run (buildSteps worked_example)
                  (ChatStream.EvMount :: replicate 8 ChatStream.EvTimer)
                  ChatStream.init in
      ChatStream.phase (ChatStream.status st) = complete
      /\ ChatStream.done st = true
      /\ Timers.pending (ChatStream.loop st) = []
      /\ ChatStream.visibleTokens st
         = [mkVisible "The" TAccepted settled;
            mkVisible " theory" TAccepted settled;
            mkVisible " 1905" TCorrected settled]
      /\ ChatStream.counts st
         = {| accepted := 2; rejected := 1; corrected := 1; drafted := 4 |}
      /\ ChatStream.status_counts (ChatStream.status st) = ChatStream.counts st).
Proof. vm_compute. split_and!; reflexivity. Qed.

(** ** The status log *)

Lemma slice_last5_length {A} (l : list A) :
  length (ChatStream.slice_last5 l) = Nat.min 5 (length l).
Proof. unfold ChatStream.slice_last5. rewrite length_drop. lia. Qed.

Lemma slice_last5_short {A} (l : list A) :
  length l <= 5 -> ChatStream.slice_last5 l = l.
Proof.
  intros H. unfold ChatStream.slice_last5.
  by replace (length l - 5) with 0 by lia.
Qed.

Lemma slice_last5_push_full {A} (oldest : A) (rest : list A) (e : A) :
  length rest = 4 ->
  ChatStream.slice_last5 ((oldest :: rest) ++ [e]) = rest ++ [e].
Proof.
  intros H. unfold ChatStream.slice_last5.
  rewrite length_app. cbn [length]. rewrite H. reflexivity.
Qed.

Lemma StronglySorted_drop {A} (R : A -> A -> Prop) n (l : list A) :
  StronglySorted R l -> StronglySorted R (drop n l).
Proof.
  intros H. revert n. induction H as [|x l Hl IH Hx]; intros [|n]; cbn;
    try constructor; auto.
Qed.

Lemma StronglySorted_le_snoc (l : list nat) (y : nat) :
  StronglySorted le l -> Forall (fun x => x <= y) l ->
  StronglySorted le (l ++ [y]).
Proof.
  induction 1 as [|x l Hl IH Hx]; intros Hy; cbn.
  - repeat constructor.
  - inversion Hy; subst. constructor; [auto|].
    apply Forall_app. split; [done|]. by repeat constructor.
Qed.

Lemma log_inv_updater ty tk st :
  log_inv st -> log_inv (ChatStream.statusEvents_updater ty tk st).
Proof.
  intros (Hlen & Hsorted & Hle). unfold log_inv.
  set (e := ChatStream.mkEvent (ChatStream.eventIdRef st) ty tk
              (Timers.now (ChatStream.loop st))).
  change (ChatStream.statusEvents (ChatStream.statusEvents_updater ty tk st))
    with (ChatStream.slice_last5 (ChatStream.statusEvents st ++ [e])).
  change (ChatStream.eventIdRef (ChatStream.statusEvents_updater ty tk st))
    with (ChatStream.eventIdRef st).
  split_and!.
  - rewrite slice_last5_length. lia.
  - unfold ChatStream.slice_last5. rewrite fmap_drop.
    apply StronglySorted_drop. rewrite fmap_app.
    apply StronglySorted_le_snoc; [done|]. by apply Forall_fmap.
  - unfold ChatStream.slice_last5. apply Forall_drop, Forall_app. split.
    + done.
    + repeat constructor.
Qed.

Lemma log_inv_addEvent ty tk st :
  log_inv st -> log_inv (ChatStream.addEvent ty tk st).
Proof.
  intros (Hlen & Hsorted & Hle). unfold log_inv. cbn. split_and!; try done.
  eapply Forall_impl; [exact Hle|]. cbn. intros. lia.
Qed.

Lemma log_inv_frame st st' :
  ChatStream.statusEvents st' = ChatStream.statusEvents st ->
  ChatStream.eventIdRef st' = ChatStream.eventIdRef st ->
  log_inv st -> log_inv st'.
Proof. unfold log_inv. by intros -> ->. Qed.

Lemma log_inv_render st : log_inv st -> log_inv (ChatStream.render st).
Proof.
  intros H. unfold ChatStream.render.
  assert (H0 : log_inv (ChatStream.set_eventUpdates [] st))
    by (by apply (log_inv_frame st)).
  revert H0. generalize (ChatStream.set_eventUpdates [] st).
  induction (ChatStream.eventUpdates st) as [|[ty tk] us IH]; intros s Hs;
    [done|].
  cbn [foldl]. apply IH. by apply log_inv_updater.
Qed.

Ltac log_inv_step :=
  lazymatch goal with
  | |- log_inv (ChatStream.addEvent _ _ _) => apply log_inv_addEvent
  | |- log_inv (?f ?s) => apply (log_inv_frame s); [reflexivity | reflexivity |]
  end.

Lemma log_inv_run_callback STEPS cb st :
  log_inv st -> log_inv (ChatStream.run_callback STEPS cb st).
Proof.
  intros H. destruct cb; cbn [ChatStream.run_callback].
  - unfold ChatStream.processStep.
    destruct (STEPS !! ChatStream.stepIdx st) as [[tk i|rej cor i j]|];
      cbn zeta; repeat log_inv_step; exact H.
  - unfold ChatStream.verifyRejected. cbn zeta. repeat log_inv_step. exact H.
  - unfold ChatStream.hideRejected. cbn zeta. repeat log_inv_step. exact H.
  - unfold ChatStream.showCorrected. cbn zeta. repeat log_inv_step. exact H.
  - unfold ChatStream.settleCorrected. cbn zeta. repeat log_inv_step. exact H.
Qed.

Lemma log_inv_step_event STEPS ev st :
  log_inv st -> log_inv (ChatStream.step STEPS ev st).
Proof.
  intros H. destruct ev; cbn [ChatStream.step].
  - by apply (log_inv_frame st).
  - by apply (log_inv_frame st).
  - destruct (Timers.fire (ChatStream.loop st)) as [[cb l]|]; [|done].
    apply log_inv_render, log_inv_run_callback. by apply (log_inv_frame st).
Qed.

Lemma log_inv_run STEPS evs st :
  log_inv st -> log_inv (ChatStream.run STEPS evs st).
Proof.
  revert st. induction evs as [|ev evs IH]; intros st H; [done|].
  cbn. apply IH. by apply log_inv_step_event.
Qed.

(** The two events of one accepted step are queued in the same callback and
    rendered together, after both increments of the counter: they carry
    the same id.  Ids in the log therefore never decrease, but may repeat. *)
Example accepted_step_events_share_id :
  let st := ChatStream.run (buildSteps worked_example)
              [ChatStream.EvMount; ChatStream.EvTimer] ChatStream.init in
  ChatStream.statusEvents st
  = [ChatStream.mkEvent 2 ChatStream.draft "The" 800;
     ChatStream.mkEvent 2 ChatStream.verified "The" 800]
  /\ ChatStream.eventIdRef st = 2.
Proof. vm_compute. split; reflexivity. Qed.

(** C6.  The updater that [addEvent] queues leaves at most 5 entries:
    below 5 entries it appends the new event at the end, and on a full log
    it drops the oldest entry and keeps the other four in order before the
    new one.  In every state the component reaches, by any sequence of
    timer firings, the log has at most 5 entries and their ids never
    decrease from oldest to newest, so the entry evicted from the head has
    the lowest id in the log. *)
Theorem statusEvents_bounded_fifo :
  (forall ty tk st,
     let st' := ChatStream.statusEvents_updater ty tk st in
     let e := ChatStream.mkEvent (ChatStream.eventIdRef st) ty tk
                (Timers.now (ChatStream.loop st)) in
     length (ChatStream.statusEvents st') <= 5
     /\ ChatStream.statusEvents st'
        = ChatStream.slice_last5 (ChatStream.statusEvents st ++ [e])
     /\ (length (ChatStream.statusEvents st) < 5 ->
         ChatStream.statusEvents st' = ChatStream.statusEvents st ++ [e])
     /\ (forall oldest rest,
           ChatStream.statusEvents st = oldest :: rest -> length rest = 4 ->
           ChatStream.statusEvents st' = rest ++ [e]))
  /\ (forall ty tk st,
        let st' := ChatStream.render (ChatStream.addEvent ty tk st) in
        ChatStream.eventUpdates st = [] ->
        ChatStream.statusEvents st'
        = ChatStream.slice_last5
            (ChatStream.statusEvents st
               ++ [ChatStream.mkEvent (ChatStream.eventIdRef st + 1) ty tk
                     (Timers.now (ChatStream.loop st))])
        /\ ChatStream.eventUpdates st' = [])
  /\ (forall STEPS evs,
        let st := ChatStream.run STEPS evs ChatStream.init in
        length (ChatStream.statusEvents st) <= 5
        /\ StronglySorted le (ChatStream.id <$> ChatStream.statusEvents st)
        /\ Forall (fun e => ChatStream.id e <= ChatStream.eventIdRef st)
                  (ChatStream.statusEvents st)).
Proof.
  split_and!.
  - intros ty tk st. cbn zeta.
    assert (ChatStream.statusEvents (ChatStream.statusEvents_updater ty tk st)
            = ChatStream.slice_last5
                (ChatStream.statusEvents st
                   ++ [ChatStream.mkEvent (ChatStream.eventIdRef st) ty tk
                         (Timers.now (ChatStream.loop st))])) as -> by done.
    split_and!.
    + rewrite slice_last5_length. lia.
    + done.
    + intros Hlt. apply slice_last5_short. rewrite length_app. cbn. lia.
    + intros oldest rest -> Hrest. by apply slice_last5_push_full.
  - intros ty tk st. cbn zeta. intros Hq.
    unfold ChatStream.render, ChatStream.addEvent. cbn. rewrite Hq. done.
  - intros STEPS evs. apply log_inv_run.
    unfold log_inv. cbn. split_and!; [lia | constructor | constructor].
Qed.

(** ** The packet throttler *)

Lemma throttled_id l c st :
  throttled l c 0 (Dashboard.buffer l st) st = st.
Proof.
  unfold throttled, Dashboard.buffer. destruct st as [? ? ? ? ? ? ? ? ? ? ? ? [bd bv] ? ? ? ? ? ? ? ? ? ?].
  cbn. rewrite app_nil_r, Nat.add_0_r. by destruct l.
Qed.

Lemma new_packets_S l c n q :
  new_packets l c n (S q)
  = Dashboard.mkPacket n (lane_direction l) l c :: new_packets l c (n + 1) q.
Proof.
  unfold new_packets. cbn [seq fmap list_fmap]. rewrite Nat.add_0_r. f_equal.
  rewrite <- seq_shift, <- list_fmap_compose. apply list_fmap_ext.
  intros _ j _. cbn. f_equal. lia.
Qed.

(** The loop leaves the remainder in the buffer and appends one packet per
    full threshold; it stops by its guard, not for lack of fuel. *)
Lemma emitPacketForWords_loop_spec q : forall r l c st fuel,
  r < 3 -> Dashboard.buffer l st = 3 * q + r -> q <= fuel ->
  Dashboard.emitPacketForWords_loop fuel l c st = throttled l c q r st.
Proof.
  induction q as [|q IH]; intros r l c st fuel Hr Hb Hfuel.
  - replace (3 * 0 + r) with r in Hb by lia.
    assert (Dashboard.emitPacketForWords_loop fuel l c st = st) as ->.
    { destruct fuel; cbn [Dashboard.emitPacketForWords_loop];
        destruct (Nat.leb_spec Dashboard.WORDS_PER_PACKET (Dashboard.buffer l st))
          as [H|H]; try done;
        unfold Dashboard.WORDS_PER_PACKET in H; lia. }
    by rewrite <- Hb, throttled_id.
  - destruct fuel as [|fuel]; [lia|]. cbn [Dashboard.emitPacketForWords_loop].
    destruct (Nat.leb_spec Dashboard.WORDS_PER_PACKET (Dashboard.buffer l st))
      as [_|H]; [|unfold Dashboard.WORDS_PER_PACKET in H; lia].
    rewrite (IH r); [| done | | lia].
    + unfold throttled. rewrite (new_packets_S l c (Dashboard.packetId st) q).
      unfold Dashboard.buffer, Dashboard.set_buffer, Dashboard.emitPacket.
      destruct st as [? ? ? ? ? ? ? ? ? ? ? ? [bd bv] ? ? ? ? ? ? ? ? ? ?].
      cbn [Dashboard.packets Dashboard.packetId Dashboard.packetWordBuffer
           Dashboard.set_packets Dashboard.set_packetId
           Dashboard.set_packetWordBuffer].
      generalize (new_packets l c (packetId + 1) q). intros news.
      destruct l; cbv -[Nat.add Nat.sub Nat.mul app];
        rewrite <- app_assoc; cbn [app]; f_equal; lia.
    + unfold Dashboard.buffer, Dashboard.set_buffer, Dashboard.emitPacket in *.
      destruct st as [? ? ? ? ? ? ? ? ? ? ? ? [bd bv] ? ? ? ? ? ? ? ? ? ?].
      unfold Dashboard.WORDS_PER_PACKET. destruct l; cbn in *; lia.
Qed.

Lemma emitPacketForWords_spec l c text st :
  Dashboard.buffer l st < 3 ->
  Dashboard.emitPacketForWords l c text st
  = throttled l c ((Dashboard.buffer l st + countWords text) / 3)
                  ((Dashboard.buffer l st + countWords text) mod 3) st.
Proof.
  intros Hb. unfold Dashboard.emitPacketForWords.
  destruct (Nat.eqb_spec (countWords text) 0) as [->|Hw].
  - rewrite Nat.add_0_r, Nat.div_small, Nat.mod_small by done.
    by rewrite throttled_id.
  - set (n := Dashboard.buffer l st + countWords text).
    assert (Hn : Dashboard.buffer l (Dashboard.set_buffer l n st) = n).
    { unfold Dashboard.buffer, Dashboard.set_buffer.
      destruct st as [? ? ? ? ? ? ? ? ? ? ? ? [bd bv] ? ? ? ? ? ? ? ? ? ?].
      by destruct l. }
    rewrite (emitPacketForWords_loop_spec (n / 3) (n mod 3)).
    + generalize (n / 3) (n mod 3). intros q r. clear. revert n.
      generalize (countWords text). intros w n.
      destruct st as [? ? ? ? ? ? ? ? ? ? ? ? [bd bv] ? ? ? ? ? ? ? ? ? ?].
      by destruct l; cbv -[Nat.add app new_packets].
    + apply Nat.mod_upper_bound. lia.
    + rewrite Hn. apply Nat.div_mod_eq.
    + rewrite Hn. apply Nat.Div0.div_le_upper_bound. lia.
Qed.

Lemma divmod3_add x w :
  (x + w) / 3 = x / 3 + (x mod 3 + w) / 3
  /\ (x + w) mod 3 = (x mod 3 + w) mod 3.
Proof.
  pose proof (Nat.div_mod_eq x 3) as Hx.
  pose proof (Nat.div_mod_eq (x mod 3 + w) 3) as Hy.
  pose proof (Nat.mod_upper_bound (x mod 3 + w) 3 ltac:(lia)) as Hr.
  split; symmetry.
  - apply (Nat.div_unique _ _ _ ((x mod 3 + w) mod 3)); lia.
  - apply (Nat.mod_unique _ _ (x / 3 + (x mod 3 + w) / 3)); lia.
Qed.

Lemma words_on_cons l l' c text ds :
  words_on l ((l', c, text) :: ds)
  = (if decide (l' = l) then countWords text else 0) + words_on l ds.
Proof. reflexivity. Qed.

Lemma emitted_app l ps qs : emitted l (ps ++ qs) = emitted l ps + emitted l qs.
Proof. unfold emitted. by rewrite filter_app, length_app. Qed.

Lemma emitted_new_packets l l' c n q :
  emitted l (new_packets l' c n q) = if decide (l' = l) then q else 0.
Proof.
  unfold emitted, new_packets.
  assert (forall k,
    length (filter (fun p => Dashboard.lane p = l)
              ((fun j => Dashboard.mkPacket (n + j) (lane_direction l') l' c)
                 <$> seq k q))
    = if decide (l' = l) then q else 0) as H; [|apply H].
  induction q as [|q IH]; intros k; cbn [seq fmap list_fmap].
  - by case_decide.
  - rewrite filter_cons. cbn. specialize (IH (S k)).
    case_decide; cbn; by rewrite IH.
Qed.

Lemma buffer_throttled l l' c q r st :
  Dashboard.buffer l (throttled l' c q r st)
  = if decide (l' = l) then r else Dashboard.buffer l st.
Proof.
  unfold Dashboard.buffer, throttled. cbn.
  by destruct l, l', (Dashboard.packetWordBuffer st).
Qed.

(** After dispatches from a state whose buffers are below the threshold,
    each lane holds the remainder and has emitted the quotient. *)
Lemma dispatch_all_spec ds : forall st l,
  Dashboard.buffer Dashboard.draft st < 3 ->
  Dashboard.buffer Dashboard.verify st < 3 ->
  let st' := dispatch_all ds st in
  Dashboard.buffer Dashboard.draft st' < 3
  /\ Dashboard.buffer Dashboard.verify st' < 3
  /\ Dashboard.buffer l st' = (Dashboard.buffer l st + words_on l ds) mod 3
  /\ emitted l (Dashboard.packets st')
     = emitted l (Dashboard.packets st)
       + (Dashboard.buffer l st + words_on l ds) / 3.
Proof.
  induction ds as [|[[l' c] text] ds IH]; intros st l Hd Hv; cbn zeta.
  - unfold dispatch_all, words_on. cbn [foldl fmap list_fmap sum_list].
    rewrite Nat.add_0_r.
    assert (Dashboard.buffer l st < 3) by (by destruct l).
    rewrite Nat.mod_small, Nat.div_small by done. split_and!; try done; lia.
  - cbn [dispatch_all foldl dispatch].
    assert (Hl' : Dashboard.buffer l' st < 3) by (by destruct l').
    pose proof (emitPacketForWords_spec l' c text st Hl') as Hstep.
    set (st1 := Dashboard.emitPacketForWords l' c text st) in *.
    pose proof (Nat.mod_upper_bound (Dashboard.buffer l' st + countWords text) 3
                  ltac:(lia)) as Hr.
    assert (Hd1 : Dashboard.buffer Dashboard.draft st1 < 3).
    { rewrite Hstep, buffer_throttled. by case_decide. }
    assert (Hv1 : Dashboard.buffer Dashboard.verify st1 < 3).
    { rewrite Hstep, buffer_throttled. by case_decide. }
    destruct (IH st1 l Hd1 Hv1) as (Hd' & Hv' & Hbuf & Hem).
    fold (dispatch_all ds st1).
    split_and!; [done | done | |].
    + rewrite Hbuf, words_on_cons, Hstep, buffer_throttled.
      case_decide as Heq.
      * subst l'. rewrite Nat.add_assoc.
        by destruct (divmod3_add (Dashboard.buffer l st + countWords text)
                       (words_on l ds)) as [_ ->].
      * by rewrite Nat.add_0_l.
    + rewrite Hem, words_on_cons, Hstep, buffer_throttled.
      unfold throttled at 1.
      change (Dashboard.packets (Dashboard.set_packetWordBuffer ?b
                (Dashboard.set_packets ?ps ?s))) with ps.
      rewrite emitted_app, emitted_new_packets.
      case_decide as Heq.
      * subst l'. rewrite Nat.add_assoc.
        destruct (divmod3_add (Dashboard.buffer l st + countWords text)
                    (words_on l ds)) as [-> _]. lia.
      * rewrite Nat.add_0_l. lia.
Qed.

(** ** The scheduler: one step at a time *)

(** The throttler writes the packet list, the packet id and the word
    buffer, and nothing else. *)
Lemma emitPacketForWords_loop_form fuel : forall l c st,
  exists ps n b,
    Dashboard.emitPacketForWords_loop fuel l c st
    = Dashboard.set_packetWordBuffer b
        (Dashboard.set_packets ps (Dashboard.set_packetId n st)).
Proof.
  induction fuel as [|fuel IH]; intros l c st;
    cbn [Dashboard.emitPacketForWords_loop];
    destruct (Dashboard.WORDS_PER_PACKET <=? Dashboard.buffer l st);
    try (exists (Dashboard.packets st), (Dashboard.packetId st),
           (Dashboard.packetWordBuffer st); by destruct st).
  destruct (IH l c
    (Dashboard.set_buffer l
       (Dashboard.buffer l (Dashboard.emitPacket l c st)
        - Dashboard.WORDS_PER_PACKET) (Dashboard.emitPacket l c st)))
    as (ps & n & b & ->).
  exists ps, n, b. by destruct st.
Qed.

Lemma emitPacketForWords_form l c text st :
  exists ps n b,
    Dashboard.emitPacketForWords l c text st
    = Dashboard.set_packetWordBuffer b
        (Dashboard.set_packets ps (Dashboard.set_packetId n st)).
Proof.
  unfold Dashboard.emitPacketForWords.
  destruct (countWords text =? 0).
  - exists (Dashboard.packets st), (Dashboard.packetId st),
      (Dashboard.packetWordBuffer st). by destruct st.
  - destruct (emitPacketForWords_loop_form
      (Dashboard.buffer l
         (Dashboard.set_buffer l (Dashboard.buffer l st + countWords text) st))
      l c (Dashboard.set_buffer l (Dashboard.buffer l st + countWords text) st))
      as (ps & n & b & ->).
    exists ps, n, b. by destruct st.
Qed.

Ltac emit_frame l c text st :=
  destruct (emitPacketForWords_form l c text st) as (? & ? & ? & ->);
  reflexivity.

Lemma counts_emit l c text st :
  Dashboard.counts (Dashboard.emitPacketForWords l c text st) = Dashboard.counts st.
Proof. emit_frame l c text st. Qed.

Lemma loop_emit l c text st :
  Dashboard.loop (Dashboard.emitPacketForWords l c text st) = Dashboard.loop st.
Proof. emit_frame l c text st. Qed.

Lemma stepIdx_emit l c text st :
  Dashboard.stepIdx (Dashboard.emitPacketForWords l c text st) = Dashboard.stepIdx st.
Proof. emit_frame l c text st. Qed.

Arguments Dashboard.emitPacketForWords : simpl never.

Lemma fire_only_timer {C} (cb : C) (l : Timers.Loop C) :
  only_timer cb l ->
  exists l', Timers.fire l = Some (cb, l') /\ Timers.pending l' = []
             /\ Timers.nextTimer l' = Timers.nextTimer l.
Proof.
  intros (tid & due & Hp). unfold Timers.fire. rewrite Hp. cbn.
  eexists. split; [reflexivity|]. cbn. split; [|done].
  by case_decide.
Qed.

Ltac dash_simpl :=
  repeat (progress (cbn; rewrite ?loop_emit, ?counts_emit, ?stepIdx_emit)).

(** The five stages of the demo scheduler, each from a state in which the
    fired timer has just been taken out of an otherwise empty table. *)
Lemma processDemoStep_accepted steps tk i st :
  steps !! Dashboard.stepIdx st = Some (KAccepted tk i) ->
  Timers.pending (Dashboard.loop st) = [] ->
  let st' := Dashboard.processDemoStep steps st in
  only_timer Dashboard.CbProcessDemoStep (Dashboard.loop st')
  /\ Dashboard.stepIdx st' = Dashboard.stepIdx st + 1
  /\ contributes (KAccepted tk i) (Dashboard.counts st) (Dashboard.counts st').
Proof.
  intros Hstep Hp. cbn zeta. unfold Dashboard.processDemoStep. rewrite Hstep.
  split_and!.
  - unfold only_timer. dash_simpl. rewrite Hp. by eexists _, _.
  - by dash_simpl.
  - unfold contributes. dash_simpl. by destruct (Token.type tk).
Qed.

Lemma processDemoStep_rejection steps rej cor i j st :
  steps !! Dashboard.stepIdx st = Some (KRejection rej cor i j) ->
  Timers.pending (Dashboard.loop st) = [] ->
  let st' := Dashboard.processDemoStep steps st in
  only_timer (Dashboard.CbDemoVerify rej cor) (Dashboard.loop st')
  /\ Dashboard.stepIdx st' = Dashboard.stepIdx st + 1
  /\ Dashboard.counts st'
     = mkCounts (accepted (Dashboard.counts st)) (rejected (Dashboard.counts st))
                (corrected (Dashboard.counts st))
                (drafted (Dashboard.counts st) + 1).
Proof.
  intros Hstep Hp. cbn zeta. unfold Dashboard.processDemoStep. rewrite Hstep.
  split_and!.
  - unfold only_timer. dash_simpl. rewrite Hp. by eexists _, _.
  - by dash_simpl.
  - by dash_simpl.
Qed.

Lemma demoVerify_stage rej cor st :
  Timers.pending (Dashboard.loop st) = [] ->
  let st' := Dashboard.demoVerify rej cor st in
  only_timer (Dashboard.CbDemoHide cor) (Dashboard.loop st')
  /\ Dashboard.stepIdx st' = Dashboard.stepIdx st
  /\ Dashboard.counts st'
     = mkCounts (accepted (Dashboard.counts st))
                (rejected (Dashboard.counts st) + 1)
                (corrected (Dashboard.counts st)) (drafted (Dashboard.counts st)).
Proof.
  intros Hp. cbn zeta. unfold Dashboard.demoVerify. split_and!.
  - unfold only_timer. dash_simpl. rewrite Hp. by eexists _, _.
  - by dash_simpl.
  - by dash_simpl.
Qed.

Lemma demoHide_stage cor st :
  Timers.pending (Dashboard.loop st) = [] ->
  let st' := Dashboard.demoHide cor st in
  only_timer (Dashboard.CbDemoCorrect cor) (Dashboard.loop st')
  /\ Dashboard.stepIdx st' = Dashboard.stepIdx st
  /\ Dashboard.counts st' = Dashboard.counts st.
Proof.
  intros Hp. cbn zeta. unfold Dashboard.demoHide. split_and!.
  - unfold only_timer. dash_simpl. rewrite Hp. by eexists _, _.
  - by dash_simpl.
  - by dash_simpl.
Qed.

Lemma demoCorrect_stage cor st :
  Timers.pending (Dashboard.loop st) = [] ->
  let st' := Dashboard.demoCorrect cor st in
  only_timer Dashboard.CbDemoSettle (Dashboard.loop st')
  /\ Dashboard.stepIdx st' = Dashboard.stepIdx st
  /\ Dashboard.counts st'
     = mkCounts (accepted (Dashboard.counts st)) (rejected (Dashboard.counts st))
                (corrected (Dashboard.counts st) + 1)
                (drafted (Dashboard.counts st) + 1).
Proof.
  intros Hp. cbn zeta. unfold Dashboard.demoCorrect. split_and!.
  - unfold only_timer. dash_simpl. rewrite Hp. by eexists _, _.
  - by dash_simpl.
  - by dash_simpl.
Qed.

Lemma demoSettle_stage st :
  Timers.pending (Dashboard.loop st) = [] ->
  let st' := Dashboard.demoSettle st in
  only_timer Dashboard.CbProcessDemoStep (Dashboard.loop st')
  /\ Dashboard.stepIdx st' = Dashboard.stepIdx st
  /\ Dashboard.counts st' = Dashboard.counts st.
Proof.
  intros Hp. cbn zeta. unfold Dashboard.demoSettle. split_and!.
  - unfold only_timer. dash_simpl. rewrite Hp. by eexists _, _.
  - by dash_simpl.
  - by dash_simpl.
Qed.

(** Firing the only pending timer runs its callback on a state whose
    table is empty and that is otherwise unchanged. *)
Lemma dashboard_fire steps cb st :
  only_timer cb (Dashboard.loop st) ->
  exists l,
    Dashboard.step steps Dashboard.EvTimer st
    = Dashboard.run_callback steps cb (Dashboard.set_loop l st)
    /\ Timers.pending l = [].
Proof.
  intros H. destruct (fire_only_timer cb _ H) as (l & Hf & Hp & _).
  exists l. cbn. by rewrite Hf.
Qed.

(** Fully processing the step under the cursor, in the dashboard. *)
Lemma dashboard_step_contribution steps step st :
  steps !! Dashboard.stepIdx st = Some step ->
  only_timer Dashboard.CbProcessDemoStep (Dashboard.loop st) ->
  let st' := Dashboard.run steps (replicate (firings step) Dashboard.EvTimer) st in
  contributes step (Dashboard.counts st) (Dashboard.counts st')
  /\ only_timer Dashboard.CbProcessDemoStep (Dashboard.loop st')
  /\ Dashboard.stepIdx st' = Dashboard.stepIdx st + 1.
Proof.
  intros Hstep H0. cbn zeta.
  destruct (dashboard_fire steps _ st H0) as (l0 & E0 & P0).
  destruct step as [tk i|rej cor i j]; cbn [firings replicate Dashboard.run foldl].
  - rewrite E0. cbn [Dashboard.run_callback].
    destruct (processDemoStep_accepted steps tk i (Dashboard.set_loop l0 st))
      as (H1 & I1 & C1); [done | done |].
    split_and!; done.
  - rewrite E0. cbn [Dashboard.run_callback].
    destruct (processDemoStep_rejection steps rej cor i j (Dashboard.set_loop l0 st))
      as (H1 & I1 & C1); [done | done |].
    set (st1 := Dashboard.processDemoStep steps (Dashboard.set_loop l0 st)) in *. clearbody st1.
    destruct (dashboard_fire steps _ st1 H1) as (l1 & E1 & P1).
    rewrite E1. cbn [Dashboard.run_callback].
    destruct (demoVerify_stage rej cor (Dashboard.set_loop l1 st1))
      as (H2 & I2 & C2); [done|].
    set (st2 := Dashboard.demoVerify rej cor (Dashboard.set_loop l1 st1)) in *. clearbody st2.
    destruct (dashboard_fire steps _ st2 H2) as (l2 & E2 & P2).
    rewrite E2. cbn [Dashboard.run_callback].
    destruct (demoHide_stage cor (Dashboard.set_loop l2 st2))
      as (H3 & I3 & C3); [done|].
    set (st3 := Dashboard.demoHide cor (Dashboard.set_loop l2 st2)) in *. clearbody st3.
    destruct (dashboard_fire steps _ st3 H3) as (l3 & E3 & P3).
    rewrite E3. cbn [Dashboard.run_callback].
    destruct (demoCorrect_stage cor (Dashboard.set_loop l3 st3))
      as (H4 & I4 & C4); [done|].
    set (st4 := Dashboard.demoCorrect cor (Dashboard.set_loop l3 st3)) in *. clearbody st4.
    destruct (dashboard_fire steps _ st4 H4) as (l4 & E4 & P4).
    rewrite E4. cbn [Dashboard.run_callback].
    destruct (demoSettle_stage (Dashboard.set_loop l4 st4))
      as (H5 & I5 & C5); [done|].
    set (st5 := Dashboard.demoSettle (Dashboard.set_loop l4 st4)) in *. clearbody st5.
    split_and!; [|done|].
    + unfold contributes. cbn in *. rewrite C5, C4, C3, C2, C1. cbn.
      f_equal. lia.
    + cbn in *. by rewrite I5, I4, I3, I2, I1.
Qed.

(** The same stages in the chat stream component.  The render that
    follows a callback writes the status log and nothing else. *)
Lemma render_form st :
  exists evs,
    ChatStream.render st
    = ChatStream.set_statusEvents evs (ChatStream.set_eventUpdates [] st).
Proof.
  unfold ChatStream.render.
  assert (H0 : exists evs,
    ChatStream.set_eventUpdates [] st
    = ChatStream.set_statusEvents evs (ChatStream.set_eventUpdates [] st))
    by (exists (ChatStream.statusEvents st); by destruct st).
  revert H0. generalize (ChatStream.set_eventUpdates [] st) at 1 3.
  induction (ChatStream.eventUpdates st) as [|[ty tk] us IH]; intros s Hs;
    [done|].
  cbn [foldl]. apply IH. destruct Hs as [evs ->]. by eexists.
Qed.

Lemma chat_fire steps cb st :
  only_timer cb (ChatStream.loop st) ->
  exists l s,
    s = ChatStream.run_callback steps cb (ChatStream.set_loop l st)
    /\ Timers.pending l = []
    /\ ChatStream.counts (ChatStream.step steps ChatStream.EvTimer st)
       = ChatStream.counts s
    /\ ChatStream.stepIdx (ChatStream.step steps ChatStream.EvTimer st)
       = ChatStream.stepIdx s
    /\ ChatStream.loop (ChatStream.step steps ChatStream.EvTimer st)
       = ChatStream.loop s.
Proof.
  intros H. destruct (fire_only_timer cb _ H) as (l & Hf & Hp & _).
  exists l, (ChatStream.run_callback steps cb (ChatStream.set_loop l st)).
  cbn [ChatStream.step]. rewrite Hf.
  destruct (render_form
              (ChatStream.run_callback steps cb (ChatStream.set_loop l st)))
    as [evs ->].
  done.
Qed.

Ltac chat_stage Hp :=
  cbn zeta; split_and!;
  [ unfold only_timer; cbn; rewrite Hp; by eexists _, _
  | reflexivity
  | try reflexivity ].

Lemma processStep_accepted steps tk i st :
  steps !! ChatStream.stepIdx st = Some (KAccepted tk i) ->
  Timers.pending (ChatStream.loop st) = [] ->
  let st' := ChatStream.processStep steps st in
  only_timer ChatStream.CbProcessStep (ChatStream.loop st')
  /\ ChatStream.stepIdx st' = ChatStream.stepIdx st + 1
  /\ contributes (KAccepted tk i) (ChatStream.counts st) (ChatStream.counts st').
Proof.
  intros Hstep Hp. unfold ChatStream.processStep. rewrite Hstep.
  chat_stage Hp. unfold contributes. cbn. by destruct (Token.type tk).
Qed.

Lemma processStep_rejection steps rej cor i j st :
  steps !! ChatStream.stepIdx st = Some (KRejection rej cor i j) ->
  Timers.pending (ChatStream.loop st) = [] ->
  let st' := ChatStream.processStep steps st in
  only_timer (ChatStream.CbVerify rej cor) (ChatStream.loop st')
  /\ ChatStream.stepIdx st' = ChatStream.stepIdx st + 1
  /\ ChatStream.counts st'
     = mkCounts (accepted (ChatStream.counts st)) (rejected (ChatStream.counts st))
                (corrected (ChatStream.counts st))
                (drafted (ChatStream.counts st) + 1).
Proof.
  intros Hstep Hp. unfold ChatStream.processStep. rewrite Hstep.
  chat_stage Hp.
Qed.

Lemma verifyRejected_stage rej cor st :
  Timers.pending (ChatStream.loop st) = [] ->
  let st' := ChatStream.verifyRejected rej cor st in
  only_timer (ChatStream.CbHide cor) (ChatStream.loop st')
  /\ ChatStream.stepIdx st' = ChatStream.stepIdx st
  /\ ChatStream.counts st'
     = mkCounts (accepted (ChatStream.counts st))
                (rejected (ChatStream.counts st) + 1)
                (corrected (ChatStream.counts st))
                (drafted (ChatStream.counts st)).
Proof. intros Hp. unfold ChatStream.verifyRejected. chat_stage Hp. Qed.

Lemma hideRejected_stage cor st :
  Timers.pending (ChatStream.loop st) = [] ->
  let st' := ChatStream.hideRejected cor st in
  only_timer (ChatStream.CbCorrect cor) (ChatStream.loop st')
  /\ ChatStream.stepIdx st' = ChatStream.stepIdx st
  /\ ChatStream.counts st' = ChatStream.counts st.
Proof. intros Hp. unfold ChatStream.hideRejected. chat_stage Hp. Qed.

Lemma showCorrected_stage cor st :
  Timers.pending (ChatStream.loop st) = [] ->
  let st' := ChatStream.showCorrected cor st in
  only_timer ChatStream.CbSettle (ChatStream.loop st')
  /\ ChatStream.stepIdx st' = ChatStream.stepIdx st
  /\ ChatStream.counts st'
     = mkCounts (accepted (ChatStream.counts st)) (rejected (ChatStream.counts st))
                (corrected (ChatStream.counts st) + 1)
                (drafted (ChatStream.counts st) + 1).
Proof. intros Hp. unfold ChatStream.showCorrected. chat_stage Hp. Qed.

Lemma settleCorrected_stage st :
  Timers.pending (ChatStream.loop st) = [] ->
  let st' := ChatStream.settleCorrected st in
  only_timer ChatStream.CbProcessStep (ChatStream.loop st')
  /\ ChatStream.stepIdx st' = ChatStream.stepIdx st
  /\ ChatStream.counts st' = ChatStream.counts st.
Proof. intros Hp. unfold ChatStream.settleCorrected. chat_stage Hp. Qed.

Lemma chat_step_contribution steps step st :
  steps !! ChatStream.stepIdx st = Some step ->
  only_timer ChatStream.CbProcessStep (ChatStream.loop st) ->
  let st' := ChatStream.run steps (replicate (firings step) ChatStream.EvTimer) st in
  contributes step (ChatStream.counts st) (ChatStream.counts st')
  /\ only_timer ChatStream.CbProcessStep (ChatStream.loop st')
  /\ ChatStream.stepIdx st' = ChatStream.stepIdx st + 1.
Proof.
  intros Hstep H0. cbn zeta.
  destruct (chat_fire steps _ st H0) as (l0 & ? & -> & P0 & Ec0 & Ei0 & El0).
  cbn [ChatStream.run_callback] in *.
  destruct step as [tk i|rej cor i j]; cbn [firings replicate ChatStream.run foldl].
  - destruct (processStep_accepted steps tk i (ChatStream.set_loop l0 st))
      as (H1 & I1 & C1); [done | done |].
    rewrite Ec0, Ei0, El0. split_and!; done.
  - destruct (processStep_rejection steps rej cor i j (ChatStream.set_loop l0 st))
      as (H1 & I1 & C1); [done | done |].
    rewrite <- Ec0 in C1. rewrite <- Ei0 in I1. rewrite <- El0 in H1.
    clear Ec0 Ei0 El0.
    set (st1 := ChatStream.step steps ChatStream.EvTimer st) in *. clearbody st1.
    destruct (chat_fire steps _ st1 H1) as (l1 & ? & -> & P1 & Ec1 & Ei1 & El1).
    destruct (verifyRejected_stage rej cor (ChatStream.set_loop l1 st1))
      as (H2 & I2 & C2); [done|].
    cbn [ChatStream.run_callback] in *.
    rewrite <- Ec1 in C2. rewrite <- Ei1 in I2. rewrite <- El1 in H2.
    clear Ec1 Ei1 El1.
    set (st2 := ChatStream.step steps ChatStream.EvTimer st1) in *. clearbody st2.
    destruct (chat_fire steps _ st2 H2) as (l2 & ? & -> & P2 & Ec2 & Ei2 & El2).
    destruct (hideRejected_stage cor (ChatStream.set_loop l2 st2))
      as (H3 & I3 & C3); [done|].
    cbn [ChatStream.run_callback] in *.
    rewrite <- Ec2 in C3. rewrite <- Ei2 in I3. rewrite <- El2 in H3.
    clear Ec2 Ei2 El2.
    set (st3 := ChatStream.step steps ChatStream.EvTimer st2) in *. clearbody st3.
    destruct (chat_fire steps _ st3 H3) as (l3 & ? & -> & P3 & Ec3 & Ei3 & El3).
    destruct (showCorrected_stage cor (ChatStream.set_loop l3 st3))
      as (H4 & I4 & C4); [done|].
    cbn [ChatStream.run_callback] in *.
    rewrite <- Ec3 in C4. rewrite <- Ei3 in I4. rewrite <- El3 in H4.
    clear Ec3 Ei3 El3.
    set (st4 := ChatStream.step steps ChatStream.EvTimer st3) in *. clearbody st4.
    destruct (chat_fire steps _ st4 H4) as (l4 & ? & -> & P4 & Ec4 & Ei4 & El4).
    destruct (settleCorrected_stage (ChatStream.set_loop l4 st4))
      as (H5 & I5 & C5); [done|].
    cbn [ChatStream.run_callback] in *.
    rewrite <- Ec4 in C5. rewrite <- Ei4 in I5. rewrite <- El4 in H5.
    clear Ec4 Ei4 El4.
    set (st5 := ChatStream.step steps ChatStream.EvTimer st4) in *. clearbody st5.
    split_and!; [|done|].
    + unfold contributes. cbn in *. rewrite C5, C4, C3, C2, C1. cbn.
      f_equal. lia.
    + cbn in *. by rewrite I5, I4, I3, I2, I1.
Qed.

(** C2, as the code has it.  When the demo scheduler is about to process
    a step (its timer is the only one pending), firing the timers of that
    step -- five for a rejection step, one for an accepted step -- adds
    exactly 2 to drafted, 1 to rejected and 1 to corrected for a rejection
    step, and for an accepted step exactly 1 to drafted plus 1 to accepted
    when the wrapped token is tagged accepted, 1 to corrected when it is
    tagged corrected, and nothing more when it is tagged rejected.  The
    scheduler is then about to process the next step.  This holds in the
    dashboard and in the chat stream component. *)
Theorem step_count_contributions (steps : list AnimStep) (step : AnimStep)
    (dash : Dashboard.State) (chat : ChatStream.State) :
  steps !! Dashboard.stepIdx dash = Some step ->
  only_timer Dashboard.CbProcessDemoStep (Dashboard.loop dash) ->
  steps !! ChatStream.stepIdx chat = Some step ->
  only_timer ChatStream.CbProcessStep (ChatStream.loop chat) ->
  let dash' :=
    Dashboard.run steps (replicate (firings step) Dashboard.EvTimer) dash in
  let chat' :=
    ChatStream.run steps (replicate (firings step) ChatStream.EvTimer) chat in
  (contributes step (Dashboard.counts dash) (Dashboard.counts dash')
   /\ only_timer Dashboard.CbProcessDemoStep (Dashboard.loop dash')
   /\ Dashboard.stepIdx dash' = Dashboard.stepIdx dash + 1)
  /\ (contributes step (ChatStream.counts chat) (ChatStream.counts chat')
      /\ only_timer ChatStream.CbProcessStep (ChatStream.loop chat')
      /\ ChatStream.stepIdx chat' = ChatStream.stepIdx chat + 1).
Proof.
  intros Hd Hdt Hc Hct. split.
  - by apply dashboard_step_contribution.
  - by apply chat_step_contribution.
Qed.

Lemma step_count_contributions_witness :
  let steps := buildSteps [tok " the early" TRejected; tok " 1905" TCorrected] in
  let step :=
    KRejection (tok " the early" TRejected) (tok " 1905" TCorrected) 0 1 in
  let dash := Dashboard.healthResolved false Dashboard.init in
  let chat := ChatStream.mount ChatStream.init in
  let dash' := Dashboard.run steps (replicate 5 Dashboard.EvTimer) dash in
  let chat' := ChatStream.run steps (replicate 5 ChatStream.EvTimer) chat in
  steps !! Dashboard.stepIdx dash = Some step
  /\ only_timer Dashboard.CbProcessDemoStep (Dashboard.loop dash)
  /\ steps !! ChatStream.stepIdx chat = Some step
  /\ only_timer ChatStream.CbProcessStep (ChatStream.loop chat)
  /\ (contributes step (Dashboard.counts dash) (Dashboard.counts dash')
      /\ only_timer Dashboard.CbProcessDemoStep (Dashboard.loop dash')
      /\ Dashboard.stepIdx dash' = Dashboard.stepIdx dash + 1)
  /\ (contributes step (ChatStream.counts chat) (ChatStream.counts chat')
      /\ only_timer ChatStream.CbProcessStep (ChatStream.loop chat')
      /\ ChatStream.stepIdx chat' = ChatStream.stepIdx chat + 1).
Proof.
  cbn zeta.
  assert (H1 : buildSteps [tok " the early" TRejected; tok " 1905" TCorrected]
               !! Dashboard.stepIdx (Dashboard.healthResolved false Dashboard.init)
               = Some (KRejection (tok " the early" TRejected)
                                  (tok " 1905" TCorrected) 0 1))
    by reflexivity.
  assert (H2 : only_timer Dashboard.CbProcessDemoStep
                 (Dashboard.loop (Dashboard.healthResolved false Dashboard.init)))
    by (exists 1, 800; reflexivity).
  assert (H3 : buildSteps [tok " the early" TRejected; tok " 1905" TCorrected]
               !! ChatStream.stepIdx (ChatStream.mount ChatStream.init)
               = Some (KRejection (tok " the early" TRejected)
                                  (tok " 1905" TCorrected) 0 1))
    by reflexivity.
  assert (H4 : only_timer ChatStream.CbProcessStep
                 (ChatStream.loop (ChatStream.mount ChatStream.init)))
    by (exists 1, 800; reflexivity).
  split; [exact H1|]. split; [exact H2|]. split; [exact H3|]. split; [exact H4|].
  exact (step_count_contributions _ _ _ _ H1 H2 H3 H4).
Defined.

(** C2 as stated fails for an accepted step that wraps a token tagged
    rejected (the segmenter emits one for a lone rejected token):
    processing it adds 1 to drafted and nothing to accepted or corrected. *)
Lemma accepted_step_of_rejected_token_counts :
  let steps := buildSteps [tok " mass" TRejected] in
  let dash := Dashboard.healthResolved false Dashboard.init in
  let dash' := Dashboard.run steps [Dashboard.EvTimer] dash in
  let chat := ChatStream.mount ChatStream.init in
  let chat' := ChatStream.run steps [ChatStream.EvTimer] chat in
  steps = [KAccepted (tok " mass" TRejected) 0]
  /\ Dashboard.counts dash = mkCounts 0 0 0 0
  /\ Dashboard.counts dash' = mkCounts 0 0 0 1
  /\ ChatStream.counts chat = mkCounts 0 0 0 0
  /\ ChatStream.counts chat' = mkCounts 0 0 0 1
  /\ accepted (Dashboard.counts dash') + corrected (Dashboard.counts dash')
     <> accepted (Dashboard.counts dash) + corrected (Dashboard.counts dash) + 1.
Proof. vm_compute. split_and!; try reflexivity. lia. Qed.

(** ** Re-submission while callbacks of the previous run are pending *)

(** C3 on the code.  After the second submission the state is seeded
    afresh, the cleanup of the first transport has been invoked once and
    the second run has received nothing; but the timer of the first run is
    still pending ([timeoutRef] never held it), and when it fires it writes
    the first run's queued token into the visible tokens, the counts, the
    phase and the word buffer of the second run. *)
Theorem resubmit_leaves_old_timer :
  let st := Dashboard.run [] resubmit_trace Dashboard.init in
  let st' := Dashboard.step [] Dashboard.EvTimer st in
  (Dashboard.prompt st = "second"%string
   /\ Dashboard.counts st = no_counts
   /\ Dashboard.visibleTokens st = []
   /\ Dashboard.phase st = idle /\ Dashboard.done st = false
   /\ Dashboard.packetWordBuffer st = Dashboard.mkBuffer 0 0
   /\ Dashboard.cleanupCalls st = [0]
   /\ Dashboard.runs st !! 1 = Some (Dashboard.mkRun [] false))
  /\ Dashboard.timeoutRef st = None
  /\ Timers.callback <$> Timers.pending (Dashboard.loop st)
     = [Dashboard.CbProcessTokenQueue 0]
  /\ (Dashboard.counts st' = mkCounts 1 0 0 1
      /\ Dashboard.visibleTokens st' = [mkVisible " b" TAccepted settled]
      /\ Dashboard.phase st' = drafting
      /\ Dashboard.packetWordBuffer st' = Dashboard.mkBuffer 1 1
      /\ Dashboard.runs st' !! 1 = Some (Dashboard.mkRun [] false)).
Proof. vm_compute. split_and!; reflexivity. Qed.

(** C4 on the code.  The second run completes ([phase = complete],
    [done = true], its queue empty and idle); the callbacks of the first
    run then keep firing, and the second of them renders the first run's
    queued token: phase, visible tokens and counts advance with no submit
    in between. *)
Theorem complete_run_advanced_by_old_queue :
  let st := Dashboard.run [] overlap_trace Dashboard.init in
  let st' := Dashboard.run [] (replicate 2 Dashboard.EvTimer) st in
  (Dashboard.phase st = complete /\ Dashboard.done st = true
   /\ Dashboard.isStreaming st = false
   /\ Dashboard.runs st !! 1 = Some (Dashboard.mkRun [] false)
   /\ Dashboard.visibleTokens st = [mkVisible "z" TAccepted settled]
   /\ Dashboard.counts st = mkCounts 1 0 0 1)
  /\ Timers.callback <$> Timers.pending (Dashboard.loop st)
     = [Dashboard.CbLiveHide 0]
  /\ (Dashboard.phase st' = drafting /\ Dashboard.done st' = true
      /\ Dashboard.visibleTokens st'
         = [mkVisible "z" TAccepted settled; mkVisible " y" TAccepted settled]
      /\ Dashboard.counts st' = mkCounts 2 0 0 2).
Proof. vm_compute. split_and!; reflexivity. Qed.

(** ** Quiescence of a complete run when runs do not overlap *)

Lemma earliest_elem {C} (ts : list (Timers.Timer C)) t :
  Timers.earliest ts = Some t -> t ∈ ts.
Proof.
  revert t. induction ts as [|u ts IH]; intros t; [done|].
  cbn [Timers.earliest].
  destruct (Timers.earliest ts) as [v|] eqn:E.
  - destruct (Timers.due v <? Timers.due u); intros [= <-].
    + apply list_elem_of_further. by apply IH.
    + apply list_elem_of_here.
  - intros [= <-]. apply list_elem_of_here.
Qed.

Lemma fire_elem {C} (l l' : Timers.Loop C) cb :
  Timers.fire l = Some (cb, l') ->
  exists t, t ∈ Timers.pending l /\ cb = Timers.callback t
            /\ Timers.pending l'
               = filter (fun u => Timers.timer_id u <> Timers.timer_id t)
                        (Timers.pending l).
Proof.
  unfold Timers.fire. destruct (Timers.earliest (Timers.pending l)) as [t|] eqn:E;
    [|done].
  intros [= <- <-]. exists t. split_and!; [by apply earliest_elem | done | done].
Qed.

Lemma fire_none {C} (l : Timers.Loop C) :
  Timers.pending l = [] -> Timers.fire l = None.
Proof. unfold Timers.fire. by intros ->. Qed.

Lemma chain_timers_filter P `{forall t, Decision (P t)} ts :
  chain_timers (filter P ts) = filter P (chain_timers ts).
Proof.
  unfold chain_timers. induction ts as [|t ts IH]; [done|].
  rewrite !filter_cons.
  destruct (decide (P t)), (decide (chain_cb (Timers.callback t) = true));
    rewrite ?filter_cons; repeat case_decide; try done; by rewrite IH.
Qed.

Lemma chain_timers_snoc ts t :
  chain_timers (ts ++ [t])
  = chain_timers ts ++ (if chain_cb (Timers.callback t) then [t] else []).
Proof.
  unfold chain_timers. rewrite filter_app. f_equal.
  rewrite filter_cons, filter_nil.
  destruct (chain_cb (Timers.callback t)); by case_decide.
Qed.

Ltac emit_norm :=
  repeat match goal with
    | |- context [Dashboard.emitPacketForWords ?l ?c ?t ?s] =>
        let E := fresh "E" in
        destruct (emitPacketForWords_form l c t s) as (? & ? & ? & E);
        rewrite E; clear E
    end.

Lemma same_render_refl st : same_render st st.
Proof. unfold same_render. by destruct st. Qed.

Lemma same_render_trans st1 st2 st3 :
  same_render st1 st2 -> same_render st2 st3 -> same_render st1 st3.
Proof.
  unfold same_render. intros H12 H23. rewrite <- H12 at 2. rewrite <- H23.
  by destruct st3.
Qed.

Lemma chain_timers_one t ts :
  t ∈ ts -> chain_cb (Timers.callback t) = true ->
  length (chain_timers ts) <= 1 ->
  chain_timers
    (filter (fun u => Timers.timer_id u <> Timers.timer_id t) ts) = [].
Proof.
  intros Hin Hc Hlen. rewrite chain_timers_filter.
  assert (Ht : t ∈ chain_timers ts)
    by (unfold chain_timers; by apply list_elem_of_filter).
  destruct (chain_timers ts) as [|u [|v us]]; cbn in Hlen; try lia.
  - by apply elem_of_nil in Ht.
  - apply list_elem_of_singleton in Ht as ->.
    rewrite filter_cons. by case_decide.
Qed.

(** [processTokenQueue] re-establishes the invariant of the live run from
    a state in which no chain timer is pending. *)
Lemma processTokenQueue_inv r st run :
  Dashboard.cleanupRef st = Some r ->
  Dashboard.runs st !! r = Some run ->
  Forall (fun t => cb_run (Timers.callback t) = Some r)
         (Timers.pending (Dashboard.loop st)) ->
  chain_timers (Timers.pending (Dashboard.loop st)) = [] ->
  (Dashboard.phase st = complete ->
   Dashboard.done st = true /\ Dashboard.isStreaming st = false) ->
  live_inv r (Dashboard.processTokenQueue r st).
Proof.
  intros Hc Hrun Hall Hchain Hphase.
  pose proof (lookup_lt_Some _ _ _ Hrun) as Hlt.
  unfold Dashboard.processTokenQueue. rewrite Hrun.
  destruct (Dashboard.tokenQueue run) as [|token rest].
  - split; [done|]. exists (Dashboard.mkRun [] false). cbn.
    split_and!; try done.
    + by apply list_lookup_insert_eq.
    + rewrite Hchain. cbn. lia.
    + intros Hp. by destruct (Hphase Hp).
  - destruct (te_type token); cbn zeta; emit_norm;
      (split; [done|]); exists (Dashboard.mkRun rest true); cbn;
      (split_and!;
       [ by apply list_lookup_insert_eq
       | apply Forall_app; split; [done | by repeat constructor]
       | rewrite chain_timers_snoc, Hchain; cbn; lia
       | done
       | done ]).
Qed.

Lemma Forall_filter_keep {A} (P Q : A -> Prop) `{forall x, Decision (Q x)} l :
  Forall P l -> Forall P (filter Q l).
Proof.
  rewrite !Forall_forall. intros HP x Hx.
  apply list_elem_of_filter in Hx as [_ Hx]. by apply HP.
Qed.

Lemma live_inv_timer steps r st :
  live_inv r st -> live_inv r (Dashboard.step steps Dashboard.EvTimer st).
Proof.
  intros Hinv. pose proof Hinv as (Hc & run & Hrun & Hall & Hlen & Hidle & Hphase).
  cbn [Dashboard.step].
  destruct (Timers.fire (Dashboard.loop st)) as [[cb l]|] eqn:Hf; [|done].
  destruct (fire_elem _ _ _ Hf) as (t & Hin & -> & Hp).
  assert (Hr : cb_run (Timers.callback t) = Some r)
    by (rewrite Forall_forall in Hall; by apply Hall).
  assert (Hall' : Forall (fun t => cb_run (Timers.callback t) = Some r)
                         (Timers.pending l))
    by (rewrite Hp; by apply Forall_filter_keep).
  destruct (chain_cb (Timers.callback t)) eqn:Hchain.
  - (* a closure of the token chain: it was the only one *)
    assert (Hnone : chain_timers (Timers.pending l) = [])
      by (rewrite Hp; by apply chain_timers_one).
    assert (Hproc : Dashboard.processing run = true).
    { destruct (Dashboard.processing run) eqn:E; [done|].
      destruct (Hidle eq_refl) as [_ Hno].
      assert (Ht : t ∈ chain_timers (Timers.pending (Dashboard.loop st)))
        by (unfold chain_timers; by apply list_elem_of_filter).
      rewrite Hno in Ht. by apply elem_of_nil in Ht. }
    assert (Hnc : Dashboard.phase st <> complete).
    { intros Hp'. destruct (Hphase Hp') as [Hfalse _]. congruence. }
    destruct (Timers.callback t) as [| | | | |r'|r'|r'|r'|r'|r'];
      try discriminate Hchain; injection Hr as ->; cbn [Dashboard.run_callback].
    + apply (processTokenQueue_inv r _ run); try done.
    + split; [done|]. exists run. cbn. split_and!; try done.
      * apply Forall_app; split; [done | by repeat constructor].
      * rewrite chain_timers_snoc, Hnone. cbn. lia.
      * intros E. congruence.
    + split; [done|]. exists run. cbn. split_and!; try done.
      * apply Forall_app; split; [done | by repeat constructor].
      * rewrite chain_timers_snoc, Hnone. cbn. lia.
      * intros E. congruence.
    + unfold Dashboard.liveFilter.
      apply (processTokenQueue_inv r _ run); try done.
    + split; [done|]. exists run. cbn. split_and!; try done.
      * apply Forall_app; split; [done | by repeat constructor].
      * rewrite chain_timers_snoc, Hnone. cbn. lia.
      * intros E. congruence.
  - (* the poll of a done message *)
    assert (Hlen' : length (chain_timers (Timers.pending l)) <= 1).
    { rewrite Hp, chain_timers_filter.
      etrans; [apply length_filter | done]. }
    assert (Hidle' : Dashboard.processing run = false ->
                     Dashboard.tokenQueue run = []
                     /\ chain_timers (Timers.pending l) = []).
    { intros E. destruct (Hidle E) as [Hq Hno]. split; [done|].
      by rewrite Hp, chain_timers_filter, Hno. }
    destruct (Timers.callback t) as [| | | | |r'|r'|r'|r'|r'|r'];
      try discriminate Hchain; try discriminate Hr; injection Hr as ->.
    cbn [Dashboard.run_callback]. unfold Dashboard.checkDone. cbn.
    rewrite Hrun.
    destruct (bool_decide (Dashboard.tokenQueue run = [])
              && negb (Dashboard.processing run)) eqn:Hdone.
    + apply andb_prop in Hdone as [_ Hnp]. apply negb_true_iff in Hnp.
      split; [done|]. exists run. cbn. split_and!; done.
    + split; [done|]. exists run. cbn. split_and!; try done.
      * apply Forall_app; split; [done | by repeat constructor].
      * rewrite chain_timers_snoc. cbn. by rewrite app_nil_r.
      * intros E. destruct (Hidle' E) as [Hq Hno]. split; [done|].
        rewrite chain_timers_snoc. cbn. by rewrite app_nil_r.
Qed.

Lemma checkDone_inv r st :
  live_inv r st -> live_inv r (Dashboard.checkDone r st).
Proof.
  intros (Hc & run & Hrun & Hall & Hlen & Hidle & Hphase).
  unfold Dashboard.checkDone. rewrite Hrun.
  destruct (bool_decide (Dashboard.tokenQueue run = [])
            && negb (Dashboard.processing run)) eqn:Hdone.
  - apply andb_prop in Hdone as [_ Hnp]. apply negb_true_iff in Hnp.
    split; [done|]. exists run. cbn. split_and!; done.
  - split; [done|]. exists run. cbn. split_and!; try done.
    + apply Forall_app; split; [done | by repeat constructor].
    + rewrite chain_timers_snoc. cbn. by rewrite app_nil_r.
    + intros E. destruct (Hidle E) as [Hq Hno]. split; [done|].
      rewrite chain_timers_snoc. cbn. by rewrite app_nil_r.
Qed.

Lemma live_inv_message r msg st :
  live_inv r st -> live_inv r (Dashboard.onMessage r msg st).
Proof.
  intros Hinv. pose proof Hinv as (Hc & run & Hrun & Hall & Hlen & Hidle & Hphase).
  pose proof (lookup_lt_Some _ _ _ Hrun) as Hlt.
  destruct msg as [data|data|data|message]; cbn [Dashboard.onMessage].
  - set (st1 := if bool_decide (te_type data = TAccepted) then _ else st).
    set (st2 := if bool_decide (te_type data = TAccepted)
                   || bool_decide (te_type data = TCorrected) then _ else st1).
    assert (E : Dashboard.set_generatedOutputTokens
                  (Dashboard.generatedOutputTokens st)
                  (Dashboard.set_acceptedDraftTokens
                     (Dashboard.acceptedDraftTokens st)
                     (Dashboard.set_totalInferenceTimeSavedMs
                        (Dashboard.totalInferenceTimeSavedMs st)
                        (Dashboard.set_costSavingsDollars
                           (Dashboard.costSavingsDollars st) st2))) = st).
    { subst st2 st1. destruct st.
      by destruct (bool_decide (te_type data = TAccepted)),
                  (bool_decide (te_type data = TCorrected)). }
    assert (Hruns : Dashboard.runs st2 = Dashboard.runs st)
      by (by rewrite <- E).
    assert (Hloop : Dashboard.loop st2 = Dashboard.loop st)
      by (by rewrite <- E).
    assert (Hcl : Dashboard.cleanupRef st2 = Dashboard.cleanupRef st)
      by (by rewrite <- E).
    assert (Hph : Dashboard.phase st2 = Dashboard.phase st)
      by (by rewrite <- E).
    assert (Hdn : Dashboard.done st2 = Dashboard.done st)
      by (by rewrite <- E).
    assert (His : Dashboard.isStreaming st2 = Dashboard.isStreaming st)
      by (by rewrite <- E).
    clearbody st2. clear E st1.
    rewrite Hruns, Hrun.
    destruct (Dashboard.processing run) eqn:Hproc.
    + split; [by rewrite <- Hc|].
      exists (Dashboard.mkRun (Dashboard.tokenQueue run ++ [data]) true). cbn.
      rewrite Hruns, Hloop, Hph. split_and!; try done.
      * by apply list_lookup_insert_eq.
      * intros E. destruct (Hphase E) as [? _]. congruence.
    + destruct (Hidle eq_refl) as [Hq Hno]. rewrite Hq. cbn [app].
      apply (processTokenQueue_inv r _ (Dashboard.mkRun [data] false)); cbn.
      * by rewrite Hcl.
      * rewrite Hruns. by apply list_lookup_insert_eq.
      * by rewrite Hloop.
      * by rewrite Hloop.
      * rewrite Hph, Hdn, His. intros E. by destruct (Hphase E) as (_ & ? & ?).
  - split; [done|]. exists run. cbn. split_and!; done.
  - apply checkDone_inv. split; [done|]. exists run. cbn. split_and!; done.
  - split; [done|]. exists run. cbn. split_and!; done.
Qed.

Lemma handleSubmit_fields userPrompt st :
  let st' := Dashboard.handleSubmit userPrompt st in
  Dashboard.cleanupRef st' = Some (length (Dashboard.runs st))
  /\ Dashboard.runs st' = Dashboard.runs st ++ [Dashboard.mkRun [] false]
  /\ Timers.pending (Dashboard.loop st')
     = Timers.pending (Dashboard.loop (Dashboard.clear_timeoutRef st))
  /\ Dashboard.phase st' = idle.
Proof.
  destruct st as [? ? ? ? ? ? ? ? ? ? ? ? ? ? ? ? ? [tid|] [r0|] ? ? ? ?];
    by lazy -[app length filter].
Qed.

Lemma live_inv_submit userPrompt st :
  Timers.pending (Dashboard.loop (Dashboard.clear_timeoutRef st)) = [] ->
  live_inv (length (Dashboard.runs st)) (Dashboard.handleSubmit userPrompt st).
Proof.
  intros Hp.
  destruct (handleSubmit_fields userPrompt st) as (Hc & Hruns & Hpend & Hphase).
  rewrite Hp in Hpend.
  split; [done|]. exists (Dashboard.mkRun [] false).
  rewrite Hruns, Hpend, Hphase. split_and!; try done.
  - by rewrite lookup_app_r, Nat.sub_diag.
  - cbn. lia.
Qed.

Lemma live_inv_step steps ev r st :
  live_inv r st -> orderly_event ev st ->
  engine_inv (Dashboard.step steps ev st).
Proof.
  intros Hinv Hev. pose proof Hinv as (Hc & run & Hrun & Hall & Hlen & Hidle & Hphase).
  pose proof (lookup_lt_Some _ _ _ Hrun) as Hlt.
  destruct ev as [online|ms| |userPrompt|r' msg|r'|r'|pid]; cbn in Hev.
  - destruct Hev as [_ Hruns]. rewrite Hruns in Hrun. done.
  - right. exists r. split; [done|]. exists run. by cbn.
  - right. exists r. by apply live_inv_timer.
  - right. eexists. by apply live_inv_submit.
  - assert (r' = r) as -> by congruence. right. exists r.
    cbn [Dashboard.step]. destruct (Nat.ltb_spec r (length (Dashboard.runs st)));
      [|lia].
    by apply live_inv_message.
  - assert (r' = r) as -> by congruence. right. exists r.
    cbn [Dashboard.step]. destruct (Nat.ltb_spec r (length (Dashboard.runs st)));
      [|lia].
    split; [done|]. exists run. cbn. split_and!; done.
  - assert (r' = r) as -> by congruence. right. exists r.
    cbn [Dashboard.step]. destruct (Nat.ltb_spec r (length (Dashboard.runs st)));
      [|lia].
    split; [done|]. exists run. cbn. split_and!; try done.
    intros E. by destruct (Hphase E) as (? & ? & _).
  - right. exists r. split; [done|]. exists run. by cbn.
Qed.

Lemma demo_inv_frame st st' :
  Dashboard.runs st' = Dashboard.runs st ->
  Dashboard.cleanupRef st' = Dashboard.cleanupRef st ->
  Dashboard.backendOnline st' = Dashboard.backendOnline st ->
  Timers.pending (Dashboard.loop st') = Timers.pending (Dashboard.loop st) ->
  Dashboard.timeoutRef st' = Dashboard.timeoutRef st ->
  Dashboard.phase st' = Dashboard.phase st ->
  Dashboard.done st' = Dashboard.done st ->
  demo_inv st -> demo_inv st'.
Proof. unfold demo_inv. by intros -> -> -> -> -> -> ->. Qed.

(** A demo callback that ends by scheduling its successor through
    [timeoutRef], in a phase other than complete. *)
Lemma demo_inv_scheduled st st' cb delay :
  Dashboard.runs st' = [] -> Dashboard.cleanupRef st' = None ->
  Dashboard.backendOnline st' <> None ->
  Timers.pending (Dashboard.loop st') = [] ->
  cb_run cb = None ->
  Dashboard.phase st' <> complete ->
  st = Dashboard.setTimeout_ref cb delay st' ->
  demo_inv st.
Proof.
  intros Hruns Hc Hb Hp Hcb Hphase ->. unfold demo_inv. cbn. rewrite Hp.
  split_and!; try done.
  right. eexists. split_and!; done.
Qed.

Lemma demo_inv_timer steps st :
  demo_inv st -> demo_inv (Dashboard.step steps Dashboard.EvTimer st).
Proof.
  intros Hinv. pose proof Hinv as (Hruns & Hc & Hb & Hp & Hphase).
  cbn [Dashboard.step].
  destruct (Timers.fire (Dashboard.loop st)) as [[cb l]|] eqn:Hf; [|done].
  destruct (fire_elem _ _ _ Hf) as (t & Hin & -> & Hl).
  destruct Hp as [Hp|(t' & Hp & Hcb & Href)];
    [rewrite Hp in Hin; by apply elem_of_nil in Hin|].
  rewrite Hp in Hin. apply list_elem_of_singleton in Hin as ->.
  rewrite Hp in Hl. rewrite filter_cons, filter_nil in Hl.
  destruct (decide (Timers.timer_id t' <> Timers.timer_id t')) as [?|_];
    [done|].
  assert (Hon : Dashboard.backendOnline st <> None).
  { intros E. destruct (Hb E) as [E' _]. by rewrite Hp in E'. }
  assert (Hnc : Dashboard.phase st <> complete).
  { intros E. destruct (Hphase E) as [E' _]. by rewrite Hp in E'. }
  destruct (Timers.callback t') as [|rej cor|cor|cor| |r'|r'|r'|r'|r'|r'];
    try discriminate Hcb; cbn [Dashboard.run_callback].
  - unfold Dashboard.processDemoStep. cbn [Dashboard.stepIdx Dashboard.set_loop].
    destruct (steps !! Dashboard.stepIdx st) as [[tk i|rej cor i j]|].
    + eapply demo_inv_scheduled; [ | | | | | |reflexivity];
        emit_norm; cbn; auto; done.
    + eapply demo_inv_scheduled; [ | | | | | |reflexivity];
        emit_norm; cbn; auto; done.
    + unfold demo_inv. cbn. rewrite Hl. split_and!; try done. by left.
  - eapply demo_inv_scheduled; [ | | | | | |reflexivity];
      emit_norm; cbn; auto; done.
  - eapply demo_inv_scheduled; [ | | | | | |reflexivity]; cbn; auto; done.
  - eapply demo_inv_scheduled; [ | | | | | |reflexivity];
      emit_norm; cbn; auto; done.
  - eapply demo_inv_scheduled; [ | | | | | |reflexivity]; cbn; auto; done.
Qed.

Lemma demo_inv_step steps ev st :
  demo_inv st -> orderly_event ev st ->
  engine_inv (Dashboard.step steps ev st).
Proof.
  intros Hinv Hev. pose proof Hinv as (Hruns & Hc & Hb & Hp & Hphase).
  destruct ev as [online|ms| |userPrompt|r' msg|r'|r'|pid]; cbn in Hev.
  - left. destruct Hev as [Hnone _]. destruct (Hb Hnone) as [Hpend Hidle].
    cbn [Dashboard.step]. unfold Dashboard.healthResolved, Dashboard.clear_timeoutRef.
    cbn [Dashboard.timeoutRef Dashboard.set_backendOnline].
    assert (Hclear : forall tid,
              Timers.pending
                (Dashboard.loop
                   (Dashboard.clearTimeout tid
                      (Dashboard.set_backendOnline (Some online) st))) = [])
      by (intros tid; cbn; by rewrite Hpend).
    destruct online.
    + destruct (Dashboard.timeoutRef st) as [tid|]; unfold demo_inv; cbn;
        rewrite ?Hpend; cbn; split_and!; try done; try (by left);
        intros E; congruence.
    + destruct (Dashboard.timeoutRef st) as [tid|];
        (eapply demo_inv_scheduled; [ | | | | | |reflexivity]); cbn;
          rewrite ?Hpend; auto; try done; congruence.
  - left. by apply (demo_inv_frame st).
  - left. by apply demo_inv_timer.
  - right. eexists. by apply live_inv_submit.
  - congruence.
  - congruence.
  - congruence.
  - left. by apply (demo_inv_frame st).
Qed.

Lemma engine_inv_init : engine_inv Dashboard.init.
Proof. left. unfold demo_inv. cbn. split_and!; try done. by left. Qed.

Lemma engine_inv_step steps ev st :
  engine_inv st -> orderly_event ev st ->
  engine_inv (Dashboard.step steps ev st).
Proof.
  intros [Hd|[r Hl]] Hev; [by apply demo_inv_step | by apply (live_inv_step _ _ r)].
Qed.

Lemma engine_inv_run steps evs : forall st,
  engine_inv st -> orderly steps evs st ->
  engine_inv (Dashboard.run steps evs st).
Proof.
  induction evs as [|ev evs IH]; intros st Hinv Hord; [done|].
  destruct Hord as [Hev Hord]. cbn. apply IH; [|done].
  by apply engine_inv_step.
Qed.

(** Once complete, a timer firing changes nothing but the timer table. *)
Lemma complete_timer_quiet steps st :
  engine_inv st ->
  Dashboard.phase st = complete -> Dashboard.done st = true ->
  same_render st (Dashboard.step steps Dashboard.EvTimer st).
Proof.
  intros Hinv Hcomplete Hdone. cbn [Dashboard.step].
  destruct (Timers.fire (Dashboard.loop st)) as [[cb l]|] eqn:Hf;
    [|apply same_render_refl].
  destruct (fire_elem _ _ _ Hf) as (t & Hin & -> & Hl).
  destruct Hinv as [(_ & _ & _ & _ & Hphase)
                   |(r & Hc & run & Hrun & Hall & Hlen & Hidle & Hphase)].
  - destruct (Hphase Hcomplete) as [Hp _]. rewrite Hp in Hin.
    by apply elem_of_nil in Hin.
  - destruct (Hphase Hcomplete) as (Hproc & _ & Hstream).
    destruct (Hidle Hproc) as [Hq Hno].
    assert (Hr : cb_run (Timers.callback t) = Some r)
      by (rewrite Forall_forall in Hall; by apply Hall).
    assert (Hnc : chain_cb (Timers.callback t) = false).
    { destruct (chain_cb (Timers.callback t)) eqn:E; [|done].
      assert (Ht : t ∈ chain_timers (Timers.pending (Dashboard.loop st)))
        by (unfold chain_timers; by apply list_elem_of_filter).
      rewrite Hno in Ht. by apply elem_of_nil in Ht. }
    destruct (Timers.callback t) as [| | | | |r'|r'|r'|r'|r'|r'];
      try discriminate Hnc; try discriminate Hr; injection Hr as ->.
    cbn [Dashboard.run_callback]. unfold Dashboard.checkDone. cbn.
    rewrite Hrun, Hq, Hproc. cbn. unfold same_render.
    destruct st. cbn in *. by subst.
Qed.

Lemma same_render_fields st st' :
  same_render st st' ->
  Dashboard.phase st' = Dashboard.phase st
  /\ Dashboard.done st' = Dashboard.done st.
Proof. unfold same_render. intros <-. by destruct st'. Qed.

Lemma complete_quiet steps evs : forall st,
  engine_inv st ->
  Dashboard.phase st = complete -> Dashboard.done st = true ->
  Forall passes_time evs ->
  same_render st (Dashboard.run steps evs st).
Proof.
  induction evs as [|ev evs IH]; intros st Hinv Hc Hd Hevs;
    [apply same_render_refl|].
  inversion Hevs as [|? ? Hev Hevs']; subst. cbn [Dashboard.run foldl].
  assert (Hstep : same_render st (Dashboard.step steps ev st)).
  { destruct ev; try done.
    - unfold same_render. by destruct st.
    - by apply complete_timer_quiet. }
  destruct (same_render_fields _ _ Hstep) as [Hc' Hd'].
  eapply same_render_trans; [exact Hstep|].
  apply IH; [ | congruence | congruence | done].
  apply engine_inv_step; [done | by destruct ev].
Qed.

(** X1, the complement of C4.  In a session in which no submission leaves
    a callback of the run before it pending (and the health probe answers
    once, before any submission), a run that has reached [phase = complete]
    with [done = true] is quiet: whatever timers fire afterwards and
    however much time passes, every cell of the state except the timer
    table keeps its value -- phase, done, visible tokens, counts, packets,
    metrics, queues. *)
Theorem complete_run_is_quiet (steps : list AnimStep)
    (evs later : list Dashboard.Event) :
  orderly steps evs Dashboard.init ->
  Forall passes_time later ->
  let st := Dashboard.run steps evs Dashboard.init in
  Dashboard.phase st = complete -> Dashboard.done st = true ->
  same_render st (Dashboard.run steps later st).
Proof.
  intros Hord Hlater st Hc Hd. apply complete_quiet; try done.
  apply engine_inv_run; [apply engine_inv_init | done].
Qed.

(** The scenario of C4 is not orderly: its second submission finds the
    strike timer of the first run pending. *)
Lemma overlap_trace_not_orderly :
  ~ orderly [] overlap_trace Dashboard.init.
Proof.
  intros (_ & _ & _ & _ & H & _). vm_compute in H. discriminate H.
Qed.

Lemma complete_run_is_quiet_witness :
  let st := Dashboard.run [] orderly_session Dashboard.init in
  let later := [Dashboard.EvTimer; Dashboard.EvElapse 1000; Dashboard.EvTimer] in
  orderly [] orderly_session Dashboard.init
  /\ Forall passes_time later
  /\ Dashboard.phase st = complete /\ Dashboard.done st = true
  /\ same_render st (Dashboard.run [] later st).
Proof.
  cbn zeta.
  assert (H1 : orderly [] orderly_session Dashboard.init)
    by (vm_compute; repeat split).
  assert (H2 : Forall passes_time
                 [Dashboard.EvTimer; Dashboard.EvElapse 1000; Dashboard.EvTimer])
    by (repeat constructor).
  assert (H3 : Dashboard.phase (Dashboard.run [] orderly_session Dashboard.init)
               = complete) by (vm_compute; reflexivity).
  assert (H4 : Dashboard.done (Dashboard.run [] orderly_session Dashboard.init)
               = true) by (vm_compute; reflexivity).
  split; [exact H1|]. split; [exact H2|]. split; [exact H3|]. split; [exact H4|].
  exact (complete_run_is_quiet [] orderly_session _ H1 H2 H3 H4).
Defined.

(** ** What a submission does cancel *)

(** X2, the complement of C3.  A submission records one call of the previous
    transport's cleanup when there is one and none otherwise, and makes the
    new transport's cleanup the current one; and a submission made while
    only the demo is running leaves no callback pending, because the demo
    keeps its one timer in [timeoutRef]. *)
Theorem submit_cancels_demo_timer (userPrompt : string) (st : Dashboard.State) :
  let st' := Dashboard.handleSubmit userPrompt st in
  Dashboard.cleanupCalls st'
  = Dashboard.cleanupCalls st
      ++ match Dashboard.cleanupRef st with Some r => [r] | None => [] end
  /\ Dashboard.cleanupRef st' = Some (length (Dashboard.runs st))
  /\ (demo_inv st -> Timers.pending (Dashboard.loop st') = []).
Proof.
  cbn zeta. split_and!.
  - destruct st as [? ? ? ? ? ? ? ? ? ? ? ? ? ? ? ? ? [tid|] [r0|] ? ? ? ?];
      lazy -[app length filter]; by rewrite ?app_nil_r.
  - by destruct (handleSubmit_fields userPrompt st) as (-> & _).
  - intros (_ & _ & _ & Hp & _).
    destruct (handleSubmit_fields userPrompt st) as (_ & _ & -> & _).
    unfold Dashboard.clear_timeoutRef.
    destruct Hp as [Hp|(t & Hp & _ & ->)]; cbn.
    + destruct (Dashboard.timeoutRef st); cbn; by rewrite Hp.
    + rewrite Hp, filter_cons, filter_nil. by case_decide.
Qed.

(** * Further properties of the code *)

(** ** The segmenter loses nothing *)

Lemma Segments_partition i rest steps :
  Segments i rest steps ->
  concat (step_tokens <$> steps) = rest
  /\ length steps + length (filter is_rejection steps) = length rest
  /\ forall pre, length pre = i ->
       Forall (step_well_indexed (pre ++ rest)) steps.
Proof.
  induction 1 as [i|i t c rest steps Hrej Hcor _ (IH1 & IH2 & IH3)
                   |i t rest steps Hn _ (IH1 & IH2 & IH3)].
  - split_and!; [done | done | constructor].
  - split_and!.
    + cbn. by rewrite IH1.
    + rewrite filter_cons_True by done. cbn. lia.
    + intros pre Hpre. constructor.
      * cbn. split_and!; try done.
        -- rewrite <- Hpre. by apply list_lookup_middle.
        -- replace (pre ++ t :: c :: rest) with ((pre ++ [t]) ++ c :: rest)
             by (by rewrite <- app_assoc).
           apply list_lookup_middle. rewrite length_app. cbn. lia.
      * replace (pre ++ t :: c :: rest) with ((pre ++ [t; c]) ++ rest)
          by (by rewrite <- app_assoc).
        apply IH3. rewrite length_app. cbn. lia.
  - split_and!.
    + cbn. by rewrite IH1.
    + rewrite filter_cons_False by (cbn; tauto). cbn. lia.
    + intros pre Hpre. constructor.
      * cbn. rewrite <- Hpre. by apply list_lookup_middle.
      * replace (pre ++ t :: rest) with ((pre ++ [t]) ++ rest)
          by (by rewrite <- app_assoc).
        apply IH3. rewrite length_app. cbn. lia.
Qed.

(** X3.  The steps of [buildSteps] partition the input: their tokens,
    concatenated in order, are the input again; every recorded index
    points at the step's token in the input, and a rejection step holds a
    rejected token and the corrected token right after it; the number of
    steps is the number of tokens minus the number of rejection steps. *)
Theorem buildSteps_partitions_input (tokens : list Token.t) :
  concat (step_tokens <$> buildSteps tokens) = tokens
  /\ Forall (step_well_indexed tokens) (buildSteps tokens)
  /\ length (buildSteps tokens)
     + length (filter is_rejection (buildSteps tokens)) = length tokens
  /\ length (buildSteps tokens) <= length tokens.
Proof.
  destruct (buildSteps_loop_total tokens) as [_ Hseg].
  destruct (Segments_partition 0 tokens _ Hseg) as (H1 & H2 & H3).
  split_and!; [done | by apply (H3 []) | done | lia].
Qed.

(** ** [countWords] in one pass *)

Lemma split_spaces_word_count s : forall cur insep,
  (insep = true -> cur = EmptyString) ->
  length (List.filter Text.truthy (Text.split_spaces s cur insep))
  = word_count s (Text.truthy cur).
Proof.
  induction s as [|c s IH]; intros cur insep Hsep;
    cbn [Text.split_spaces word_count].
  - cbn. by destruct (Text.truthy cur).
  - destruct (Text.is_space c).
    + destruct insep.
      * rewrite Hsep by done. cbn [Text.truthy Nat.add]. by apply IH.
      * pose proof (IH EmptyString true ltac:(done)) as H.
        cbn [Text.truthy] in H. cbn [List.filter].
        destruct (Text.truthy cur); cbn [length]; rewrite H; done.
    + rewrite IH by done. by destruct cur.
Qed.

Lemma word_count_all_spaces s inword :
  all_spaces s = true -> word_count s inword = if inword then 1 else 0.
Proof.
  revert inword. induction s as [|c s IH]; intros inword; cbn; [done|].
  destruct (Text.is_space c); [|done]. cbn. intros H.
  rewrite IH by done. lia.
Qed.

Lemma trimEnd_empty s : Text.trimEnd s = EmptyString -> all_spaces s = true.
Proof.
  induction s as [|c s IH]; cbn; [done|].
  destruct (Text.trimEnd s); [|done].
  destruct (Text.is_space c); [|done]. intros _. by rewrite IH.
Qed.

Lemma word_count_trimEnd s : forall inword,
  word_count (Text.trimEnd s) inword = word_count s inword.
Proof.
  induction s as [|c s IH]; intros inword; [done|].
  cbn [Text.trimEnd]. destruct (Text.trimEnd s) as [|c' r] eqn:E.
  - apply trimEnd_empty in E. cbn [word_count].
    destruct (Text.is_space c) eqn:Ec.
    + rewrite (word_count_all_spaces s false) by done. cbn. lia.
    + cbn. rewrite Ec. by rewrite (word_count_all_spaces s true).
  - cbn [word_count]. by rewrite <- !IH.
Qed.

Lemma word_count_trimStart s :
  word_count (Text.trimStart s) false = word_count s false.
Proof.
  induction s as [|c s IH]; [done|]. cbn [Text.trimStart word_count].
  destruct (Text.is_space c) eqn:Ec; [done|]. cbn. by rewrite Ec.
Qed.

Lemma countWords_word_count s : countWords s = word_count s false.
Proof.
  unfold countWords, Text.trim.
  rewrite split_spaces_word_count by done. cbn [Text.truthy].
  by rewrite word_count_trimEnd, word_count_trimStart.
Qed.

Lemma word_count_app_space a b c : forall inword,
  Text.is_space c = true ->
  word_count (a +:+ String c b) inword
  = word_count a inword + word_count b false.
Proof.
  induction a as [|x a IH]; intros inword Hc.
  - change (EmptyString +:+ String c b) with (String c b).
    cbn [word_count]. by rewrite Hc.
  - change (String x a +:+ String c b) with (String x (a +:+ String c b)).
    cbn [word_count].
    destruct (Text.is_space x); rewrite IH by done; lia.
Qed.

Lemma word_count_true_pos s : word_count s true <> 0.
Proof.
  induction s as [|c s IH]; cbn; [done|].
  destruct (Text.is_space c); [lia | done].
Qed.

Lemma word_count_zero s : word_count s false = 0 <-> all_spaces s = true.
Proof.
  induction s as [|c s IH]; cbn; [done|].
  destruct (Text.is_space c); cbn; [done|].
  split; [|done]. intros H. by apply word_count_true_pos in H.
Qed.

(** ** The packet invariant for the spec's word count *)

Lemma is_space_whitespace c : Text.is_space c = whitespace c.
Proof. destruct c as [[] [] [] [] [] [] [] []]; reflexivity. Qed.

Lemma word_starts_word_count s :
  word_starts true s = word_count s false
  /\ word_starts false s + 1 = word_count s true.
Proof.
  induction s as [|c s [IH1 IH2]]; [done|].
  cbn [word_starts word_count]. rewrite <- is_space_whitespace.
  destruct (Text.is_space c); cbn [andb negb]; lia.
Qed.

Lemma words_countWords text : words text = countWords text.
Proof.
  rewrite countWords_word_count. apply word_starts_word_count.
Qed.

Lemma words_dispatched_words_on l ds : words_dispatched l ds = words_on l ds.
Proof.
  unfold words_dispatched, words_on. f_equal. apply list_fmap_ext.
  intros _ [[l' c] text] _. by rewrite words_countWords.
Qed.

(** C5.  From the moment the word buffers are reset, at every point of any
    sequence of dispatches (every prefix of it), each lane's buffer holds
    [W mod 3] and exactly [W / 3] packets have been emitted on the lane,
    where [W] is the number of whitespace-delimited non-empty words of
    the texts dispatched to the lane so far, counted by [words] and not by
    the code's [countWords]; the buffer is therefore always below the
    threshold. *)
Theorem packet_throttler_invariant
    (ds : list (Dashboard.Lane * string * string)) (k : nat)
    (l : Dashboard.Lane) (st : Dashboard.State) :
  let st0 := Dashboard.set_packetWordBuffer (Dashboard.mkBuffer 0 0) st in
  let st' := dispatch_all (take k ds) st0 in
  let W := words_dispatched l (take k ds) in
  Dashboard.buffer l st' = W mod 3
  /\ emitted l (Dashboard.packets st') = emitted l (Dashboard.packets st) + W / 3
  /\ Dashboard.buffer l st' < Dashboard.WORDS_PER_PACKET.
Proof.
  cbn zeta. rewrite words_dispatched_words_on.
  set (st0 := Dashboard.set_packetWordBuffer (Dashboard.mkBuffer 0 0) st).
  destruct (dispatch_all_spec (take k ds) st0 l) as (Hd & Hv & Hbuf & Hem);
    [cbn; lia | cbn; lia |].
  assert (Dashboard.buffer l st0 = 0) as Hz by (by destruct l).
  rewrite Hz in Hbuf, Hem. cbn [Nat.add] in Hbuf, Hem.
  split_and!; [done | done | by destruct l].
Qed.

(** X4.  [countWords] counts the maximal runs of non-whitespace
    characters: it is the one-pass count, it is 0 exactly on strings of
    whitespace only (the empty string included), it adds up over two
    texts joined by a whitespace character, and whitespace around a text
    does not change it. *)
Theorem countWords_counts_runs :
  (forall s, countWords s = word_count s false)
  /\ (forall s, countWords s = 0 <-> all_spaces s = true)
  /\ (forall a b c, Text.is_space c = true ->
        countWords (a +:+ String c b) = countWords a + countWords b)
  /\ (forall s, countWords (Text.trim s) = countWords s)
  /\ (forall s c, Text.is_space c = true ->
        countWords (String c s) = countWords s
        /\ countWords (s +:+ String c EmptyString) = countWords s).
Proof.
  split_and!.
  - apply countWords_word_count.
  - intros s. rewrite countWords_word_count. apply word_count_zero.
  - intros a b c Hc. rewrite !countWords_word_count.
    by apply word_count_app_space.
  - intros s. rewrite !countWords_word_count. unfold Text.trim.
    by rewrite word_count_trimEnd, word_count_trimStart.
  - intros s c Hc. rewrite !countWords_word_count. split.
    + cbn [word_count]. by rewrite Hc.
    + rewrite word_count_app_space by done. cbn [word_count]. lia.
Qed.

(** ** Invariants of the packet list and of the word buffers *)

(** The throttler appends packets with consecutive fresh ids. *)
Lemma emitPacketForWords_loop_appends fuel : forall l c st,
  exists q b,
    Dashboard.emitPacketForWords_loop fuel l c st
    = Dashboard.set_packetWordBuffer b
        (Dashboard.set_packets
           (Dashboard.packets st ++ new_packets l c (Dashboard.packetId st) q)
           (Dashboard.set_packetId (Dashboard.packetId st + q) st)).
Proof.
  induction fuel as [|fuel IH]; intros l c st;
    cbn [Dashboard.emitPacketForWords_loop];
    destruct (Dashboard.WORDS_PER_PACKET <=? Dashboard.buffer l st);
    try (exists 0, (Dashboard.packetWordBuffer st);
         unfold new_packets; cbn [seq fmap list_fmap];
         rewrite app_nil_r, Nat.add_0_r; by destruct st).
  destruct (IH l c
    (Dashboard.set_buffer l
       (Dashboard.buffer l (Dashboard.emitPacket l c st)
        - Dashboard.WORDS_PER_PACKET) (Dashboard.emitPacket l c st)))
    as (q & b & ->).
  exists (S q), b. rewrite new_packets_S.
  change (Dashboard.packetId
            (Dashboard.set_buffer l
               (Dashboard.buffer l (Dashboard.emitPacket l c st)
                - Dashboard.WORDS_PER_PACKET) (Dashboard.emitPacket l c st)))
    with (Dashboard.packetId st + 1).
  generalize (new_packets l c (Dashboard.packetId st + 1) q). intros news.
  destruct st as [? ? ? ? ? ? ? ? ? ? ? ? [bd bv] ? ? ? ? ? ? ? ? ? ?].
  destruct l; lazy -[Nat.add Nat.sub app]; rewrite <- app_assoc; cbn [app];
    f_equal; lia.
Qed.

Lemma emitPacketForWords_appends l c text st :
  exists q b,
    Dashboard.emitPacketForWords l c text st
    = Dashboard.set_packetWordBuffer b
        (Dashboard.set_packets
           (Dashboard.packets st ++ new_packets l c (Dashboard.packetId st) q)
           (Dashboard.set_packetId (Dashboard.packetId st + q) st)).
Proof.
  unfold Dashboard.emitPacketForWords.
  destruct (countWords text =? 0).
  - exists 0, (Dashboard.packetWordBuffer st).
    unfold new_packets; cbn [seq fmap list_fmap].
    rewrite app_nil_r, Nat.add_0_r. by destruct st.
  - destruct (emitPacketForWords_loop_appends
      (Dashboard.buffer l
         (Dashboard.set_buffer l (Dashboard.buffer l st + countWords text) st))
      l c (Dashboard.set_buffer l (Dashboard.buffer l st + countWords text) st))
      as (q & b & ->).
    exists q, b. by destruct st.
Qed.

Lemma new_packets_ids l c n q :
  Dashboard.id <$> new_packets l c n q = seq n q.
Proof.
  unfold new_packets. rewrite <- list_fmap_compose.
  revert n. induction q as [|q IH]; intros n; [done|].
  cbn [seq fmap list_fmap]. cbn. rewrite Nat.add_0_r. f_equal.
  rewrite <- seq_shift, <- list_fmap_compose.
  rewrite <- (IH (S n)). apply list_fmap_ext. intros _ j _. cbn. lia.
Qed.

Lemma StronglySorted_lt_app (l1 l2 : list nat) n :
  StronglySorted lt l1 -> StronglySorted lt l2 ->
  Forall (fun x => x < n) l1 -> Forall (fun x => n <= x) l2 ->
  StronglySorted lt (l1 ++ l2).
Proof.
  intros H1 H2 Hl1 Hl2. induction H1 as [|x l1 Hs IH Hx]; [done|].
  inversion Hl1; subst. cbn. constructor; [by apply IH|].
  apply Forall_app. split; [done|].
  eapply Forall_impl; [exact Hl2|]. cbn. intros. lia.
Qed.

Lemma StronglySorted_lt_seq n q : StronglySorted lt (seq n q).
Proof.
  revert n. induction q as [|q IH]; intros n; cbn; constructor; [apply IH|].
  apply Forall_forall. intros x Hx. apply list_elem_of_In, in_seq in Hx. lia.
Qed.

Lemma packets_inv_emit l c text st :
  packets_inv st -> packets_inv (Dashboard.emitPacketForWords l c text st).
Proof.
  intros (Hs & Hlt & Hdir).
  destruct (emitPacketForWords_appends l c text st) as (q & b & ->).
  unfold packets_inv. cbn. split_and!.
  - rewrite fmap_app, new_packets_ids.
    apply (StronglySorted_lt_app _ _ (Dashboard.packetId st));
      [done | apply StronglySorted_lt_seq | by apply Forall_fmap |].
    apply Forall_forall. intros x Hx. apply list_elem_of_In, in_seq in Hx. lia.
  - apply Forall_app. split.
    + eapply Forall_impl; [exact Hlt|]. cbn. intros. lia.
    + apply Forall_fmap, Forall_forall. intros x Hx.
      apply list_elem_of_In, in_seq in Hx. cbn. lia.
  - apply Forall_app. split; [done|].
    unfold new_packets. by apply Forall_fmap, Forall_forall.
Qed.

Lemma packets_inv_frame st st' :
  Dashboard.packets st' = Dashboard.packets st ->
  Dashboard.packetId st' = Dashboard.packetId st ->
  packets_inv st -> packets_inv st'.
Proof. unfold packets_inv. by intros -> ->. Qed.

Lemma StronglySorted_fmap_filter {A} (f : A -> nat) (P : A -> Prop)
    `{forall x, Decision (P x)} (l : list A) :
  StronglySorted lt (f <$> l) -> StronglySorted lt (f <$> filter P l).
Proof.
  induction l as [|x l IH]; [done|]. cbn [fmap list_fmap].
  intros Hs. inversion Hs as [|? ? Hl Hx]; subst.
  rewrite filter_cons. case_decide; [|by apply IH].
  cbn [fmap list_fmap]. constructor; [by apply IH|].
  apply Forall_fmap. apply Forall_filter_keep.
  rewrite Forall_fmap in Hx. exact Hx.
Qed.

Lemma packets_inv_done pid st :
  packets_inv st -> packets_inv (Dashboard.handlePacketDone pid st).
Proof.
  intros (Hs & Hlt & Hdir). unfold packets_inv. cbn. split_and!.
  - by apply StronglySorted_fmap_filter.
  - by apply Forall_filter_keep.
  - by apply Forall_filter_keep.
Qed.

Lemma buffers_inv_emit l c text st :
  buffers_inv st -> buffers_inv (Dashboard.emitPacketForWords l c text st).
Proof.
  intros [Hd Hv]. unfold buffers_inv, Dashboard.WORDS_PER_PACKET in *.
  assert (Hl : Dashboard.buffer l st < 3) by (by destruct l).
  rewrite (emitPacketForWords_spec l c text st Hl), !buffer_throttled.
  pose proof (Nat.mod_upper_bound (Dashboard.buffer l st + countWords text) 3
                ltac:(lia)).
  split; by case_decide.
Qed.

Lemma buffers_inv_frame st st' :
  Dashboard.packetWordBuffer st' = Dashboard.packetWordBuffer st ->
  buffers_inv st -> buffers_inv st'.
Proof. unfold buffers_inv, Dashboard.buffer. by intros ->. Qed.

Lemma buffers_inv_reset st :
  Dashboard.packetWordBuffer st = Dashboard.mkBuffer 0 0 -> buffers_inv st.
Proof.
  unfold buffers_inv, Dashboard.buffer, Dashboard.WORDS_PER_PACKET.
  intros ->. cbn. lia.
Qed.

(** Walk through a callback: the throttler keeps the invariant, every
    other operation leaves the cells of the invariant alone. *)
Ltac packets_walk :=
  repeat lazymatch goal with
    | |- packets_inv (Dashboard.emitPacketForWords _ _ _ _) =>
        apply packets_inv_emit
    | |- packets_inv (Dashboard.handlePacketDone _ _) =>
        apply packets_inv_done
    | |- packets_inv (?f ?s) =>
        apply (packets_inv_frame s); [reflexivity | reflexivity |]
    end.

Ltac buffers_walk :=
  repeat lazymatch goal with
    | |- buffers_inv (Dashboard.emitPacketForWords _ _ _ _) =>
        apply buffers_inv_emit
    | |- buffers_inv (?f ?s) =>
        apply (buffers_inv_frame s); [reflexivity |]
    end.

Lemma packets_inv_processTokenQueue r st :
  packets_inv st -> packets_inv (Dashboard.processTokenQueue r st).
Proof.
  intros H. unfold Dashboard.processTokenQueue.
  destruct (Dashboard.runs st !! r) as [run|]; [|done].
  destruct (Dashboard.tokenQueue run) as [|token rest];
    [|destruct (te_type token)]; cbn zeta; packets_walk; exact H.
Qed.

Lemma packets_inv_checkDone r st :
  packets_inv st -> packets_inv (Dashboard.checkDone r st).
Proof.
  intros H. unfold Dashboard.checkDone.
  destruct (Dashboard.runs st !! r) as [run|]; [|done].
  destruct (bool_decide (Dashboard.tokenQueue run = [])
            && negb (Dashboard.processing run));
    cbn zeta; packets_walk; exact H.
Qed.

Lemma packets_inv_run_callback steps cb st :
  packets_inv st -> packets_inv (Dashboard.run_callback steps cb st).
Proof.
  intros H. destruct cb; cbn [Dashboard.run_callback].
  - unfold Dashboard.processDemoStep.
    destruct (steps !! Dashboard.stepIdx st) as [[tk i|rej cor i j]|];
      cbn zeta; packets_walk; exact H.
  - unfold Dashboard.demoVerify. cbn zeta. packets_walk. exact H.
  - unfold Dashboard.demoHide. cbn zeta. packets_walk. exact H.
  - unfold Dashboard.demoCorrect. cbn zeta. packets_walk. exact H.
  - unfold Dashboard.demoSettle. cbn zeta. packets_walk. exact H.
  - by apply packets_inv_processTokenQueue.
  - unfold Dashboard.liveStrike. cbn zeta. packets_walk. exact H.
  - unfold Dashboard.liveHide. cbn zeta. packets_walk. exact H.
  - unfold Dashboard.liveFilter. cbn zeta.
    apply packets_inv_processTokenQueue. packets_walk. exact H.
  - unfold Dashboard.liveSettle. cbn zeta. packets_walk. exact H.
  - by apply packets_inv_checkDone.
Qed.

Lemma packets_inv_onMessage r msg st :
  packets_inv st -> packets_inv (Dashboard.onMessage r msg st).
Proof.
  intros H. destruct msg as [data|data|data|message]; cbn [Dashboard.onMessage].
  - set (st2 := if bool_decide (te_type data = TAccepted)
                   || bool_decide (te_type data = TCorrected) then _ else _).
    assert (H2 : packets_inv st2).
    { subst st2.
      destruct (bool_decide (te_type data = TAccepted)),
               (bool_decide (te_type data = TCorrected));
        cbn [orb]; unfold Dashboard.updateLiveSavingsFromAcceptedTokens;
        cbn zeta; packets_walk; exact H. }
    clearbody st2.
    destruct (Dashboard.runs st2 !! r) as [run|]; [|done].
    destruct (Dashboard.processing run).
    + packets_walk. exact H2.
    + apply packets_inv_processTokenQueue. packets_walk. exact H2.
  - packets_walk. exact H.
  - apply packets_inv_checkDone.
    unfold Dashboard.updateLiveSavingsFromAcceptedTokens. cbn zeta.
    packets_walk. exact H.
  - cbn zeta. packets_walk. exact H.
Qed.

Lemma handleSubmit_packet_cells userPrompt st :
  let st' := Dashboard.handleSubmit userPrompt st in
  Dashboard.packets st' = Dashboard.packets st
  /\ Dashboard.packetId st' = Dashboard.packetId st
  /\ Dashboard.packetWordBuffer st' = Dashboard.mkBuffer 0 0
  /\ Dashboard.counts st' = no_counts
  /\ Dashboard.acceptanceRate st' = Dashboard.acceptanceRate st
  /\ Dashboard.visibleTokens st' = [].
Proof.
  destruct st as [? ? ? ? ? ? ? ? ? ? ? ? ? ? ? ? ? [tid|] [r0|] ? ? ? ?];
    by lazy -[app length filter].
Qed.

Lemma healthResolved_packet_cells online st :
  let st' := Dashboard.healthResolved online st in
  Dashboard.packets st' = Dashboard.packets st
  /\ Dashboard.packetId st' = Dashboard.packetId st
  /\ (Dashboard.packetWordBuffer st' = Dashboard.mkBuffer 0 0
      \/ Dashboard.packetWordBuffer st' = Dashboard.packetWordBuffer st)
  /\ Dashboard.counts st' = Dashboard.counts st
  /\ Dashboard.acceptanceRate st' = Dashboard.acceptanceRate st.
Proof.
  destruct st as [? ? ? ? ? ? ? ? ? ? ? ? ? ? ? ? ? [tid|] ? ? ? ? ?];
    destruct online; lazy -[app length filter]; split_and!; auto.
Qed.

Lemma packets_inv_step steps ev st :
  packets_inv st -> packets_inv (Dashboard.step steps ev st).
Proof.
  intros H. destruct ev as [online|ms| |userPrompt|r msg|r|r|pid];
    cbn [Dashboard.step].
  - destruct (healthResolved_packet_cells online st) as (E1 & E2 & _).
    by apply (packets_inv_frame st).
  - by apply (packets_inv_frame st).
  - destruct (Timers.fire (Dashboard.loop st)) as [[cb l]|]; [|done].
    apply packets_inv_run_callback. by apply (packets_inv_frame st).
  - destruct (handleSubmit_packet_cells userPrompt st) as (E1 & E2 & _).
    by apply (packets_inv_frame st).
  - destruct (r <? length (Dashboard.runs st)); [|done].
    by apply packets_inv_onMessage.
  - destruct (r <? length (Dashboard.runs st)); [|done].
    by apply (packets_inv_frame st).
  - destruct (r <? length (Dashboard.runs st)); [|done].
    by apply (packets_inv_frame st).
  - by apply packets_inv_done.
Qed.

(** X5.  In every state the dashboard reaches, by any sequence of events
    (overlapping runs included), the active packets carry strictly
    increasing ids, all below the id counter, and each packet's direction
    is the one of its lane (draft left to right, verify right to left).
    Ids are therefore unique, and acknowledging a packet id removes at
    most one packet. *)
Theorem packet_ids_unique (steps : list AnimStep)
    (evs : list Dashboard.Event) (pid : nat) :
  let st := Dashboard.run steps evs Dashboard.init in
  StronglySorted lt (Dashboard.id <$> Dashboard.packets st)
  /\ NoDup (Dashboard.id <$> Dashboard.packets st)
  /\ Forall (fun p => Dashboard.id p < Dashboard.packetId st)
            (Dashboard.packets st)
  /\ Forall (fun p => Dashboard.direction p = lane_direction (Dashboard.lane p))
            (Dashboard.packets st)
  /\ length (Dashboard.packets st)
     <= length (Dashboard.packets (Dashboard.handlePacketDone pid st)) + 1.
Proof.
  cbn zeta.
  assert (Hinv : packets_inv (Dashboard.run steps evs Dashboard.init)).
  { generalize Dashboard.init, (ltac:(unfold packets_inv; cbn; split_and!;
      constructor) : packets_inv Dashboard.init).
    induction evs as [|ev evs IH]; intros st H; [done|].
    cbn. apply IH. by apply packets_inv_step. }
  destruct Hinv as (Hs & Hlt & Hdir).
  set (st := Dashboard.run steps evs Dashboard.init) in *. clearbody st.
  assert (Hnd : NoDup (Dashboard.id <$> Dashboard.packets st)).
  { clear -Hs. induction Hs as [|x l Hl IH Hx]; constructor; [|done].
    intros Hin. rewrite Forall_forall in Hx. specialize (Hx _ Hin). lia. }
  split_and!; try done.
  cbn. clear -Hnd. induction (Dashboard.packets st) as [|p ps IH]; [cbn; lia|].
  cbn [fmap list_fmap] in Hnd. apply NoDup_cons in Hnd as [Hp Hnd].
  rewrite filter_cons. case_decide as Hid; cbn [length].
  - specialize (IH Hnd). lia.
  - assert (filter (fun q => Dashboard.id q <> pid) ps = ps) as ->; [|lia].
    destruct (decide (Dashboard.id p = pid)) as [<-|Hne]; [|done]. clear -Hp.
    induction ps as [|q ps IH]; [done|].
    rewrite filter_cons, decide_True.
    + f_equal. apply IH. intros Hin. apply Hp. cbn. by right.
    + intros E. apply Hp. cbn. rewrite E. by left.
Qed.

(** ** The word buffers stay below the threshold *)

Lemma buffers_inv_processTokenQueue r st :
  buffers_inv st -> buffers_inv (Dashboard.processTokenQueue r st).
Proof.
  intros H. unfold Dashboard.processTokenQueue.
  destruct (Dashboard.runs st !! r) as [run|]; [|done].
  destruct (Dashboard.tokenQueue run) as [|token rest];
    [|destruct (te_type token)]; cbn zeta; buffers_walk; exact H.
Qed.

Lemma buffers_inv_checkDone r st :
  buffers_inv st -> buffers_inv (Dashboard.checkDone r st).
Proof.
  intros H. unfold Dashboard.checkDone.
  destruct (Dashboard.runs st !! r) as [run|]; [|done].
  destruct (bool_decide (Dashboard.tokenQueue run = [])
            && negb (Dashboard.processing run));
    cbn zeta; buffers_walk; exact H.
Qed.

Lemma buffers_inv_run_callback steps cb st :
  buffers_inv st -> buffers_inv (Dashboard.run_callback steps cb st).
Proof.
  intros H. destruct cb; cbn [Dashboard.run_callback].
  - unfold Dashboard.processDemoStep.
    destruct (steps !! Dashboard.stepIdx st) as [[tk i|rej cor i j]|];
      cbn zeta; buffers_walk; exact H.
  - unfold Dashboard.demoVerify. cbn zeta. buffers_walk. exact H.
  - unfold Dashboard.demoHide. cbn zeta. buffers_walk. exact H.
  - unfold Dashboard.demoCorrect. cbn zeta. buffers_walk. exact H.
  - unfold Dashboard.demoSettle. cbn zeta. buffers_walk. exact H.
  - by apply buffers_inv_processTokenQueue.
  - unfold Dashboard.liveStrike. cbn zeta. buffers_walk. exact H.
  - unfold Dashboard.liveHide. cbn zeta. buffers_walk. exact H.
  - unfold Dashboard.liveFilter. cbn zeta.
    apply buffers_inv_processTokenQueue. buffers_walk. exact H.
  - unfold Dashboard.liveSettle. cbn zeta. buffers_walk. exact H.
  - by apply buffers_inv_checkDone.
Qed.

Lemma buffers_inv_onMessage r msg st :
  buffers_inv st -> buffers_inv (Dashboard.onMessage r msg st).
Proof.
  intros H. destruct msg as [data|data|data|message]; cbn [Dashboard.onMessage].
  - set (st2 := if bool_decide (te_type data = TAccepted)
                   || bool_decide (te_type data = TCorrected) then _ else _).
    assert (H2 : buffers_inv st2).
    { subst st2.
      destruct (bool_decide (te_type data = TAccepted)),
               (bool_decide (te_type data = TCorrected));
        cbn [orb]; unfold Dashboard.updateLiveSavingsFromAcceptedTokens;
        cbn zeta; buffers_walk; exact H. }
    clearbody st2.
    destruct (Dashboard.runs st2 !! r) as [run|]; [|done].
    destruct (Dashboard.processing run).
    + buffers_walk. exact H2.
    + apply buffers_inv_processTokenQueue. buffers_walk. exact H2.
  - buffers_walk. exact H.
  - apply buffers_inv_checkDone.
    unfold Dashboard.updateLiveSavingsFromAcceptedTokens. cbn zeta.
    buffers_walk. exact H.
  - cbn zeta. buffers_walk. exact H.
Qed.

Lemma buffers_inv_step steps ev st :
  buffers_inv st -> buffers_inv (Dashboard.step steps ev st).
Proof.
  intros H. destruct ev as [online|ms| |userPrompt|r msg|r|r|pid];
    cbn [Dashboard.step].
  - destruct (healthResolved_packet_cells online st) as (_ & _ & [E|E] & _).
    + by apply buffers_inv_reset.
    + by apply (buffers_inv_frame st).
  - by apply (buffers_inv_frame st).
  - destruct (Timers.fire (Dashboard.loop st)) as [[cb l]|]; [|done].
    apply buffers_inv_run_callback. by apply (buffers_inv_frame st).
  - destruct (handleSubmit_packet_cells userPrompt st) as (_ & _ & E & _).
    by apply buffers_inv_reset.
  - destruct (r <? length (Dashboard.runs st)); [|done].
    by apply buffers_inv_onMessage.
  - destruct (r <? length (Dashboard.runs st)); [|done].
    by apply (buffers_inv_frame st).
  - destruct (r <? length (Dashboard.runs st)); [|done].
    by apply (buffers_inv_frame st).
  - by apply (buffers_inv_frame st).
Qed.

Lemma buffers_inv_run steps evs : forall st,
  buffers_inv st -> buffers_inv (Dashboard.run steps evs st).
Proof.
  induction evs as [|ev evs IH]; intros st H; [done|].
  cbn. apply IH. by apply buffers_inv_step.
Qed.

(** X6.  In every state the dashboard reaches, by any sequence of events,
    both word buffers are below [WORDS_PER_PACKET]: the loop of
    [emitPacketForWords] always drains the buffer it has filled, so one
    call on a text of [w] words emits exactly [(b + w) / 3] packets and
    leaves [(b + w) mod 3], [b] being the lane's buffer before the call. *)
Theorem word_buffers_below_threshold (steps : list AnimStep)
    (evs : list Dashboard.Event) (l : Dashboard.Lane) (c text : string) :
  let st := Dashboard.run steps evs Dashboard.init in
  let b := Dashboard.buffer l st in
  let st' := Dashboard.emitPacketForWords l c text st in
  b < Dashboard.WORDS_PER_PACKET
  /\ Dashboard.buffer l st' = (b + countWords text) mod 3
  /\ Dashboard.packets st'
     = Dashboard.packets st
         ++ new_packets l c (Dashboard.packetId st) ((b + countWords text) / 3)
  /\ Dashboard.packetId st'
     = Dashboard.packetId st + (b + countWords text) / 3.
Proof.
  cbn zeta.
  assert (Hinv : buffers_inv (Dashboard.run steps evs Dashboard.init)).
  { apply buffers_inv_run. unfold buffers_inv, Dashboard.WORDS_PER_PACKET.
    cbn. lia. }
  set (st := Dashboard.run steps evs Dashboard.init) in *. clearbody st.
  assert (Hl : Dashboard.buffer l st < 3)
    by (destruct Hinv; by destruct l).
  rewrite (emitPacketForWords_spec l c text st Hl).
  split_and!; [done | | done | done].
  rewrite buffer_throttled. by rewrite decide_True.
Qed.

(** ** Who writes the acceptance rate *)

Lemma acceptanceRate_emit l c text st :
  Dashboard.acceptanceRate (Dashboard.emitPacketForWords l c text st)
  = Dashboard.acceptanceRate st.
Proof. emit_frame l c text st. Qed.

Ltac rate_walk :=
  repeat lazymatch goal with
    | |- Dashboard.acceptanceRate (Dashboard.emitPacketForWords _ _ _ _) = _ =>
        rewrite acceptanceRate_emit
    | |- Dashboard.acceptanceRate (?f ?s) = _ =>
        change (Dashboard.acceptanceRate (f s)) with (Dashboard.acceptanceRate s)
    end.

Lemma acceptanceRate_processTokenQueue r st :
  Dashboard.acceptanceRate (Dashboard.processTokenQueue r st)
  = Dashboard.acceptanceRate st.
Proof.
  unfold Dashboard.processTokenQueue.
  destruct (Dashboard.runs st !! r) as [run|]; [|done].
  destruct (Dashboard.tokenQueue run) as [|token rest];
    [|destruct (te_type token)]; cbn zeta; rate_walk; reflexivity.
Qed.

Lemma acceptanceRate_run_callback steps cb st :
  Dashboard.acceptanceRate (Dashboard.run_callback steps cb st)
  = Dashboard.acceptanceRate st.
Proof.
  destruct cb; cbn [Dashboard.run_callback].
  - unfold Dashboard.processDemoStep.
    destruct (steps !! Dashboard.stepIdx st) as [[tk i|rej cor i j]|];
      cbn zeta; rate_walk; reflexivity.
  - unfold Dashboard.demoVerify. cbn zeta. rate_walk. reflexivity.
  - reflexivity.
  - unfold Dashboard.demoCorrect. cbn zeta. rate_walk. reflexivity.
  - reflexivity.
  - apply acceptanceRate_processTokenQueue.
  - reflexivity.
  - reflexivity.
  - unfold Dashboard.liveFilter. cbn zeta.
    by rewrite acceptanceRate_processTokenQueue.
  - reflexivity.
  - match goal with
    | |- context [Dashboard.checkDone ?r _] =>
        by destruct (checkDone_metrics r st) as [-> _]
    end.
Qed.

(** X7.  The displayed acceptance rate is written by round and done
    messages only: every other event -- a token or error message, a timer
    firing, the transport's error or close callback, a packet
    acknowledgement, the health probe, and a new submission -- leaves it
    as it is.  In particular a submission resets the savings to 0 but
    keeps showing the rate of the run before it (or the initial 82). *)
Theorem acceptance_rate_only_from_transport (steps : list AnimStep)
    (ev : Dashboard.Event) (st : Dashboard.State) :
  ~ carries_rate ev ->
  Dashboard.acceptanceRate (Dashboard.step steps ev st)
  = Dashboard.acceptanceRate st.
Proof.
  intros Hev. destruct ev as [online|ms| |userPrompt|r msg|r|r|pid];
    cbn [Dashboard.step].
  - by destruct (healthResolved_packet_cells online st) as (_ & _ & _ & _ & ->).
  - reflexivity.
  - destruct (Timers.fire (Dashboard.loop st)) as [[cb l]|]; [|done].
    by rewrite acceptanceRate_run_callback.
  - by destruct (handleSubmit_packet_cells userPrompt st) as (_ & _ & _ & _ & -> & _).
  - destruct (r <? length (Dashboard.runs st)); [|done].
    destruct msg as [data|data|data|message]; cbn in Hev; try tauto.
    + cbn [Dashboard.onMessage].
      set (st2 := if bool_decide (te_type data = TAccepted)
                     || bool_decide (te_type data = TCorrected) then _ else _).
      assert (H2 : Dashboard.acceptanceRate st2 = Dashboard.acceptanceRate st).
      { subst st2.
        by destruct (bool_decide (te_type data = TAccepted)),
                    (bool_decide (te_type data = TCorrected)). }
      clearbody st2. rewrite <- H2.
      destruct (Dashboard.runs st2 !! r) as [run|]; [|done].
      destruct (Dashboard.processing run); [done|].
      by rewrite acceptanceRate_processTokenQueue.
  - by destruct (r <? length (Dashboard.runs st)).
  - by destruct (r <? length (Dashboard.runs st)).
  - reflexivity.
Qed.

Lemma acceptance_rate_only_from_transport_witness :
  let st := Dashboard.run [] [Dashboard.EvSubmit "first";
                              Dashboard.EvMessage 0 (done_msg "" 0%float 0.5%float)]
              Dashboard.init in
  ~ carries_rate (Dashboard.EvSubmit "second")
  /\ Dashboard.acceptanceRate st = 50%float
  /\ Dashboard.acceptanceRate (Dashboard.step [] (Dashboard.EvSubmit "second") st)
     = Dashboard.acceptanceRate st.
Proof.
  cbn zeta.
  assert (H : ~ carries_rate (Dashboard.EvSubmit "second")) by (cbn; tauto).
  split; [exact H|]. split; [vm_compute; reflexivity|].
  exact (acceptance_rate_only_from_transport [] _ _ H).
Defined.

(** ** What a complete phase implies in an orderly session *)

(** X8.  In an orderly session a complete phase is never shown early: when
    [phase = complete], [done] is set; after a submission the queue of the
    current run is empty, the run is not processing, none of its chain
    timers is pending and the streaming flag is clear; before any
    submission (the demo) no timer is pending at all. *)
Theorem complete_means_drained (steps : list AnimStep)
    (evs : list Dashboard.Event) :
  orderly steps evs Dashboard.init ->
  let st := Dashboard.run steps evs Dashboard.init in
  Dashboard.phase st = complete ->
  Dashboard.done st = true
  /\ (Dashboard.cleanupRef st = None ->
      Timers.pending (Dashboard.loop st) = [])
  /\ (forall r, Dashboard.cleanupRef st = Some r ->
        exists run, Dashboard.runs st !! r = Some run
                    /\ Dashboard.tokenQueue run = []
                    /\ Dashboard.processing run = false
                    /\ chain_timers (Timers.pending (Dashboard.loop st)) = []
                    /\ Dashboard.isStreaming st = false).
Proof.
  intros Hord st Hc.
  assert (Hinv : engine_inv st)
    by (apply engine_inv_run; [apply engine_inv_init | done]).
  destruct Hinv as [(_ & Hnone & _ & _ & Hphase)
                   |(r & Hr & run & Hrun & _ & _ & Hidle & Hphase)].
  - destruct (Hphase Hc) as [Hp Hd]. split_and!; [done | done |].
    intros r Hr. congruence.
  - destruct (Hphase Hc) as (Hproc & Hd & Hs).
    destruct (Hidle Hproc) as [Hq Hno].
    split_and!; [done | congruence |].
    intros r' Hr'. assert (r' = r) as -> by congruence.
    exists run. split_and!; done.
Qed.

Lemma complete_means_drained_witness :
  let st := Dashboard.run [] orderly_session Dashboard.init in
  orderly [] orderly_session Dashboard.init
  /\ Dashboard.phase st = complete
  /\ Dashboard.done st = true
  /\ (Dashboard.cleanupRef st = None ->
      Timers.pending (Dashboard.loop st) = [])
  /\ (forall r, Dashboard.cleanupRef st = Some r ->
        exists run, Dashboard.runs st !! r = Some run
                    /\ Dashboard.tokenQueue run = []
                    /\ Dashboard.processing run = false
                    /\ chain_timers (Timers.pending (Dashboard.loop st)) = []
                    /\ Dashboard.isStreaming st = false).
Proof.
  cbn zeta.
  assert (H1 : orderly [] orderly_session Dashboard.init)
    by (vm_compute; repeat split).
  assert (H2 : Dashboard.phase (Dashboard.run [] orderly_session Dashboard.init)
               = complete) by (vm_compute; reflexivity).
  split; [exact H1|]. split; [exact H2|].
  exact (complete_means_drained [] orderly_session H1 H2).
Defined.


(** ** A whole demo run *)

Lemma visibleTokens_emit l c text st :
  Dashboard.visibleTokens (Dashboard.emitPacketForWords l c text st)
  = Dashboard.visibleTokens st.
Proof. emit_frame l c text st. Qed.

Lemma set_last_phase_snoc p v x :
  set_last_phase p (v ++ [x]) = v ++ [with_phase p x].
Proof.
  unfold set_last_phase. rewrite length_app. cbn [length].
  rewrite Nat.add_1_r.
  rewrite <- (Nat.add_0_r (length v)) at 1. by rewrite alter_app_r.
Qed.

Lemma without_hidden_snoc_hidden v x :
  Forall (fun t => vt_phase t <> hidden) v -> vt_phase x = hidden ->
  without_hidden (v ++ [x]) = v.
Proof.
  intros Hv Hx. unfold without_hidden. rewrite filter_app.
  rewrite filter_cons_False by (intros H; by apply H).
  rewrite filter_nil, app_nil_r.
  induction Hv as [|y v Hy _ IH]; [done|].
  rewrite filter_cons_True by done. by rewrite IH.
Qed.

#[local] Arguments set_last_phase : simpl never.
#[local] Arguments without_hidden : simpl never.

Ltac demo_simpl :=
  repeat (progress (cbn; rewrite ?loop_emit, ?counts_emit, ?stepIdx_emit,
                      ?visibleTokens_emit)).

(** Firing the only pending timer moves the clock to its due time and
    runs its callback on an empty table. *)
Lemma demo_fire steps st n d cb idx c v :
  demo_state st n [(d, cb)] idx c v -> n <= d ->
  exists l,
    Dashboard.step steps Dashboard.EvTimer st
    = Dashboard.run_callback steps cb (Dashboard.set_loop l st)
    /\ Timers.now l = d /\ Timers.pending l = [].
Proof.
  intros (Hn & Hp & _) Hle.
  destruct (Timers.pending (Dashboard.loop st)) as [|t [|u ts]] eqn:E;
    [done | | done].
  injection Hp as Hd Hcb.
  cbn [Dashboard.step]. unfold Timers.fire. rewrite E.
  cbn [Timers.earliest]. rewrite Hcb. eexists. split; [reflexivity|].
  cbn. rewrite Hn, Hd. split; [lia|]. by case_decide.
Qed.

Lemma demo_stage_accepted steps st n d idx c v tk i :
  demo_state st n [(d, Dashboard.CbProcessDemoStep)] idx c v -> n <= d ->
  steps !! idx = Some (KAccepted tk i) ->
  demo_state (Dashboard.step steps Dashboard.EvTimer st) d
    [(d + ACCEPTED_DELAY, Dashboard.CbProcessDemoStep)] (idx + 1)
    (step_counts (KAccepted tk i) c) (v ++ [step_visible (KAccepted tk i)]).
Proof.
  intros H Hle Hs. destruct (demo_fire steps _ _ _ _ _ _ _ H Hle) as (l & -> & Hn & Hp).
  destruct H as (_ & _ & <- & <- & <-).
  cbn [Dashboard.run_callback]. unfold Dashboard.processDemoStep.
  change (Dashboard.stepIdx (Dashboard.set_loop l st)) with (Dashboard.stepIdx st).
  rewrite Hs. unfold demo_state. demo_simpl. rewrite Hn, Hp.
  split_and!; done.
Qed.

Lemma demo_stage_rejection steps st n d idx c v rej cor i j :
  demo_state st n [(d, Dashboard.CbProcessDemoStep)] idx c v -> n <= d ->
  steps !! idx = Some (KRejection rej cor i j) ->
  demo_state (Dashboard.step steps Dashboard.EvTimer st) d
    [(d + REJECTED_SHOW_DELAY, Dashboard.CbDemoVerify rej cor)] (idx + 1)
    (mkCounts (accepted c) (rejected c) (corrected c) (drafted c + 1))
    (v ++ [mkVisible (Token.text rej) TRejected appearing]).
Proof.
  intros H Hle Hs. destruct (demo_fire steps _ _ _ _ _ _ _ H Hle) as (l & -> & Hn & Hp).
  destruct H as (_ & _ & <- & <- & <-).
  cbn [Dashboard.run_callback]. unfold Dashboard.processDemoStep.
  change (Dashboard.stepIdx (Dashboard.set_loop l st)) with (Dashboard.stepIdx st).
  rewrite Hs. unfold demo_state. demo_simpl. rewrite Hn, Hp.
  split_and!; done.
Qed.

Lemma demo_stage_verify steps st n d idx c v x rej cor :
  demo_state st n [(d, Dashboard.CbDemoVerify rej cor)] idx c (v ++ [x]) ->
  n <= d ->
  demo_state (Dashboard.step steps Dashboard.EvTimer st) d
    [(d + STRIKE_PAUSE, Dashboard.CbDemoHide cor)] idx
    (mkCounts (accepted c) (rejected c + 1) (corrected c) (drafted c))
    (v ++ [with_phase striking x]).
Proof.
  intros H Hle. destruct (demo_fire steps _ _ _ _ _ _ _ H Hle) as (l & -> & Hn & Hp).
  destruct H as (_ & _ & <- & <- & Hv).
  cbn [Dashboard.run_callback]. unfold Dashboard.demoVerify, demo_state.
  demo_simpl. rewrite Hn, Hp, Hv, set_last_phase_snoc.
  split_and!; done.
Qed.

Lemma demo_stage_hide steps st n d idx c v x cor :
  demo_state st n [(d, Dashboard.CbDemoHide cor)] idx c (v ++ [x]) ->
  n <= d ->
  demo_state (Dashboard.step steps Dashboard.EvTimer st) d
    [(d + 100, Dashboard.CbDemoCorrect cor)] idx c
    (v ++ [with_phase hidden x]).
Proof.
  intros H Hle. destruct (demo_fire steps _ _ _ _ _ _ _ H Hle) as (l & -> & Hn & Hp).
  destruct H as (_ & _ & <- & <- & Hv).
  cbn [Dashboard.run_callback]. unfold Dashboard.demoHide, demo_state.
  demo_simpl. rewrite Hn, Hp, Hv, set_last_phase_snoc.
  split_and!; done.
Qed.

Lemma demo_stage_correct steps st n d idx c v x cor :
  demo_state st n [(d, Dashboard.CbDemoCorrect cor)] idx c (v ++ [x]) ->
  n <= d ->
  Forall (fun t => vt_phase t <> hidden) v -> vt_phase x = hidden ->
  demo_state (Dashboard.step steps Dashboard.EvTimer st) d
    [(d + 150, Dashboard.CbDemoSettle)] idx
    (mkCounts (accepted c) (rejected c) (corrected c + 1) (drafted c + 1))
    (v ++ [mkVisible (Token.text cor) TCorrected appearing]).
Proof.
  intros H Hle Hnh Hx.
  destruct (demo_fire steps _ _ _ _ _ _ _ H Hle) as (l & -> & Hn & Hp).
  destruct H as (_ & _ & <- & <- & Hv).
  cbn [Dashboard.run_callback]. unfold Dashboard.demoCorrect, demo_state.
  demo_simpl. rewrite Hn, Hp, Hv, without_hidden_snoc_hidden by done.
  split_and!; done.
Qed.

Lemma demo_stage_settle steps st n d idx c v x :
  demo_state st n [(d, Dashboard.CbDemoSettle)] idx c (v ++ [x]) ->
  n <= d ->
  demo_state (Dashboard.step steps Dashboard.EvTimer st) d
    [(d + ACCEPTED_DELAY, Dashboard.CbProcessDemoStep)] idx c
    (v ++ [with_phase settled x]).
Proof.
  intros H Hle. destruct (demo_fire steps _ _ _ _ _ _ _ H Hle) as (l & -> & Hn & Hp).
  destruct H as (_ & _ & <- & <- & Hv).
  cbn [Dashboard.run_callback]. unfold Dashboard.demoSettle, demo_state.
  demo_simpl. rewrite Hn, Hp, Hv, set_last_phase_snoc.
  split_and!; done.
Qed.

Lemma demo_state_cast st n n' t t' i i' c c' v v' :
  demo_state st n t i c v ->
  n = n' -> t = t' -> i = i' -> c = c' -> v = v' ->
  demo_state st n' t' i' c' v'.
Proof. by intros H -> -> -> -> ->. Qed.

(** One whole step, from the timer that starts it to the timer that
    starts the next one. *)
Lemma demo_step_full steps step st n d idx c v :
  demo_state st n [(d, Dashboard.CbProcessDemoStep)] idx c v -> n <= d ->
  steps !! idx = Some step ->
  Forall (fun t => vt_phase t <> hidden) v ->
  demo_state
    (Dashboard.run steps (replicate (firings step) Dashboard.EvTimer) st)
    (d + step_time step - ACCEPTED_DELAY)
    [(d + step_time step, Dashboard.CbProcessDemoStep)] (idx + 1)
    (step_counts step c) (v ++ [step_visible step]).
Proof.
  intros H Hle Hs Hv.
  destruct step as [tk i|rej cor i j];
    cbn [firings replicate Dashboard.run foldl].
  - eapply demo_state_cast;
      [by apply (demo_stage_accepted steps st n d idx c v tk i) | ..];
      try done.
    cbn. lia.
  - pose proof (demo_stage_rejection steps _ _ _ _ _ _ rej cor i j H Hle Hs) as H1.
    pose proof (demo_stage_verify steps _ _ _ _ _ _ _ _ _ H1 ltac:(lia)) as H2.
    pose proof (demo_stage_hide steps _ _ _ _ _ _ _ _ H2 ltac:(lia)) as H3.
    pose proof (demo_stage_correct steps _ _ _ _ _ _ _ _ H3 ltac:(lia) Hv
                  eq_refl) as H4.
    pose proof (demo_stage_settle steps _ _ _ _ _ _ _ H4 ltac:(lia)) as H5.
    eapply demo_state_cast; [exact H5 | ..]; try done.
    + unfold step_time, REJECTED_SHOW_DELAY, STRIKE_PAUSE, ACCEPTED_DELAY. lia.
    + unfold step_time, REJECTED_SHOW_DELAY, STRIKE_PAUSE, ACCEPTED_DELAY.
      do 2 f_equal. lia.
    + cbn. f_equal. lia.
Qed.

Lemma run_app steps evs1 evs2 st :
  Dashboard.run steps (evs1 ++ evs2) st
  = Dashboard.run steps evs2 (Dashboard.run steps evs1 st).
Proof. unfold Dashboard.run. by rewrite foldl_app. Qed.

Lemma step_visible_shown s : vt_phase (step_visible s) <> hidden.
Proof. by destruct s. Qed.

(** All the steps from the cursor on. *)
Lemma demo_steps_full steps : forall suf pre st n d c v,
  steps = pre ++ suf ->
  demo_state st n [(d, Dashboard.CbProcessDemoStep)] (length pre) c v ->
  n <= d ->
  Forall (fun t => vt_phase t <> hidden) v ->
  exists n',
    n' <= d + sum_list (step_time <$> suf)
    /\ demo_state
         (Dashboard.run steps
            (replicate (sum_list (firings <$> suf)) Dashboard.EvTimer) st)
         n' [(d + sum_list (step_time <$> suf), Dashboard.CbProcessDemoStep)]
         (length steps) (foldl (fun c s => step_counts s c) c suf)
         (v ++ (step_visible <$> suf)).
Proof.
  induction suf as [|s suf IH]; intros pre st n d c v Hsteps H Hle Hv.
  - exists n. cbn. split; [lia|].
    eapply demo_state_cast; [exact H | ..]; try done.
    + do 2 f_equal. lia.
    + subst steps. by rewrite app_nil_r.
    + by rewrite app_nil_r.
  - assert (Hsum : forall x l, sum_list (x :: l) = x + sum_list l) by done.
    rewrite !fmap_cons, !Hsum. cbn [foldl].
    rewrite replicate_add, run_app.
    assert (Hs : steps !! length pre = Some s)
      by (subst steps; by apply list_lookup_middle).
    pose proof (demo_step_full steps s st n d _ c v H Hle Hs Hv) as H1.
    destruct (IH (pre ++ [s])
                (Dashboard.run steps (replicate (firings s) Dashboard.EvTimer) st)
                (d + step_time s - ACCEPTED_DELAY)
                (d + step_time s) (step_counts s c)
                (v ++ [step_visible s])) as (n' & Hn' & H2).
    + subst steps. by rewrite <- app_assoc.
    + eapply demo_state_cast; [exact H1 | ..]; try done.
      rewrite length_app. cbn. lia.
    + destruct s; unfold step_time, ACCEPTED_DELAY; lia.
    + apply Forall_app. split; [done|].
      constructor; [apply step_visible_shown | constructor].
    + exists n'. split; [lia|].
      eapply demo_state_cast; [exact H2 | ..]; try done.
      * do 2 f_equal. lia.
      * by rewrite <- app_assoc.
Qed.

Lemma tally_drafted steps : forall c,
  drafted (foldl (fun c s => step_counts s c) c steps)
  = drafted c + length (concat (step_tokens <$> steps))
  /\ rejected (foldl (fun c s => step_counts s c) c steps)
     = rejected c + length (filter is_rejection steps).
Proof.
  induction steps as [|s steps IH]; intros c; cbn [foldl].
  - cbn. lia.
  - destruct (IH (step_counts s c)) as [-> ->].
    destruct s as [tk i|rej cor i j].
    + rewrite filter_cons_False by (cbn; tauto). cbn. lia.
    + rewrite filter_cons_True by done. cbn. lia.
Qed.

(** X9.  The demo always runs to completion, for any list of steps: after
    the probe has found the backend offline, one timer firing per stage
    (one for an accepted step, five for a rejection step) and a last one
    bring the dashboard to [phase = complete] and [done = true] with no
    timer pending.  By then the clock is at [INITIAL_DELAY] plus the
    delays of all steps (60 ms for an accepted step, 890 ms for a
    rejection step), the cursor is at the end of the list, the screen
    shows one settled token per step (the corrected token for a rejection
    step), [drafted] has counted every token and [rejected] every
    rejection step.  Further firings change nothing. *)
Theorem demo_runs_to_completion (steps : list AnimStep) :
  let st := Dashboard.run steps (demo_events steps) Dashboard.init in
  Dashboard.phase st = complete
  /\ Dashboard.done st = true
  /\ Timers.pending (Dashboard.loop st) = []
  /\ Timers.now (Dashboard.loop st)
     = INITIAL_DELAY + sum_list (step_time <$> steps)
  /\ Dashboard.stepIdx st = length steps
  /\ Dashboard.visibleTokens st = step_visible <$> steps
  /\ Dashboard.counts st = tally steps
  /\ drafted (Dashboard.counts st) = length (concat (step_tokens <$> steps))
  /\ rejected (Dashboard.counts st) = length (filter is_rejection steps)
  /\ Dashboard.step steps Dashboard.EvTimer st = st.
Proof.
  cbn zeta. unfold demo_events.
  rewrite replicate_add.
  change (?e :: ?a ++ ?b) with ((e :: a) ++ b). rewrite run_app.
  cbn [replicate].
  set (st0 := Dashboard.step steps (Dashboard.EvHealth false) Dashboard.init).
  assert (H0 : demo_state st0 0 [(INITIAL_DELAY, Dashboard.CbProcessDemoStep)]
                 0 no_counts []) by (vm_compute; by repeat split).
  destruct (demo_steps_full steps steps [] st0 0 INITIAL_DELAY no_counts [])
    as (n' & Hn' & H); [done | done | unfold INITIAL_DELAY; lia | done |].
  change (Dashboard.run steps (Dashboard.EvHealth false :: ?evs) Dashboard.init)
    with (Dashboard.run steps evs st0).
  set (st := Dashboard.run steps (replicate _ _) st0) in *. clearbody st.
  clear H0. cbn [Dashboard.run foldl].
  destruct (demo_fire steps _ _ _ _ _ _ _ H Hn') as (l & E & Hn & Hp).
  rewrite E. destruct H as (_ & _ & Hi & Hc & Hv). cbn [app] in Hv.
  cbn [Dashboard.run_callback]. unfold Dashboard.processDemoStep.
  change (Dashboard.stepIdx (Dashboard.set_loop l st)) with (Dashboard.stepIdx st).
  rewrite Hi, (lookup_ge_None_2 steps (length steps)) by lia.
  cbn. rewrite Hn, Hp, Hi, Hc, Hv.
  destruct (tally_drafted steps no_counts) as [Hd Hr].
  split_and!; try done.
  rewrite fire_none by done. done.
Qed.


(** ** The chat input during the demo *)

Lemma sum_firings_cons s rest :
  sum_list (firings <$> s :: rest) = firings s + sum_list (firings <$> rest).
Proof. done. Qed.

Lemma firings_pos s : 0 < firings s.
Proof. destruct s; cbn; lia. Qed.

Lemma demo_cursor steps idx :
  match steps !! idx with
  | Some s =>
      sum_list (firings <$> drop idx steps)
      = firings s + sum_list (firings <$> drop (idx + 1) steps)
  | None => sum_list (firings <$> drop idx steps) = 0
  end.
Proof.
  destruct (steps !! idx) as [s|] eqn:E.
  - rewrite (drop_S _ _ _ E), sum_firings_cons. by rewrite Nat.add_1_r.
  - apply lookup_ge_None in E. by rewrite drop_ge.
Qed.

Ltac demo_fire_only st t :=
  let l := fresh "l" in
  let Hf := fresh "Hf" in
  let Hl := fresh "Hl" in
  destruct (fire_only_timer (Timers.callback t) (Dashboard.loop st))
    as (l & Hf & Hl & _);
  [destruct t; by eexists _, _
  |cbn [Dashboard.step]; rewrite Hf; cbn [Timers.callback Dashboard.run_callback]].

Lemma demo_running_step steps k st :
  demo_running steps (S k) st ->
  demo_running steps k (Dashboard.step steps Dashboard.EvTimer st).
Proof.
  intros (Hd & Hs & Hb & Hph & t & Hp & Hcb & Hk).
  demo_fire_only st t.
  pose proof (demo_cursor steps (Dashboard.stepIdx st)) as Hcur.
  destruct t as [tid due cb]. cbn [Timers.callback] in *.
  destruct cb as [|rej cor|cor|cor| |r|r|r|r|r|r]; try done;
    cbn [stage_rest] in Hk; cbn [Dashboard.run_callback].
  - unfold Dashboard.processDemoStep.
    change (Dashboard.stepIdx (Dashboard.set_loop l st))
      with (Dashboard.stepIdx st).
    destruct (steps !! Dashboard.stepIdx st) as [[tk i|rej cor i j]|];
      [| |lia]; unfold demo_running; emit_norm; cbn; rewrite Hl;
      (split_and!; [done..|]); eexists; (split; [reflexivity|]);
      cbn in *; (split; [done|lia]).
  - unfold Dashboard.demoVerify, demo_running. emit_norm. cbn. rewrite Hl.
    split_and!; [done..|]. eexists. split; [reflexivity|]. cbn. split; [done|lia].
  - unfold Dashboard.demoHide, demo_running. cbn. rewrite Hl.
    split_and!; [done..|]. eexists. split; [reflexivity|]. cbn. split; [done|lia].
  - unfold Dashboard.demoCorrect, demo_running. emit_norm. cbn. rewrite Hl.
    split_and!; [done..|]. eexists. split; [reflexivity|]. cbn. split; [done|lia].
  - unfold Dashboard.demoSettle, demo_running. cbn. rewrite Hl.
    split_and!; [done..|]. eexists. split; [reflexivity|]. cbn. split; [done|lia].
Qed.

Lemma demo_running_last steps st :
  demo_running steps 0 st ->
  let st' := Dashboard.step steps Dashboard.EvTimer st in
  Dashboard.done st' = true /\ Dashboard.isStreaming st' = false
  /\ Dashboard.phase st' = complete
  /\ Timers.pending (Dashboard.loop st') = [].
Proof.
  intros (Hd & Hs & Hb & Hph & t & Hp & Hcb & Hk). cbn zeta.
  demo_fire_only st t.
  pose proof (demo_cursor steps (Dashboard.stepIdx st)) as Hcur.
  destruct t as [tid due cb]. cbn [Timers.callback] in *.
  destruct cb as [|rej cor|cor|cor| |r|r|r|r|r|r]; try done;
    cbn [stage_rest] in Hk; try lia.
  cbn [Dashboard.run_callback]. unfold Dashboard.processDemoStep.
  change (Dashboard.stepIdx (Dashboard.set_loop l st))
    with (Dashboard.stepIdx st).
  destruct (steps !! Dashboard.stepIdx st) as [s|].
  - pose proof (firings_pos s). lia.
  - cbn. by rewrite Hl.
Qed.

Lemma demo_running_run steps : forall k r st,
  demo_running steps (k + r) st ->
  demo_running steps r
    (Dashboard.run steps (replicate k Dashboard.EvTimer) st).
Proof.
  induction k as [|k IH]; intros r st H; [done|].
  cbn [replicate Dashboard.run foldl]. apply IH.
  by apply demo_running_step.
Qed.

Lemma idle_timers steps m st :
  Timers.pending (Dashboard.loop st) = [] ->
  Dashboard.run steps (replicate m Dashboard.EvTimer) st = st.
Proof.
  intros Hp. induction m as [|m IH]; [done|].
  cbn [replicate Dashboard.run foldl]. cbn [Dashboard.step].
  by rewrite fire_none.
Qed.

(** X10.  The chat input is disabled from the mount of the dashboard to
    the end of the demo, whatever the step list: it is disabled while the
    probe is pending, and, once the probe has found the backend offline,
    after [k] timer firings it is disabled exactly when [k] is at most the
    number of stage firings of all steps; over the same firings [done] is
    false and the phase is not [complete].  The firing after the last
    stage sets [done] and enables the input, and further firings leave it
    enabled.  So no submission can interrupt the demo. *)
Theorem demo_keeps_input_disabled (steps : list AnimStep) (k : nat) :
  let st :=
    Dashboard.run steps
      (Dashboard.EvHealth false :: replicate k Dashboard.EvTimer)
      Dashboard.init in
  chatInput_disabled Dashboard.init = true
  /\ chatInput_disabled st = bool_decide (k <= sum_list (firings <$> steps))
  /\ Dashboard.done st = bool_decide (sum_list (firings <$> steps) < k)
  /\ (Dashboard.phase st = complete <-> sum_list (firings <$> steps) < k).
Proof.
  cbn zeta. split; [done|].
  set (n := sum_list (firings <$> steps)).
  set (st0 := Dashboard.step steps (Dashboard.EvHealth false) Dashboard.init).
  change (Dashboard.run steps (Dashboard.EvHealth false :: ?evs) Dashboard.init)
    with (Dashboard.run steps evs st0).
  assert (H0 : demo_running steps n st0).
  { subst st0 n. unfold demo_running. cbn. split_and!; [done..|].
    eexists. split; [reflexivity|]. by rewrite drop_0. }
  clearbody st0 n.
  destruct (decide (k <= n)) as [Hk|Hk].
  - rewrite bool_decide_true, bool_decide_false by lia.
    replace n with (k + (n - k)) in H0 by lia.
    apply demo_running_run in H0.
    destruct H0 as (Hd & Hs & Hb & Hph & _).
    unfold chatInput_disabled. rewrite Hd, Hs, Hb.
    split_and!; [done | done |]. split; [done | lia].
  - rewrite bool_decide_false, bool_decide_true by lia.
    replace k with (n + (1 + (k - n - 1))) by lia.
    rewrite !replicate_add, !run_app.
    replace n with (n + 0) in H0 by lia.
    apply demo_running_run in H0.
    apply demo_running_last in H0. cbn zeta in H0.
    destruct H0 as (Hd & Hs & Hph & Hp).
    cbn [replicate Dashboard.run foldl].
    rewrite idle_timers by done.
    unfold chatInput_disabled. rewrite Hd, Hs, Hph.
    rewrite andb_false_r. split_and!; [done | done |]. split; [lia | done].
Qed.


(** ** A whole run of the chat stream *)

Lemma slice_last5_app {A} (l l' : list A) :
  ChatStream.slice_last5 (ChatStream.slice_last5 l ++ l')
  = ChatStream.slice_last5 (l ++ l').
Proof.
  unfold ChatStream.slice_last5.
  rewrite !length_app, length_drop.
  destruct (decide (length l <= 5)) as [H|H].
  - replace (length l - 5) with 0 by lia. rewrite drop_0.
    by rewrite Nat.sub_0_r.
  - rewrite !drop_app, drop_drop, !length_drop. f_equal; f_equal; lia.
Qed.

#[local] Arguments ChatStream.slice_last5 : simpl never.
#[local] Arguments Text.trim : simpl never.

Lemma chat_fire_full steps st w d cb :
  chat_state st w -> view_timers w = [(d, cb)] -> view_now w <= d ->
  exists l,
    ChatStream.step steps ChatStream.EvTimer st
    = ChatStream.render
        (ChatStream.run_callback steps cb (ChatStream.set_loop l st))
    /\ Timers.now l = d /\ Timers.pending l = [].
Proof.
  intros (Hn & Hp & _) Ht Hle. rewrite Ht in Hp.
  destruct (Timers.pending (ChatStream.loop st)) as [|t [|u ts]] eqn:E;
    [done | | done].
  injection Hp as Hd Hcb.
  cbn [ChatStream.step]. unfold Timers.fire. rewrite E.
  cbn [Timers.earliest]. rewrite Hcb. eexists. split; [reflexivity|].
  cbn. rewrite Hn, Hd. split; [lia|]. by case_decide.
Qed.

Ltac chat_run steps H Ht Hle :=
  let l := fresh "l" in
  let Hn := fresh "Hn" in
  let Hp := fresh "Hp" in
  destruct (chat_fire_full steps _ _ _ _ H Ht Hle) as (l & -> & Hn & Hp);
  destruct H as (_ & _ & Hi & Hc & Hv & Hs & Hk & Hlog & Hu);
  cbn [ChatStream.run_callback].

Ltac chat_norm :=
  unfold chat_state, ChatStream.render; cbn;
  match goal with Hu : ChatStream.eventUpdates _ = [] |- _ => rewrite Hu end;
  cbn;
  repeat match goal with
    | H : _ = view_counts _ |- _ => cbn in H; rewrite ?H; clear H
    | H : _ = view_tokens _ |- _ => cbn in H; rewrite ?H; clear H
    | H : _ = view_status _ |- _ => cbn in H; rewrite ?H; clear H
    | H : _ = view_eventId _ |- _ => cbn in H; rewrite ?H; clear H
    | H : _ = ChatStream.slice_last5 (view_log _) |- _ =>
        cbn in H; rewrite ?H; clear H
    | H : Timers.now _ = _ |- _ => rewrite ?H; clear H
    | H : Timers.pending _ = [] |- _ => rewrite ?H; clear H
    end.

Ltac chat_close :=
  chat_norm;
  rewrite ?set_last_phase_snoc, ?slice_last5_app, <- ?app_assoc,
    ?slice_last5_app;
  rewrite <- ?Nat.add_assoc; change (1 + 1) with 2; split_and!; done.

Lemma chat_stage_accepted steps st n d idx c v sts k log tk i :
  chat_state st (mkView n [(d, ChatStream.CbProcessStep)] idx c v sts k log) ->
  n <= d ->
  steps !! idx = Some (KAccepted tk i) ->
  chat_state (ChatStream.step steps ChatStream.EvTimer st)
    (mkView d [(d + ACCEPTED_DELAY, ChatStream.CbProcessStep)] (idx + 1)
       (step_counts (KAccepted tk i) c)
       (v ++ [step_visible (KAccepted tk i)])
       (step_status (KAccepted tk i) c) (k + 2)
       (log ++ step_events (KAccepted tk i) d k)).
Proof.
  intros H Hle Hstep. chat_run steps H (@eq_refl _ [(d, ChatStream.CbProcessStep)]) Hle.
  unfold ChatStream.processStep.
  change (ChatStream.stepIdx (ChatStream.set_loop l st))
    with (ChatStream.stepIdx st).
  cbn in Hi. rewrite Hi, Hstep. chat_close.
Qed.

Lemma chat_stage_rejection steps st n d idx c v sts k log rej cor i j :
  chat_state st (mkView n [(d, ChatStream.CbProcessStep)] idx c v sts k log) ->
  n <= d ->
  steps !! idx = Some (KRejection rej cor i j) ->
  chat_state (ChatStream.step steps ChatStream.EvTimer st)
    (mkView d [(d + REJECTED_SHOW_DELAY, ChatStream.CbVerify rej cor)] (idx + 1)
       (mkCounts (accepted c) (rejected c) (corrected c) (drafted c + 1))
       (v ++ [mkVisible (Token.text rej) TRejected appearing])
       (ChatStream.mkStatus drafting (Text.trim (Token.text rej))
          (ChatStream.status_counts sts))
       (k + 1)
       (log ++ [ChatStream.mkEvent (k + 1) ChatStream.draft
                  (Text.trim (Token.text rej)) d])).
Proof.
  intros H Hle Hstep. chat_run steps H (@eq_refl _ [(d, ChatStream.CbProcessStep)]) Hle.
  unfold ChatStream.processStep.
  change (ChatStream.stepIdx (ChatStream.set_loop l st))
    with (ChatStream.stepIdx st).
  cbn in Hi. rewrite Hi, Hstep. chat_close.
Qed.

Lemma chat_stage_verify steps st n d idx c v x sts k log rej cor :
  chat_state st
    (mkView n [(d, ChatStream.CbVerify rej cor)] idx c (v ++ [x]) sts k log) ->
  n <= d ->
  chat_state (ChatStream.step steps ChatStream.EvTimer st)
    (mkView d [(d + STRIKE_PAUSE, ChatStream.CbHide cor)] idx
       (mkCounts (accepted c) (rejected c + 1) (corrected c) (drafted c))
       (v ++ [with_phase striking x])
       (ChatStream.mkStatus verifying (Text.trim (Token.text rej))
          (mkCounts (accepted c) (rejected c + 1) (corrected c) (drafted c)))
       (k + 1)
       (log ++ [ChatStream.mkEvent (k + 1) ChatStream.ev_rejected
                  (Text.trim (Token.text rej)) d])).
Proof.
  intros H Hle. chat_run steps H (@eq_refl _ [(d, ChatStream.CbVerify rej cor)]) Hle.
  unfold ChatStream.verifyRejected. chat_close.
Qed.

Lemma chat_stage_hide steps st n d idx c v x sts k log cor :
  chat_state st
    (mkView n [(d, ChatStream.CbHide cor)] idx c (v ++ [x]) sts k log) ->
  n <= d ->
  chat_state (ChatStream.step steps ChatStream.EvTimer st)
    (mkView d [(d + 100, ChatStream.CbCorrect cor)] idx c
       (v ++ [with_phase hidden x]) sts k log).
Proof.
  intros H Hle. chat_run steps H (@eq_refl _ [(d, ChatStream.CbHide cor)]) Hle.
  unfold ChatStream.hideRejected. chat_close.
Qed.

Lemma chat_stage_correct steps st n d idx c v x sts k log cor :
  chat_state st
    (mkView n [(d, ChatStream.CbCorrect cor)] idx c (v ++ [x]) sts k log) ->
  n <= d ->
  Forall (fun t => vt_phase t <> hidden) v -> vt_phase x = hidden ->
  chat_state (ChatStream.step steps ChatStream.EvTimer st)
    (mkView d [(d + 150, ChatStream.CbSettle)] idx
       (mkCounts (accepted c) (rejected c) (corrected c + 1) (drafted c + 1))
       (v ++ [mkVisible (Token.text cor) TCorrected appearing])
       (ChatStream.mkStatus correcting (Text.trim (Token.text cor))
          (mkCounts (accepted c) (rejected c) (corrected c + 1) (drafted c + 1)))
       (k + 1)
       (log ++ [ChatStream.mkEvent (k + 1) ChatStream.ev_corrected
                  (Text.trim (Token.text cor)) d])).
Proof.
  intros H Hle Hnh Hx.
  chat_run steps H (@eq_refl _ [(d, ChatStream.CbCorrect cor)]) Hle.
  unfold ChatStream.showCorrected. chat_norm.
  rewrite without_hidden_snoc_hidden by done.
  rewrite ?slice_last5_app. split_and!; done.
Qed.

Lemma chat_stage_settle steps st n d idx c v x sts k log :
  chat_state st
    (mkView n [(d, ChatStream.CbSettle)] idx c (v ++ [x]) sts k log) ->
  n <= d ->
  chat_state (ChatStream.step steps ChatStream.EvTimer st)
    (mkView d [(d + ACCEPTED_DELAY, ChatStream.CbProcessStep)] idx c
       (v ++ [with_phase settled x])
       (ChatStream.mkStatus drafting (ChatStream.currentToken sts)
          (ChatStream.status_counts sts))
       k log).
Proof.
  intros H Hle. chat_run steps H (@eq_refl _ [(d, ChatStream.CbSettle)]) Hle.
  unfold ChatStream.settleCorrected. chat_close.
Qed.

Ltac eq_arith := repeat first [lia | reflexivity | progress f_equal].

Lemma chat_state_cast st w w' : chat_state st w -> w = w' -> chat_state st w'.
Proof. by intros H <-. Qed.

(** One whole step of the chat stream. *)
Lemma chat_step_full steps step st n d idx c v sts k log :
  chat_state st (mkView n [(d, ChatStream.CbProcessStep)] idx c v sts k log) ->
  n <= d ->
  steps !! idx = Some step ->
  Forall (fun t => vt_phase t <> hidden) v ->
  chat_state
    (ChatStream.run steps (replicate (firings step) ChatStream.EvTimer) st)
    (mkView (d + step_time step - ACCEPTED_DELAY)
       [(d + step_time step, ChatStream.CbProcessStep)] (idx + 1)
       (step_counts step c) (v ++ [step_visible step]) (step_status step c)
       (k + step_ids step) (log ++ step_events step d k)).
Proof.
  intros H Hle Hs Hv.
  destruct step as [tk i|rej cor i j];
    cbn [firings replicate ChatStream.run foldl].
  - eapply chat_state_cast;
      [by apply (chat_stage_accepted steps st n d idx c v sts k log tk i)|].
    f_equal. cbn. lia.
  - pose proof (chat_stage_rejection steps _ _ _ _ _ _ _ _ _ rej cor i j
                  H Hle Hs) as H1.
    pose proof (chat_stage_verify steps _ _ _ _ _ _ _ _ _ _ _ _ H1
                  ltac:(lia)) as H2.
    pose proof (chat_stage_hide steps _ _ _ _ _ _ _ _ _ _ _ H2
                  ltac:(lia)) as H3.
    pose proof (chat_stage_correct steps _ _ _ _ _ _ _ _ _ _ _ H3
                  ltac:(lia) Hv eq_refl) as H4.
    pose proof (chat_stage_settle steps _ _ _ _ _ _ _ _ _ _ H4
                  ltac:(lia)) as H5.
    eapply chat_state_cast; [exact H5|].
    unfold step_time, step_status, step_events, step_ids,
      REJECTED_SHOW_DELAY, STRIKE_PAUSE, ACCEPTED_DELAY.
    cbn [step_counts step_label step_visible with_phase vt_text vt_type
         ChatStream.currentToken ChatStream.status_counts
         accepted rejected corrected drafted].
    rewrite <- !app_assoc. cbn [app].
    eq_arith.
Qed.

Lemma chat_run_app steps evs1 evs2 st :
  ChatStream.run steps (evs1 ++ evs2) st
  = ChatStream.run steps evs2 (ChatStream.run steps evs1 st).
Proof. unfold ChatStream.run. by rewrite foldl_app. Qed.

Lemma default_last_cons {A} (d a : A) l :
  default d (last (a :: l)) = default a (last l).
Proof. rewrite last_cons. by destruct (last l). Qed.

(** All the steps from the cursor on. *)
Lemma chat_steps_full steps : forall suf pre st n d c v sts k log,
  steps = pre ++ suf ->
  chat_state st
    (mkView n [(d, ChatStream.CbProcessStep)] (length pre) c v sts k log) ->
  n <= d ->
  Forall (fun t => vt_phase t <> hidden) v ->
  ChatStream.status_counts sts = c ->
  exists n' sts',
    n' <= d + sum_list (step_time <$> suf)
    /\ ChatStream.status_counts sts'
       = foldl (fun c s => step_counts s c) c suf
    /\ ChatStream.currentToken sts'
       = default (ChatStream.currentToken sts) (last (step_label <$> suf))
    /\ chat_state
         (ChatStream.run steps
            (replicate (sum_list (firings <$> suf)) ChatStream.EvTimer) st)
         (mkView n'
            [(d + sum_list (step_time <$> suf), ChatStream.CbProcessStep)]
            (length steps) (foldl (fun c s => step_counts s c) c suf)
            (v ++ (step_visible <$> suf)) sts'
            (k + sum_list (step_ids <$> suf)) (log ++ chat_log suf d k)).
Proof.
  induction suf as [|s suf IH]; intros pre st n d c v sts k log Hsteps H Hle Hv Hc.
  - exists n, sts. cbn. split_and!; [lia | done | done |].
    eapply chat_state_cast; [exact H|].
    subst steps. rewrite !app_nil_r, !Nat.add_0_r. done.
  - assert (Hsum : forall x l, sum_list (x :: l) = x + sum_list l) by done.
    rewrite !fmap_cons, !Hsum. cbn [foldl chat_log].
    rewrite replicate_add, chat_run_app.
    assert (Hs : steps !! length pre = Some s)
      by (subst steps; by apply list_lookup_middle).
    pose proof (chat_step_full steps s st n d _ c v sts k log H Hle Hs Hv) as H1.
    destruct (IH (pre ++ [s])
                (ChatStream.run steps (replicate (firings s) ChatStream.EvTimer) st)
                (d + step_time s - ACCEPTED_DELAY)
                (d + step_time s) (step_counts s c)
                (v ++ [step_visible s]) (step_status s c)
                (k + step_ids s) (log ++ step_events s d k))
      as (n' & sts' & Hn' & Hc' & Ht' & H2).
    + subst steps. by rewrite <- app_assoc.
    + eapply chat_state_cast; [exact H1|].
      f_equal. rewrite length_app. cbn. lia.
    + destruct s; unfold step_time, ACCEPTED_DELAY; lia.
    + apply Forall_app. split; [done|].
      constructor; [apply step_visible_shown | constructor].
    + done.
    + exists n', sts'. split_and!; [lia | done | |].
      * rewrite Ht'. by rewrite default_last_cons.
      * eapply chat_state_cast; [exact H2|].
        rewrite <- !app_assoc. cbn [app].
        eq_arith.
Qed.

(** X11.  The chat stream always runs to completion, for any list of
    steps: after the mount, one timer firing per stage and a last one set
    [done] and the status phase [complete] with no timer pending and every
    queued updater applied.  By then the counts are the tally of the
    steps and the status carries the same counts and the trimmed text of
    the last token shown; the screen shows one settled token per step;
    the id counter has advanced by 2 per accepted step and 3 per rejection
    step; and the status log holds the last 5 of the events logged, an
    accepted step contributing two events with the same id. *)
Theorem chat_stream_runs_to_completion (steps : list AnimStep) :
  let st := ChatStream.run steps (chat_events steps) ChatStream.init in
  ChatStream.done st = true
  /\ ChatStream.phase (ChatStream.status st) = complete
  /\ ChatStream.currentToken (ChatStream.status st)
     = default EmptyString (last (step_label <$> steps))
  /\ ChatStream.status_counts (ChatStream.status st) = tally steps
  /\ ChatStream.counts st = tally steps
  /\ ChatStream.visibleTokens st = step_visible <$> steps
  /\ ChatStream.stepIdx st = length steps
  /\ ChatStream.eventIdRef st = sum_list (step_ids <$> steps)
  /\ ChatStream.statusEvents st
     = ChatStream.slice_last5 (chat_log steps INITIAL_DELAY 0)
  /\ ChatStream.eventUpdates st = []
  /\ Timers.pending (ChatStream.loop st) = []
  /\ Timers.now (ChatStream.loop st)
     = INITIAL_DELAY + sum_list (step_time <$> steps)
  /\ ChatStream.step steps ChatStream.EvTimer st = st.
Proof.
  cbn zeta. unfold chat_events.
  rewrite replicate_add.
  change (?e :: ?a ++ ?b) with ((e :: a) ++ b). rewrite chat_run_app.
  cbn [replicate].
  set (st0 := ChatStream.step steps ChatStream.EvMount ChatStream.init).
  assert (H0 : chat_state st0
                 (mkView 0 [(INITIAL_DELAY, ChatStream.CbProcessStep)] 0
                    no_counts [] (ChatStream.mkStatus idle EmptyString no_counts)
                    0 [])) by (vm_compute; by repeat split).
  destruct (chat_steps_full steps steps [] st0 0 INITIAL_DELAY no_counts []
              _ 0 [] eq_refl H0)
    as (n' & sts' & Hn' & Hc' & Ht' & H);
    [unfold INITIAL_DELAY; lia | done | done |].
  change (ChatStream.run steps (ChatStream.EvMount :: ?evs) ChatStream.init)
    with (ChatStream.run steps evs st0).
  set (st := ChatStream.run steps (replicate _ _) st0) in *. clearbody st.
  clear H0. cbn [ChatStream.run foldl].
  destruct (chat_fire_full steps _ _ _ _ H eq_refl Hn') as (l & E & Hn & Hp).
  rewrite E. destruct H as (_ & _ & Hi & Hc & Hv & Hs & Hk & Hlog & Hu).
  cbn in Hi, Hc, Hv, Hs, Hk, Hlog.
  cbn [ChatStream.run_callback]. unfold ChatStream.processStep.
  change (ChatStream.stepIdx (ChatStream.set_loop l st))
    with (ChatStream.stepIdx st).
  rewrite Hi, (lookup_ge_None_2 steps (length steps)) by lia.
  unfold ChatStream.render. cbn. rewrite Hu. cbn.
  rewrite Hn, Hp, Hi, Hc, Hv, Hs, Hk, Hlog. cbn.
  rewrite fire_none by done.
  split_and!; try done.
Qed.


(** ** The live adapter renders what it receives *)

Lemma timers_inv_setTimeout {C} (cb : C) delay l :
  timers_inv l -> timers_inv (Timers.setTimeout cb delay l).2.
Proof.
  intros [Hs Hlt]. split; cbn.
  - rewrite fmap_app. cbn.
    apply (StronglySorted_lt_app _ _ (Timers.nextTimer l)); try done.
    + repeat constructor.
    + by rewrite Forall_fmap.
    + by repeat constructor.
  - apply Forall_app. split.
    + eapply Forall_impl; [exact Hlt|]. cbn. lia.
    + repeat constructor.
Qed.

Lemma timers_inv_filter {C} (P : Timers.Timer C -> Prop)
    `{forall t, Decision (P t)} l now :
  timers_inv l ->
  timers_inv (Timers.mkLoop now (Timers.nextTimer l) (filter P (Timers.pending l))).
Proof.
  intros [Hs Hlt]. split; cbn.
  - by apply StronglySorted_fmap_filter.
  - by apply Forall_filter_keep.
Qed.

Lemma timers_inv_fire {C} (l l' : Timers.Loop C) cb :
  Timers.fire l = Some (cb, l') -> timers_inv l -> timers_inv l'.
Proof.
  unfold Timers.fire.
  destruct (Timers.earliest (Timers.pending l)) as [t|]; [|done].
  intros [= <- <-]. apply timers_inv_filter.
Qed.

Lemma sorted_ids_inj {A} (f : A -> nat) (l : list A) x y :
  StronglySorted lt (f <$> l) -> x ∈ l -> y ∈ l -> f x = f y -> x = y.
Proof.
  induction l as [|z l IH]; intros Hs Hx Hy Hf; [by apply elem_of_nil in Hx|].
  cbn in Hs. apply StronglySorted_inv in Hs as [Hs Hall].
  rewrite Forall_fmap, Forall_forall in Hall.
  apply elem_of_cons in Hx as [->|Hx]; apply elem_of_cons in Hy as [->|Hy].
  - done.
  - specialize (Hall _ Hy). cbn in Hall. lia.
  - specialize (Hall _ Hx). cbn in Hall. lia.
  - by apply IH.
Qed.

Lemma loop_processTokenQueue r st :
  loop_grows (Dashboard.loop st)
    (Dashboard.loop (Dashboard.processTokenQueue r st)).
Proof.
  unfold Dashboard.processTokenQueue.
  destruct (Dashboard.runs st !! r) as [run|]; [|by left].
  destruct (Dashboard.tokenQueue run) as [|token rest]; [by left|].
  right. destruct (te_type token); dash_simpl; by eexists _, _.
Qed.

Lemma loop_checkDone r st :
  loop_grows (Dashboard.loop st) (Dashboard.loop (Dashboard.checkDone r st)).
Proof.
  unfold Dashboard.checkDone.
  destruct (Dashboard.runs st !! r) as [run|]; [|by left].
  destruct (bool_decide (Dashboard.tokenQueue run = [])
            && negb (Dashboard.processing run)); [by left|].
  right. by eexists _, _.
Qed.

Lemma loop_run_callback steps cb st :
  loop_grows (Dashboard.loop st)
    (Dashboard.loop (Dashboard.run_callback steps cb st)).
Proof.
  destruct cb as [|rej cor|cor|cor| |r|r|r|r|r|r]; cbn [Dashboard.run_callback].
  - unfold Dashboard.processDemoStep.
    destruct (steps !! Dashboard.stepIdx st) as [[tk i|rej cor i j]|];
      [right; dash_simpl; by eexists _, _ ..|by left].
  - right. unfold Dashboard.demoVerify. dash_simpl. by eexists _, _.
  - right. by eexists _, _.
  - right. unfold Dashboard.demoCorrect. dash_simpl. by eexists _, _.
  - right. by eexists _, _.
  - apply loop_processTokenQueue.
  - right. by eexists _, _.
  - right. by eexists _, _.
  - apply (loop_processTokenQueue r
             (Dashboard.set_visibleTokens
                (without_hidden (Dashboard.visibleTokens st)) st)).
  - right. by eexists _, _.
  - apply loop_checkDone.
Qed.

Lemma loop_onMessage r msg st :
  loop_grows (Dashboard.loop st) (Dashboard.loop (Dashboard.onMessage r msg st)).
Proof.
  destruct msg as [data|data|data|message]; cbn [Dashboard.onMessage].
  - set (st2 := if bool_decide (te_type data = TAccepted)
                   || bool_decide (te_type data = TCorrected) then _ else _).
    assert (H2 : Dashboard.loop st2 = Dashboard.loop st).
    { subst st2.
      by destruct (bool_decide (te_type data = TAccepted)),
                  (bool_decide (te_type data = TCorrected)). }
    clearbody st2. rewrite <- H2.
    destruct (Dashboard.runs st2 !! r) as [run|]; [|by left].
    destruct (Dashboard.processing run); [by left|].
    apply (loop_processTokenQueue r (Dashboard.set_run r _ st2)).
  - by left.
  - apply (loop_checkDone r
             (Dashboard.updateLiveSavingsFromAcceptedTokens
                (Dashboard.set_acceptedDraftTokens _
                   (Dashboard.set_acceptanceRate _ st)))).
  - by left.
Qed.

Lemma timers_inv_grows l l' :
  loop_grows l l' -> timers_inv l -> timers_inv l'.
Proof.
  intros [->|(cb & delay & ->)] H; [done | by apply timers_inv_setTimeout].
Qed.

Lemma timers_inv_clear_timeoutRef st :
  timers_inv (Dashboard.loop st) ->
  timers_inv (Dashboard.loop (Dashboard.clear_timeoutRef st)).
Proof.
  intros H. unfold Dashboard.clear_timeoutRef.
  destruct (Dashboard.timeoutRef st) as [tid|]; [|done].
  cbn. unfold Timers.clearTimeout. by apply timers_inv_filter.
Qed.

Lemma handleSubmit_loop userPrompt st :
  Dashboard.loop (Dashboard.handleSubmit userPrompt st)
  = Dashboard.loop (Dashboard.clear_timeoutRef st).
Proof.
  destruct st as [? ? ? ? ? ? ? ? ? ? ? ? ? ? ? ? ? [tid|] [r0|] ? ? ? ?];
    by lazy -[app length filter].
Qed.

Lemma timers_inv_step steps ev st :
  timers_inv (Dashboard.loop st) ->
  timers_inv (Dashboard.loop (Dashboard.step steps ev st)).
Proof.
  intros H. destruct ev as [online|ms| |userPrompt|r msg|r|r|pid];
    cbn [Dashboard.step].
  - unfold Dashboard.healthResolved.
    pose proof (timers_inv_clear_timeoutRef
                  (Dashboard.set_backendOnline (Some online) st) H) as H1.
    destruct online; [done|].
    cbn. by apply timers_inv_setTimeout.
  - done.
  - destruct (Timers.fire (Dashboard.loop st)) as [[cb l]|] eqn:Hf; [|done].
    eapply timers_inv_grows; [apply loop_run_callback|].
    cbn. by eapply timers_inv_fire.
  - rewrite handleSubmit_loop.
    by apply timers_inv_clear_timeoutRef.
  - destruct (r <? length (Dashboard.runs st)); [|done].
    eapply timers_inv_grows; [apply loop_onMessage | done].
  - by destruct (r <? length (Dashboard.runs st)).
  - by destruct (r <? length (Dashboard.runs st)).
  - done.
Qed.

Lemma shown_snoc_rejected pre x :
  te_type x = TRejected -> shown (pre ++ [x]) = shown pre.
Proof.
  intros Hx. unfold shown. rewrite filter_app.
  rewrite (filter_cons_False _ x) by (intros H; by apply H).
  by rewrite filter_nil, app_nil_r.
Qed.

Lemma shown_snoc_kept pre x :
  te_type x <> TRejected ->
  shown (pre ++ [x]) = shown pre ++ [mkVisible (te_text x) (te_type x) settled].
Proof.
  intros Hx. unfold shown. rewrite filter_app.
  rewrite (filter_cons_True _ x) by done.
  by rewrite filter_nil, fmap_app.
Qed.

Lemma shown_not_hidden toks :
  Forall (fun t => vt_phase t <> hidden) (shown toks).
Proof. unfold shown. rewrite Forall_fmap. by apply Forall_true. Qed.

Lemma type_counts_snoc pre x :
  type_counts (pre ++ [x])
  = let c := type_counts pre in
    match te_type x with
    | TAccepted =>
        mkCounts (accepted c + 1) (rejected c) (corrected c) (drafted c + 1)
    | TRejected =>
        mkCounts (accepted c) (rejected c + 1) (corrected c) (drafted c + 1)
    | TCorrected =>
        mkCounts (accepted c) (rejected c) (corrected c + 1) (drafted c + 1)
    end.
Proof.
  unfold type_counts. rewrite !filter_app, !length_app. cbn zeta.
  assert (Hone : forall ty,
            length (filter (fun t => te_type t = ty) [x])
            = if decide (te_type x = ty) then 1 else 0).
  { intros ty. rewrite filter_cons, filter_nil. by destruct (decide (te_type x = ty)). }
  rewrite !Hone. destruct (te_type x); repeat case_decide; try done; cbn; eq_arith.
Qed.

Lemma findLastIndex_snoc_true {A} (p : A -> bool) l x :
  p x = true -> findLastIndex p (l ++ [x]) = Some (length l).
Proof.
  intros Hx. induction l as [|y l IH]; cbn; [by rewrite Hx|].
  by rewrite IH.
Qed.

Lemma restyle_last_rejected_snoc p q l x :
  vt_type x = TRejected -> vt_phase x = p ->
  Dashboard.restyle_last_rejected p q (l ++ [x]) = l ++ [with_phase q x].
Proof.
  intros Ht Hp. unfold Dashboard.restyle_last_rejected.
  rewrite findLastIndex_snoc_true
    by (rewrite Ht, Hp; by rewrite !bool_decide_true).
  rewrite <- (Nat.add_0_r (length l)). by rewrite alter_app_r.
Qed.

#[local] Arguments Dashboard.restyle_last_rejected : simpl never.
#[local] Arguments shown : simpl never.
#[local] Arguments type_counts : simpl never.

(** Taking the next token off the queue, from a state in which no chain
    closure is pending and the tokens before the queue are on screen. *)
Lemma view_processTokenQueue r st run pre :
  Dashboard.runs st !! r = Some run ->
  chain_timers (Timers.pending (Dashboard.loop st)) = [] ->
  Dashboard.visibleTokens st = shown pre ->
  Dashboard.counts st = type_counts pre ->
  live_view r (Dashboard.processTokenQueue r st)
    (pre ++ Dashboard.tokenQueue run).
Proof.
  intros Hrun Hchain Hv Hc.
  pose proof (lookup_lt_Some _ _ _ Hrun) as Hlt.
  unfold Dashboard.processTokenQueue. rewrite Hrun.
  destruct (Dashboard.tokenQueue run) as [|x rest].
  - exists (Dashboard.mkRun [] false). cbn.
    split; [by apply list_lookup_insert_eq|].
    rewrite Hchain, app_nil_r. by split_and!.
  - unfold live_view. destruct (te_type x) eqn:Hx; emit_norm; cbn;
      (eexists; split; [by apply list_lookup_insert_eq|]);
      rewrite chain_timers_snoc, Hchain; cbn; (split; [done|]).
    + exists (pre ++ [x]). rewrite <- app_assoc. split; [done|].
      rewrite Hv, Hc, shown_snoc_kept, type_counts_snoc, Hx by congruence.
      done.
    + exists pre, x. rewrite Hv, Hc, type_counts_snoc, Hx. done.
    + exists pre, x. rewrite Hv, Hc, type_counts_snoc, Hx. done.
Qed.

Lemma view_frame r st st' toks :
  Dashboard.runs st' = Dashboard.runs st ->
  chain_timers (Timers.pending (Dashboard.loop st'))
  = chain_timers (Timers.pending (Dashboard.loop st)) ->
  Dashboard.visibleTokens st' = Dashboard.visibleTokens st ->
  Dashboard.counts st' = Dashboard.counts st ->
  live_view r st toks -> live_view r st' toks.
Proof.
  intros Hr Hc Hv Hn (run & Hrun & H). exists run.
  by rewrite Hr, Hc, Hv, Hn.
Qed.

Lemma view_checkDone r r' st toks :
  live_view r st toks -> live_view r (Dashboard.checkDone r' st) toks.
Proof.
  intros H. unfold Dashboard.checkDone.
  destruct (Dashboard.runs st !! r') as [run|]; [|done].
  destruct (bool_decide (Dashboard.tokenQueue run = [])
            && negb (Dashboard.processing run)).
  - by apply (view_frame r st).
  - apply (view_frame r st); try done.
    cbn. rewrite chain_timers_snoc. cbn. by rewrite app_nil_r.
Qed.

Lemma chain_timers_keep ts t :
  StronglySorted lt (Timers.timer_id <$> ts) ->
  t ∈ ts -> chain_cb (Timers.callback t) = false ->
  chain_timers (filter (fun u => Timers.timer_id u <> Timers.timer_id t) ts)
  = chain_timers ts.
Proof.
  intros Hs Ht Hc. rewrite chain_timers_filter.
  assert (H : Forall (fun u => Timers.timer_id u <> Timers.timer_id t)
                     (chain_timers ts)).
  { rewrite Forall_forall. intros u Hu Hid.
    apply list_elem_of_filter in Hu as [Hcu Hu].
    assert (u = t) as -> by (by apply (sorted_ids_inj Timers.timer_id ts)).
    congruence. }
  induction H as [|u us Hu _ IH]; [done|].
  rewrite filter_cons_True by done. by rewrite IH.
Qed.

Lemma live_view_timer steps r st toks :
  live_inv r st -> timers_inv (Dashboard.loop st) -> live_view r st toks ->
  live_view r (Dashboard.step steps Dashboard.EvTimer st) toks.
Proof.
  intros Hinv [Hsorted _] Hview.
  pose proof Hinv as (Hc & run & Hrun & Hall & Hlen & Hidle & Hphase).
  destruct Hview as (run' & Hrun' & Hview).
  assert (run' = run) as -> by congruence.
  cbn [Dashboard.step].
  destruct (Timers.fire (Dashboard.loop st)) as [[cb l]|] eqn:Hf;
    [|by exists run].
  destruct (fire_elem _ _ _ Hf) as (t & Hin & -> & Hp).
  assert (Hr : cb_run (Timers.callback t) = Some r)
    by (rewrite Forall_forall in Hall; by apply Hall).
  destruct (chain_cb (Timers.callback t)) eqn:Hchain.
  - assert (Hnone : chain_timers (Timers.pending l) = [])
      by (rewrite Hp; by apply chain_timers_one).
    assert (Ht : t ∈ chain_timers (Timers.pending (Dashboard.loop st)))
      by (unfold chain_timers; by apply list_elem_of_filter).
    destruct (chain_timers (Timers.pending (Dashboard.loop st)))
      as [|t' [|t'' ts]]; [by apply elem_of_nil in Ht | | done].
    apply list_elem_of_singleton in Ht as <-.
    destruct Hview as [Hproc Hview].
    destruct (Timers.callback t) as [| | | | |r'|r'|r'|r'|r'|r'];
      try discriminate Hchain; injection Hr as ->;
      cbn [inflight] in Hview; cbn [Dashboard.run_callback].
    + destruct Hview as (pre & -> & Hv & Hn).
      by apply (view_processTokenQueue r (Dashboard.set_loop l st) run pre).
    + destruct Hview as (pre & x & -> & Hx & Hv & Hn).
      exists run. unfold Dashboard.liveStrike. cbn.
      rewrite chain_timers_snoc, Hnone. cbn. split_and!; [done..|].
      exists pre, x. rewrite Hv, restyle_last_rejected_snoc by done.
      by split_and!.
    + destruct Hview as (pre & x & -> & Hx & Hv & Hn).
      exists run. unfold Dashboard.liveHide. cbn.
      rewrite chain_timers_snoc, Hnone. cbn. split_and!; [done..|].
      exists pre, x. rewrite Hv, restyle_last_rejected_snoc by done.
      by split_and!.
    + destruct Hview as (pre & x & -> & Hx & Hv & Hn).
      unfold Dashboard.liveFilter. cbn zeta.
      replace (pre ++ x :: Dashboard.tokenQueue run)
        with ((pre ++ [x]) ++ Dashboard.tokenQueue run)
        by (by rewrite <- app_assoc).
      apply view_processTokenQueue; try done.
      cbn. rewrite Hv, shown_snoc_rejected by done.
      apply without_hidden_snoc_hidden; [apply shown_not_hidden | done].
    + destruct Hview as (pre & x & -> & Hx & Hv & Hn).
      exists run. unfold Dashboard.liveSettle. cbn.
      rewrite chain_timers_snoc, Hnone. cbn. split_and!; [done..|].
      exists (pre ++ [x]). rewrite <- app_assoc. split; [done|].
      rewrite Hv, set_last_phase_snoc, shown_snoc_kept by congruence.
      cbn. by rewrite Hx.
  - destruct (Timers.callback t) as [| | | | |r'|r'|r'|r'|r'|r'] eqn:Hcb;
      try discriminate Hchain; try discriminate Hr; injection Hr as ->.
    cbn [Dashboard.run_callback]. apply view_checkDone.
    apply (view_frame r st); try done.
    + cbn. rewrite Hp. apply chain_timers_keep; try done. by rewrite Hcb.
    + by exists run.
Qed.

Lemma live_view_message r msg st toks :
  live_view r st toks ->
  live_view r (Dashboard.onMessage r msg st)
    (track_tokens toks (Dashboard.EvMessage r msg)).
Proof.
  intros Hview. destruct msg as [data|data|data|message];
    cbn [Dashboard.onMessage track_tokens].
  - set (st2 := if bool_decide (te_type data = TAccepted)
                   || bool_decide (te_type data = TCorrected) then _ else _).
    assert (H2 : live_view r st2 toks).
    { apply (view_frame r st); try done; subst st2;
        by destruct (bool_decide (te_type data = TAccepted)),
                    (bool_decide (te_type data = TCorrected)). }
    clearbody st2. clear Hview.
    destruct H2 as (run & Hrun & Hview). rewrite Hrun.
    pose proof (lookup_lt_Some _ _ _ Hrun) as Hlt.
    destruct (Dashboard.processing run) eqn:Hproc.
    + exists (Dashboard.mkRun (Dashboard.tokenQueue run ++ [data]) true).
      cbn. split; [by apply list_lookup_insert_eq|].
      destruct (chain_timers (Timers.pending (Dashboard.loop st2)))
        as [|t [|t' ts]]; [by destruct Hview | | done].
      destruct Hview as [_ Hview]. split; [done|].
      destruct (inflight (Timers.callback t)) as [[ty ph]|].
      * destruct Hview as (pre & x & -> & Hx & Hv & Hn).
        exists pre, x. rewrite <- app_assoc. by split_and!.
      * destruct Hview as (pre & -> & Hv & Hn).
        exists pre. rewrite <- app_assoc. by split_and!.
    + destruct (chain_timers (Timers.pending (Dashboard.loop st2)))
        as [|t [|t' ts]] eqn:Hch; [| destruct Hview; congruence | done].
      destruct Hview as (_ & Hq & Hv & Hn).
      pose proof (view_processTokenQueue r
                    (Dashboard.set_run r
                       (Dashboard.mkRun (Dashboard.tokenQueue run ++ [data]) false)
                       st2)
                    (Dashboard.mkRun (Dashboard.tokenQueue run ++ [data]) false)
                    toks) as H.
      rewrite Hq in H. rewrite Hq. cbn [app Dashboard.tokenQueue] in H.
      apply H; try done. cbn. by apply list_lookup_insert_eq.
  - by apply (view_frame r st).
  - apply view_checkDone. by apply (view_frame r st).
  - by apply (view_frame r st).
Qed.

Lemma live_view_submit userPrompt st :
  Timers.pending (Dashboard.loop (Dashboard.clear_timeoutRef st)) = [] ->
  live_view (length (Dashboard.runs st))
    (Dashboard.handleSubmit userPrompt st) [].
Proof.
  intros Hp.
  destruct (handleSubmit_fields userPrompt st) as (_ & Hruns & Hpend & _).
  destruct (handleSubmit_packet_cells userPrompt st)
    as (_ & _ & _ & Hn & _ & Hv).
  exists (Dashboard.mkRun [] false). rewrite Hruns, Hpend, Hp, Hn, Hv.
  split; [by rewrite lookup_app_r, Nat.sub_diag|]. by cbn.
Qed.

(** The transport handle is written by [handleSubmit] only. *)
Lemma cleanupRef_processTokenQueue r st :
  Dashboard.cleanupRef (Dashboard.processTokenQueue r st)
  = Dashboard.cleanupRef st.
Proof.
  unfold Dashboard.processTokenQueue.
  destruct (Dashboard.runs st !! r) as [run|]; [|done].
  destruct (Dashboard.tokenQueue run) as [|token rest]; [done|].
  destruct (te_type token); emit_norm; reflexivity.
Qed.

Lemma cleanupRef_checkDone r st :
  Dashboard.cleanupRef (Dashboard.checkDone r st) = Dashboard.cleanupRef st.
Proof.
  unfold Dashboard.checkDone.
  destruct (Dashboard.runs st !! r) as [run|]; [|done].
  by destruct (bool_decide (Dashboard.tokenQueue run = [])
               && negb (Dashboard.processing run)).
Qed.

Lemma cleanupRef_step steps ev st :
  (forall userPrompt, ev <> Dashboard.EvSubmit userPrompt) ->
  Dashboard.cleanupRef (Dashboard.step steps ev st) = Dashboard.cleanupRef st.
Proof.
  intros Hev. destruct ev as [online|ms| |userPrompt|r msg|r|r|pid];
    cbn [Dashboard.step].
  - unfold Dashboard.healthResolved, Dashboard.clear_timeoutRef.
    cbn [Dashboard.timeoutRef Dashboard.set_backendOnline].
    by destruct (Dashboard.timeoutRef st), online.
  - done.
  - destruct (Timers.fire (Dashboard.loop st)) as [[cb l]|]; [|done].
    destruct cb as [|rej cor|cor|cor| |r|r|r|r|r|r]; cbn [Dashboard.run_callback].
    + unfold Dashboard.processDemoStep.
      destruct (steps !! _) as [[tk i|rej cor i j]|]; emit_norm; reflexivity.
    + unfold Dashboard.demoVerify. emit_norm. reflexivity.
    + reflexivity.
    + unfold Dashboard.demoCorrect. emit_norm. reflexivity.
    + reflexivity.
    + by rewrite cleanupRef_processTokenQueue.
    + reflexivity.
    + reflexivity.
    + unfold Dashboard.liveFilter. cbn zeta.
      by rewrite cleanupRef_processTokenQueue.
    + reflexivity.
    + by rewrite cleanupRef_checkDone.
  - by destruct (Hev userPrompt).
  - destruct (r <? length (Dashboard.runs st)); [|done].
    destruct msg as [data|data|data|message]; cbn [Dashboard.onMessage].
    + set (st2 := if bool_decide (te_type data = TAccepted)
                     || bool_decide (te_type data = TCorrected) then _ else _).
      assert (H2 : Dashboard.cleanupRef st2 = Dashboard.cleanupRef st).
      { subst st2.
        by destruct (bool_decide (te_type data = TAccepted)),
                    (bool_decide (te_type data = TCorrected)). }
      clearbody st2. rewrite <- H2.
      destruct (Dashboard.runs st2 !! r) as [run|]; [|done].
      destruct (Dashboard.processing run); [done|].
      by rewrite cleanupRef_processTokenQueue.
    + reflexivity.
    + by rewrite cleanupRef_checkDone.
    + reflexivity.
  - by destruct (r <? length (Dashboard.runs st)).
  - by destruct (r <? length (Dashboard.runs st)).
  - done.
Qed.

Lemma session_inv_step steps ev st toks :
  session_inv st toks -> orderly_event ev st ->
  session_inv (Dashboard.step steps ev st) (track_tokens toks ev).
Proof.
  intros [Ht Hinv] Hev. split; [by apply timers_inv_step|].
  assert (Hpost : engine_inv (Dashboard.step steps ev st)).
  { destruct Hinv as [Hd|(r & Hl & _)];
      [by apply demo_inv_step | by apply (live_inv_step _ _ r)]. }
  destruct Hpost as [Hd'|(r' & Hl')]; [by left|]. right. exists r'.
  split; [done|].
  pose proof Hl' as (Hc' & _).
  assert (Hcase : (exists userPrompt, ev = Dashboard.EvSubmit userPrompt)
                  \/ ~ (exists userPrompt, ev = Dashboard.EvSubmit userPrompt)).
  { destruct ev; try (right; by intros [? ?]). left. by eexists. }
  destruct Hcase as [[userPrompt ->]|Hns].
  - cbn in Hev. cbn [Dashboard.step track_tokens] in *.
    destruct (handleSubmit_fields userPrompt st) as (Hc & _).
    assert (r' = length (Dashboard.runs st)) as -> by congruence.
    by apply live_view_submit.
  - assert (Hns' : forall userPrompt, ev <> Dashboard.EvSubmit userPrompt)
      by (intros p ->; apply Hns; by eexists).
    rewrite (cleanupRef_step steps ev st Hns') in Hc'.
    destruct Hinv as [Hd|(r & Hl & Hview)].
    + destruct Hd as (_ & Hnone & _). congruence.
    + pose proof Hl as (Hc & _).
      assert (r' = r) as -> by congruence.
      destruct ev as [online|ms| |userPrompt|r0 msg|r0|r0|pid];
        cbn in Hev; cbn [track_tokens].
      * destruct Hev as [_ Hruns]. destruct Hview as (run & Hrun & _).
        by rewrite Hruns in Hrun.
      * by apply (view_frame r st).
      * by apply live_view_timer.
      * by destruct (Hns' userPrompt).
      * assert (r0 = r) as -> by congruence. cbn [Dashboard.step].
        destruct Hview as (run & Hrun & Hview).
        pose proof (lookup_lt_Some _ _ _ Hrun) as Hlt.
        destruct (Nat.ltb_spec r (length (Dashboard.runs st))); [|lia].
        apply live_view_message. by exists run.
      * cbn [Dashboard.step].
        destruct (r0 <? length (Dashboard.runs st)); [|done].
        by apply (view_frame r st).
      * cbn [Dashboard.step].
        destruct (r0 <? length (Dashboard.runs st)); [|done].
        by apply (view_frame r st).
      * by apply (view_frame r st).
Qed.

Lemma session_inv_run steps evs : forall st toks,
  session_inv st toks -> orderly steps evs st ->
  session_inv (Dashboard.run steps evs st) (foldl track_tokens toks evs).
Proof.
  induction evs as [|ev evs IH]; intros st toks Hinv Hord; [done|].
  destruct Hord as [Hev Hord]. cbn. apply IH; [|done].
  by apply session_inv_step.
Qed.

Lemma type_counts_eq toks : counts_eq (type_counts toks).
Proof.
  induction toks as [|x toks IH] using rev_ind; [done|].
  rewrite type_counts_snoc. unfold counts_eq in *. cbn zeta.
  destruct (te_type x); cbn; lia.
Qed.

(** Taking a rejected token off the queue puts it on screen. *)
Lemma rejected_token_put_on_screen r st run x rest :
  Dashboard.runs st !! r = Some run ->
  Dashboard.tokenQueue run = x :: rest ->
  te_type x = TRejected ->
  let st' := Dashboard.processTokenQueue r st in
  Dashboard.visibleTokens st'
  = Dashboard.visibleTokens st ++ [mkVisible (te_text x) TRejected appearing]
  /\ Dashboard.runs st' !! r = Some (Dashboard.mkRun rest true)
  /\ Timers.callback <$> Timers.pending (Dashboard.loop st')
     = (Timers.callback <$> Timers.pending (Dashboard.loop st))
         ++ [Dashboard.CbLiveStrike r].
Proof.
  intros Hrun Hq Hx. cbn zeta.
  pose proof (lookup_lt_Some _ _ _ Hrun) as Hlt.
  unfold Dashboard.processTokenQueue. rewrite Hrun, Hq, Hx.
  emit_norm. cbn. split_and!.
  - done.
  - by apply list_lookup_insert_eq.
  - by rewrite fmap_app.
Qed.

(** X12.  The live adapter renders what it receives.  In an orderly
    session, at every moment of a live run [drafted] is the sum of
    [accepted], [rejected] and [corrected], and the screen and the counts
    are those of [live_view]: with no closure of the token chain pending
    the run is idle and the screen shows the received tokens that are not
    tagged rejected, settled; with [processTokenQueue] pending it shows
    those of the tokens before the queue; and with a closure of an
    animation pending it shows, after those, the token right before the
    queue as its last token, a rejected one appearing before the strike,
    striking before the hide and hidden before the filter, a corrected one
    appearing before it settles.  Taking a rejected token off the queue
    puts it on screen as appearing and schedules the strike.  Whenever
    the current run is not processing, its queue is empty, the screen
    shows exactly the tokens this run has received that are not tagged
    rejected, in arrival order and all settled, and the counts tally every
    received token by its type, [drafted] being their number. *)
Theorem live_run_renders_received (steps : list AnimStep)
    (evs : list Dashboard.Event) :
  orderly steps evs Dashboard.init ->
  let st := Dashboard.run steps evs Dashboard.init in
  (Dashboard.cleanupRef st <> None -> counts_eq (Dashboard.counts st))
  /\ (forall r, Dashboard.cleanupRef st = Some r ->
        live_view r st (current_tokens evs))
  /\ (forall r run x rest,
        Dashboard.runs st !! r = Some run ->
        Dashboard.tokenQueue run = x :: rest ->
        te_type x = TRejected ->
        let st' := Dashboard.processTokenQueue r st in
        Dashboard.visibleTokens st'
        = Dashboard.visibleTokens st
            ++ [mkVisible (te_text x) TRejected appearing]
        /\ Dashboard.runs st' !! r = Some (Dashboard.mkRun rest true)
        /\ Timers.callback <$> Timers.pending (Dashboard.loop st')
           = (Timers.callback <$> Timers.pending (Dashboard.loop st))
               ++ [Dashboard.CbLiveStrike r])
  /\ forall r run,
       Dashboard.cleanupRef st = Some r ->
       Dashboard.runs st !! r = Some run ->
       Dashboard.processing run = false ->
       Dashboard.tokenQueue run = []
       /\ Dashboard.visibleTokens st = shown (current_tokens evs)
       /\ Dashboard.counts st = type_counts (current_tokens evs).
Proof.
  intros Hord st.
  assert (Hinv : session_inv st (current_tokens evs)).
  { apply session_inv_run; [|done]. split.
    - split; cbn; constructor.
    - left. unfold demo_inv. cbn. split_and!; try done. by left. }
  assert (Hpop : forall r run x rest,
            Dashboard.runs st !! r = Some run ->
            Dashboard.tokenQueue run = x :: rest ->
            te_type x = TRejected ->
            let st' := Dashboard.processTokenQueue r st in
            Dashboard.visibleTokens st'
            = Dashboard.visibleTokens st
                ++ [mkVisible (te_text x) TRejected appearing]
            /\ Dashboard.runs st' !! r = Some (Dashboard.mkRun rest true)
            /\ Timers.callback <$> Timers.pending (Dashboard.loop st')
               = (Timers.callback <$> Timers.pending (Dashboard.loop st))
                   ++ [Dashboard.CbLiveStrike r])
    by (intros r run x rest; apply rejected_token_put_on_screen).
  destruct Hinv as [_ [Hd|(r' & Hl & Hview)]].
  - destruct Hd as (_ & Hnone & _).
    split_and!; [done | | done |]; intros r; congruence.
  - pose proof Hl as (Hc' & _).
    split_and!; [| | done |].
    + intros _. destruct Hview as (run' & Hrun' & Hview).
      destruct (chain_timers (Timers.pending (Dashboard.loop st)))
        as [|t [|t' ts]]; [| | done].
      * destruct Hview as (_ & _ & _ & ->). apply type_counts_eq.
      * destruct Hview as [_ Hview].
        destruct (inflight (Timers.callback t)) as [[ty ph]|].
        -- destruct Hview as (pre & x & _ & _ & _ & ->). apply type_counts_eq.
        -- destruct Hview as (pre & _ & _ & ->). apply type_counts_eq.
    + intros r Hc. assert (r' = r) as -> by congruence. done.
    + intros r run Hc Hrun Hproc.
      destruct Hview as (run' & Hrun' & Hview).
      assert (r' = r) as -> by congruence.
      assert (run' = run) as -> by congruence.
      destruct (chain_timers (Timers.pending (Dashboard.loop st)))
        as [|t [|t' ts]]; [| destruct Hview; congruence | done].
      by destruct Hview as (_ & Hq & Hv & Hn).
Qed.

Lemma live_run_renders_received_witness :
  let st := Dashboard.run [] live_session Dashboard.init in
  orderly [] live_session Dashboard.init
  /\ Dashboard.cleanupRef st = Some 0
  /\ Dashboard.runs st !! 0 = Some (Dashboard.mkRun [] false)
  /\ Dashboard.visibleTokens st
     = [mkVisible "A" TAccepted settled; mkVisible " c" TCorrected settled]
  /\ Dashboard.counts st = mkCounts 1 1 1 3
  /\ shown (current_tokens live_session) = Dashboard.visibleTokens st
  /\ Dashboard.visibleTokens
       (Dashboard.run [] (take 8 live_session) Dashboard.init)
     = [mkVisible "A" TAccepted settled; mkVisible " b" TRejected appearing]
  /\ live_view 0 st (current_tokens live_session)
  /\ (forall r run,
        Dashboard.cleanupRef st = Some r ->
        Dashboard.runs st !! r = Some run ->
        Dashboard.processing run = false ->
        Dashboard.tokenQueue run = []
        /\ Dashboard.visibleTokens st = shown (current_tokens live_session)
        /\ Dashboard.counts st = type_counts (current_tokens live_session)).
Proof.
  cbn zeta.
  assert (H : orderly [] live_session Dashboard.init)
    by (vm_compute; repeat split).
  pose proof (live_run_renders_received [] live_session H) as (_ & Hv & _ & Hd).
  split; [exact H|].
  split; [vm_compute; reflexivity|].
  split; [vm_compute; reflexivity|].
  split; [vm_compute; reflexivity|].
  split; [vm_compute; reflexivity|].
  split; [vm_compute; reflexivity|].
  split; [vm_compute; reflexivity|].
  split; [apply Hv; vm_compute; reflexivity | exact Hd].
Defined.


(** ** The screen of the chat stream, firing by firing *)

Lemma done_render st :
  ChatStream.done (ChatStream.render st) = ChatStream.done st.
Proof. by destruct (render_form st) as [evs ->]. Qed.

Lemma done_run_callback steps cb st :
  (cb = ChatStream.CbProcessStep -> steps !! ChatStream.stepIdx st <> None) ->
  ChatStream.done (ChatStream.run_callback steps cb st) = ChatStream.done st.
Proof.
  intros H. destruct cb; cbn [ChatStream.run_callback]; try done.
  unfold ChatStream.processStep.
  destruct (steps !! ChatStream.stepIdx st) as [[tk i|rej cor i j]|];
    [done | done | by destruct H].
Qed.

Lemma chat_done_step steps st w d cb :
  chat_state st w -> view_timers w = [(d, cb)] -> view_now w <= d ->
  (cb = ChatStream.CbProcessStep -> steps !! view_stepIdx w <> None) ->
  ChatStream.done (ChatStream.step steps ChatStream.EvTimer st)
  = ChatStream.done st.
Proof.
  intros H Ht Hle Hcb.
  destruct (chat_fire_full steps _ _ _ _ H Ht Hle) as (l & -> & _).
  destruct H as (_ & _ & Hi & _).
  rewrite done_render, done_run_callback; [done|].
  intros ->. cbn. rewrite Hi. by apply Hcb.
Qed.

Lemma chat_stage_final steps st n d idx c v sts k log :
  chat_state st (mkView n [(d, ChatStream.CbProcessStep)] idx c v sts k log) ->
  n <= d ->
  steps !! idx = None ->
  chat_state (ChatStream.step steps ChatStream.EvTimer st)
    (mkView d [] idx c v
       (ChatStream.mkStatus complete (ChatStream.currentToken sts)
          (ChatStream.status_counts sts)) k log)
  /\ ChatStream.done (ChatStream.step steps ChatStream.EvTimer st) = true.
Proof.
  intros H Hle Hstep.
  chat_run steps H (@eq_refl _ [(d, ChatStream.CbProcessStep)]) Hle.
  unfold ChatStream.processStep.
  change (ChatStream.stepIdx (ChatStream.set_loop l st))
    with (ChatStream.stepIdx st).
  cbn in Hi. rewrite Hi, Hstep. split; [chat_close|].
  by rewrite done_render.
Qed.

Lemma settled_snoc v x :
  Forall (fun t => vt_phase t = settled) v -> vt_phase x = settled ->
  Forall (fun t => vt_phase t = settled) (v ++ [x]).
Proof. intros Hv Hx. apply Forall_app. split; [done | by repeat constructor]. Qed.

Lemma settled_not_hidden v :
  Forall (fun t => vt_phase t = settled) v ->
  Forall (fun t => vt_phase t <> hidden) v.
Proof. intros H. eapply Forall_impl; [exact H|]. by intros t ->. Qed.

Lemma chat_inv_step steps st :
  chat_inv st -> chat_inv (ChatStream.step steps ChatStream.EvTimer st).
Proof.
  intros ([n ts idx c v sts k log] & Hw & Hshape). cbn in Hshape.
  destruct ts as [|[d cb] [|? ?]]; [| |done].
  - pose proof Hw as (_ & Hp & _). cbn in Hp.
    apply fmap_nil_inv in Hp.
    cbn [ChatStream.step]. rewrite fire_none by done.
    eexists (mkView n [] idx c v sts k log). by split.
  - destruct Hshape as (Hle & Hshape & Hdone).
    destruct cb as [|rej cor|cor|cor|]; unfold screen_shape in Hshape;
      cbn in Hshape.
    + destruct (steps !! idx) as [[tk i|rej cor i j]|] eqn:Hstep.
      * eexists. split; [by eapply chat_stage_accepted|]. cbn [view_timers view_now view_tokens].
        split_and!; [lia | by apply settled_snoc |].
        rewrite (chat_done_step steps _ _ _ _ Hw eq_refl Hle); [done|].
        cbn [view_stepIdx]. by rewrite Hstep.
      * eexists. split; [by eapply chat_stage_rejection|]. cbn [view_timers view_now view_tokens].
        split_and!; [lia | by eexists _, _ |].
        rewrite (chat_done_step steps _ _ _ _ Hw eq_refl Hle); [done|].
        cbn [view_stepIdx]. by rewrite Hstep.
      * destruct (chat_stage_final steps _ _ _ _ _ _ _ _ _ Hw Hle Hstep)
          as [H1 H2].
        eexists. split; [exact H1|]. by cbn [view_timers view_now view_tokens].
    + destruct Hshape as (v0 & x & -> & Hv & Hty & Hph).
      eexists. split; [by eapply chat_stage_verify|]. cbn [view_timers view_now view_tokens].
      split_and!; [lia | by eexists _, _ |].
      by rewrite (chat_done_step steps _ _ _ _ Hw eq_refl Hle).
    + destruct Hshape as (v0 & x & -> & Hv & Hty & Hph).
      eexists. split; [by eapply chat_stage_hide|]. cbn [view_timers view_now view_tokens].
      split_and!; [lia | by eexists _, _ |].
      by rewrite (chat_done_step steps _ _ _ _ Hw eq_refl Hle).
    + destruct Hshape as (v0 & x & -> & Hv & Hty & Hph).
      eexists. split.
      { eapply chat_stage_correct; try done. by apply settled_not_hidden. }
      cbn [view_timers view_now view_tokens]. split_and!; [lia | by eexists _, _ |].
      by rewrite (chat_done_step steps _ _ _ _ Hw eq_refl Hle).
    + destruct Hshape as (v0 & x & -> & Hv & Hty & Hph).
      eexists. split; [by eapply chat_stage_settle|]. cbn [view_timers view_now view_tokens].
      split_and!; [lia | by apply settled_snoc |].
      by rewrite (chat_done_step steps _ _ _ _ Hw eq_refl Hle).
Qed.

Lemma chat_inv_mounted steps k :
  chat_inv (ChatStream.run steps
              (ChatStream.EvMount :: replicate k ChatStream.EvTimer)
              ChatStream.init).
Proof.
  change (ChatStream.run steps (ChatStream.EvMount :: ?evs) ChatStream.init)
    with (ChatStream.run steps evs
            (ChatStream.step steps ChatStream.EvMount ChatStream.init)).
  assert (H0 : chat_inv (ChatStream.step steps ChatStream.EvMount ChatStream.init)).
  { exists (mkView 0 [(INITIAL_DELAY, ChatStream.CbProcessStep)] 0
              no_counts [] (ChatStream.mkStatus idle EmptyString no_counts)
              0 []).
    split; [vm_compute; by repeat split|]. cbn.
    split_and!; [unfold INITIAL_DELAY; lia | constructor | done]. }
  revert H0. generalize (ChatStream.step steps ChatStream.EvMount ChatStream.init).
  induction k as [|k IH]; intros st H; [done|].
  cbn [replicate ChatStream.run foldl]. apply IH. by apply chat_inv_step.
Qed.

Lemma getPhaseClass_settled t :
  vt_phase t = settled -> getPhaseClass t ∈ resting_classes.
Proof.
  intros H. unfold getPhaseClass, resting_classes. rewrite H.
  destruct (vt_type t); cbn;
    repeat first [apply list_elem_of_here | apply list_elem_of_further].
Qed.

(** X13.  The screen of the chat stream, firing by firing.  After the
    mount and any number of timer firings, for any list of steps, every
    token on screen except possibly the last has settled, and is drawn
    with one of the three classes of a token at rest; the last token is
    the only one that can be appearing, striking or hidden, and it has
    settled too once [done] is set.  No token is ever in the render phase
    [struck], so the [struck] test of [getPhaseClass] never decides. *)
Theorem chat_screen_one_in_flight (steps : list AnimStep) (k : nat) :
  let st := ChatStream.run steps
              (ChatStream.EvMount :: replicate k ChatStream.EvTimer)
              ChatStream.init in
  exists v tail,
    ChatStream.visibleTokens st = v ++ tail
    /\ length tail <= 1
    /\ Forall (fun t => vt_phase t = settled) v
    /\ Forall (fun t => getPhaseClass t ∈ resting_classes) v
    /\ Forall (fun t => vt_phase t <> struck) (ChatStream.visibleTokens st)
    /\ (ChatStream.done st = true -> tail = []).
Proof.
  cbn zeta. pose proof (chat_inv_mounted steps k) as Hinv.
  set (st := ChatStream.run steps _ ChatStream.init) in *. clearbody st.
  destruct Hinv as ([n ts idx c v sts i log] & Hw & Hshape).
  destruct Hw as (_ & _ & _ & _ & Hv & _). cbn in Hv, Hshape. rewrite Hv.
  assert (Hrest : forall l, Forall (fun t => vt_phase t = settled) l ->
            Forall (fun t => getPhaseClass t ∈ resting_classes) l
            /\ Forall (fun t => vt_phase t <> struck) l).
  { intros l Hl. split; (eapply Forall_impl; [exact Hl|]); cbn.
    - apply getPhaseClass_settled.
    - by intros t ->. }
  destruct ts as [|[d cb] [|? ?]]; [| |done].
  - destruct Hshape as [Hs _]. destruct (Hrest _ Hs) as [H1 H2].
    exists v, []. rewrite app_nil_r. split_and!; try done. cbn. lia.
  - destruct Hshape as (_ & Hshape & Hdone). unfold screen_shape in Hshape.
    destruct (in_flight cb) as [[ty ph]|] eqn:Hcb.
    + destruct Hshape as (v0 & x & -> & Hs & Hty & Hph).
      destruct (Hrest _ Hs) as [H1 H2].
      exists v0, [x]. split_and!; try done.
      * apply Forall_app. split; [done|]. constructor; [|constructor].
        destruct cb; cbn in Hcb; simplify_eq; congruence.
      * congruence.
    + destruct (Hrest _ Hshape) as [H1 H2].
      exists v, []. rewrite app_nil_r. split_and!; try done. cbn. lia.
Qed.

Lemma slice_last5_keeps_two {A} (l : list A) a b :
  exists older, ChatStream.slice_last5 (l ++ [a; b]) = older ++ [a; b].
Proof.
  unfold ChatStream.slice_last5. rewrite length_app. cbn [length].
  exists (drop (length l + 2 - 5) l). rewrite drop_app_le by lia. done.
Qed.

(** X14.  The event feed gets two entries with the same key from every
    accepted step.  Whenever the chat stream, mounted once, is about to
    process an accepted step, the firing appends the [draft] and the
    [verified] event of the token to the log, both with the id that
    [eventIdRef] holds after the step: [addEvent] bumps the counter twice
    before React runs either updater.  The keys [evt.id] of the feed in
    [StatusBar] are then not distinct. *)
Theorem accepted_step_logs_duplicate_id (steps : list AnimStep) (k : nat)
    (tk : Token.t) (i : nat) :
  let st := ChatStream.run steps
              (ChatStream.EvMount :: replicate k ChatStream.EvTimer)
              ChatStream.init in
  let st' := ChatStream.step steps ChatStream.EvTimer st in
  Timers.callback <$> Timers.pending (ChatStream.loop st)
  = [ChatStream.CbProcessStep] ->
  steps !! ChatStream.stepIdx st = Some (KAccepted tk i) ->
  ChatStream.eventIdRef st' = ChatStream.eventIdRef st + 2
  /\ (exists older d,
        ChatStream.statusEvents st'
        = older
            ++ [ChatStream.mkEvent (ChatStream.eventIdRef st') ChatStream.draft
                  (Text.trim (Token.text tk)) d;
                ChatStream.mkEvent (ChatStream.eventIdRef st')
                  ChatStream.verified (Text.trim (Token.text tk)) d])
  /\ ~ NoDup (feed_keys (ChatStream.statusEvents st')).
Proof.
  cbn zeta. intros Hcb Hstep.
  pose proof (chat_inv_mounted steps k) as Hinv.
  set (st := ChatStream.run steps _ ChatStream.init) in *. clearbody st.
  destruct Hinv as ([n ts idx c v sts e log] & Hw & Hshape).
  pose proof Hw as (_ & Hp & Hi & _ & _ & _ & He & _). cbn in Hp, Hi, He.
  assert (Hts : exists d, ts = [(d, ChatStream.CbProcessStep)]).
  { destruct (Timers.pending (ChatStream.loop st)) as [|t [|? ?]];
      try done.
    cbn in Hcb. injection Hcb as Hcb. subst ts. cbn. rewrite Hcb. by eexists. }
  destruct Hts as [d ->]. cbn in Hshape. destruct Hshape as (Hle & _).
  rewrite Hi in Hstep.
  pose proof (chat_stage_accepted steps _ _ _ _ _ _ _ _ _ tk i Hw Hle Hstep)
    as (_ & _ & _ & _ & _ & _ & He' & Hlog & _).
  cbn [view_eventId view_log] in He', Hlog. unfold step_events in Hlog.
  rewrite He', He, Hlog.
  destruct (slice_last5_keeps_two log
              (ChatStream.mkEvent (e + 2) ChatStream.draft
                 (Text.trim (Token.text tk)) d)
              (ChatStream.mkEvent (e + 2) ChatStream.verified
                 (Text.trim (Token.text tk)) d)) as [older Hold].
  rewrite Hold. split_and!; [done | by exists older, d |].
  unfold feed_keys. rewrite fmap_app. cbn. intros Hnd.
  apply NoDup_app in Hnd as (_ & _ & Hnd).
  apply NoDup_cons in Hnd as [Hnd _]. apply Hnd. apply list_elem_of_here.
Qed.

Lemma accepted_step_logs_duplicate_id_witness :
  let steps := buildSteps worked_example in
  let st := ChatStream.run steps [ChatStream.EvMount] ChatStream.init in
  let st' := ChatStream.step steps ChatStream.EvTimer st in
  Timers.callback <$> Timers.pending (ChatStream.loop st)
  = [ChatStream.CbProcessStep]
  /\ steps !! ChatStream.stepIdx st = Some (KAccepted (tok "The" TAccepted) 0)
  /\ feed_keys (ChatStream.statusEvents st') = [2; 2]
  /\ ~ NoDup (feed_keys (ChatStream.statusEvents st')).
Proof.
  cbn zeta.
  assert (H1 : Timers.callback
                 <$> Timers.pending
                       (ChatStream.loop
                          (ChatStream.run (buildSteps worked_example)
                             [ChatStream.EvMount] ChatStream.init))
               = [ChatStream.CbProcessStep]) by (vm_compute; reflexivity).
  assert (H2 : buildSteps worked_example
                 !! ChatStream.stepIdx
                      (ChatStream.run (buildSteps worked_example)
                         [ChatStream.EvMount] ChatStream.init)
               = Some (KAccepted (tok "The" TAccepted) 0))
    by (vm_compute; reflexivity).
  split; [exact H1|]. split; [exact H2|].
  split; [vm_compute; reflexivity|].
  exact (proj2 (proj2 (accepted_step_logs_duplicate_id
                         (buildSteps worked_example) 0
                         (tok "The" TAccepted) 0 H1 H2))).
Defined.


(** ** Every transport is cleaned up exactly once *)

Lemma transport_cells_emit l c text st :
  transport_cells (Dashboard.emitPacketForWords l c text st)
  = transport_cells st.
Proof. emit_frame l c text st. Qed.

Lemma transport_cells_processTokenQueue r st :
  transport_cells (Dashboard.processTokenQueue r st) = transport_cells st.
Proof.
  unfold Dashboard.processTokenQueue.
  destruct (Dashboard.runs st !! r) as [run|]; [|done].
  destruct (Dashboard.tokenQueue run) as [|token rest];
    [|destruct (te_type token)]; emit_norm; unfold transport_cells; cbn;
    by rewrite length_insert.
Qed.

Lemma transport_cells_checkDone r st :
  transport_cells (Dashboard.checkDone r st) = transport_cells st.
Proof.
  unfold Dashboard.checkDone.
  destruct (Dashboard.runs st !! r) as [run|]; [|done].
  by destruct (bool_decide (Dashboard.tokenQueue run = [])
               && negb (Dashboard.processing run)).
Qed.

Lemma transport_cells_step steps ev st :
  (forall userPrompt, ev <> Dashboard.EvSubmit userPrompt) ->
  transport_cells (Dashboard.step steps ev st) = transport_cells st.
Proof.
  intros Hev. destruct ev as [online|ms| |userPrompt|r msg|r|r|pid];
    cbn [Dashboard.step].
  - unfold Dashboard.healthResolved, Dashboard.clear_timeoutRef.
    cbn [Dashboard.timeoutRef Dashboard.set_backendOnline].
    by destruct (Dashboard.timeoutRef st), online.
  - done.
  - destruct (Timers.fire (Dashboard.loop st)) as [[cb l]|]; [|done].
    destruct cb as [|rej cor|cor|cor| |r|r|r|r|r|r]; cbn [Dashboard.run_callback].
    + unfold Dashboard.processDemoStep.
      destruct (steps !! _) as [[tk i|rej cor i j]|]; emit_norm; reflexivity.
    + unfold Dashboard.demoVerify. emit_norm. reflexivity.
    + reflexivity.
    + unfold Dashboard.demoCorrect. emit_norm. reflexivity.
    + reflexivity.
    + by rewrite transport_cells_processTokenQueue.
    + reflexivity.
    + reflexivity.
    + unfold Dashboard.liveFilter. cbn zeta.
      by rewrite transport_cells_processTokenQueue.
    + reflexivity.
    + by rewrite transport_cells_checkDone.
  - by destruct (Hev userPrompt).
  - destruct (r <? length (Dashboard.runs st)); [|done].
    destruct msg as [data|data|data|message]; cbn [Dashboard.onMessage].
    + set (st2 := if bool_decide (te_type data = TAccepted)
                     || bool_decide (te_type data = TCorrected) then _ else _).
      assert (H2 : transport_cells st2 = transport_cells st).
      { subst st2.
        by destruct (bool_decide (te_type data = TAccepted)),
                    (bool_decide (te_type data = TCorrected)). }
      clearbody st2. rewrite <- H2.
      destruct (Dashboard.runs st2 !! r) as [run|]; [|done].
      destruct (Dashboard.processing run).
      * unfold transport_cells. cbn. by rewrite length_insert.
      * rewrite transport_cells_processTokenQueue.
        unfold transport_cells. cbn. by rewrite length_insert.
    + reflexivity.
    + by rewrite transport_cells_checkDone.
    + reflexivity.
  - by destruct (r <? length (Dashboard.runs st)).
  - by destruct (r <? length (Dashboard.runs st)).
  - done.
Qed.

Lemma handleSubmit_transport userPrompt st :
  transport_cells (Dashboard.handleSubmit userPrompt st)
  = (Some (length (Dashboard.runs st)),
     Dashboard.requests st
       ++ [(length (Dashboard.runs st),
            mkRequest userPrompt (Some 64%float) None None None)],
     Dashboard.cleanupCalls st
       ++ match Dashboard.cleanupRef st with Some r => [r] | None => [] end,
     length (Dashboard.runs st) + 1).
Proof.
  destruct st as [? ? ? ? ? ? ? ? ? ? ? ? ? ? ? ? ? [tid|] [r0|] ? ? ? ?];
    unfold transport_cells; lazy -[app length filter Nat.add];
    by rewrite ?length_app, ?app_nil_r.
Qed.

Lemma transports_of_snoc ps p :
  transports_of (ps ++ [p])
  = (Some (length ps),
     (transports_of ps).1.1.2
       ++ [(length ps, mkRequest p (Some 64%float) None None None)],
     (transports_of ps).1.2
       ++ match (transports_of ps).1.1.1 with Some r => [r] | None => [] end,
     length ps + 1).
Proof.
  unfold transports_of. rewrite imap_app, length_app. cbn [length imap fst snd].
  rewrite Nat.add_0_r, Nat.add_1_r. cbn [Nat.sub]. rewrite Nat.sub_0_r.
  destruct ps as [|q ps]; [done|].
  cbn [length]. rewrite Nat.sub_succ, Nat.sub_0_r.
  by rewrite (seq_S (length ps) 0).
Qed.

Lemma transport_cells_run steps evs :
  transport_cells (Dashboard.run steps evs Dashboard.init)
  = transports_of (submitted evs).
Proof.
  induction evs as [|ev evs IH] using rev_ind; [done|].
  unfold submitted in *. rewrite run_app, omap_app.
  cbn [Dashboard.run foldl omap].
  set (st := Dashboard.run steps evs Dashboard.init) in *. clearbody st.
  destruct ev as [online|ms| |userPrompt|r msg|r|r|pid]; cbn [list_omap];
    try (rewrite app_nil_r, transport_cells_step by done; exact IH).
  cbn [Dashboard.step].
  rewrite handleSubmit_transport, transports_of_snoc.
  rewrite <- IH. unfold transport_cells. cbn [fst snd].
  assert (Hlen : length (Dashboard.runs st)
                 = length (omap (fun ev => match ev with
                                           | Dashboard.EvSubmit p => Some p
                                           | _ => None
                                           end) evs)).
  { by injection IH. }
  by rewrite Hlen.
Qed.

(** X15.  Every transport is cleaned up exactly once.  For any sequence
    of events, the [k]-th submission calls [streamInference] with the
    submitted prompt and [max_tokens] 64 and nothing else set; the
    cleanup of each transport but the latest has been invoked exactly
    once, in the order in which the transports were opened; the latest
    one is the current handle and has not been cleaned up; and the
    unmount cleans up that one too, so that no transport is left open or
    closed twice.  No other event touches the handle. *)
Theorem transports_closed_once (steps : list AnimStep)
    (evs : list Dashboard.Event) :
  let st := Dashboard.run steps evs Dashboard.init in
  let n := length (submitted evs) in
  transport_cells st = transports_of (submitted evs)
  /\ Dashboard.cleanupCalls st = seq 0 (n - 1)
  /\ Dashboard.cleanupCalls (unmount st) = seq 0 n
  /\ NoDup (Dashboard.cleanupCalls (unmount st))
  /\ fst <$> Dashboard.requests st = seq 0 n.
Proof.
  cbn zeta.
  pose proof (transport_cells_run steps evs) as H.
  set (st := Dashboard.run steps evs Dashboard.init) in *. clearbody st.
  set (ps := submitted evs) in *. clearbody ps.
  unfold transport_cells, transports_of in H. injection H as Hc Hr Hcalls Hruns.
  assert (Hun : Dashboard.cleanupCalls (unmount st) = seq 0 (length ps)).
  { unfold unmount, Dashboard.clear_timeoutRef.
    destruct (Dashboard.timeoutRef st) as [tid|];
      cbn [Dashboard.cleanupRef Dashboard.clearTimeout Dashboard.set_loop];
      rewrite Hc; destruct ps as [|p ps]; cbn [length]; try done;
      cbn [Dashboard.cleanupCalls Dashboard.set_cleanupCalls
           Dashboard.clearTimeout Dashboard.set_loop];
      rewrite Hcalls; cbn [length]; rewrite Nat.sub_succ, Nat.sub_0_r;
      by rewrite (seq_S (length ps) 0). }
  split_and!.
  - unfold transport_cells, transports_of. by rewrite Hc, Hr, Hcalls, Hruns.
  - done.
  - done.
  - rewrite Hun. apply NoDup_seq.
  - rewrite Hr. clear.
    induction ps as [|p ps IH] using rev_ind; [done|].
    rewrite imap_app, fmap_app, length_app. cbn.
    rewrite Nat.add_0_r, Nat.add_1_r, seq_S. by rewrite IH.
Qed.
